(** * NestWise: the multi-agent orchestration of [Agentic_AI/langgraph.py]

    A shallow embedding of the orchestration code of the LangGraph backend
    (profile store, extraction agent, template matcher, interview agent,
    planner, summarizer, router, session entry points, and the two HTTP
    endpoints of [routers/chatBot.py] that call them), the properties of the
    specification that were checked against it, and further properties of
    the code.

    Conventions of the embedding.
    - Python [dict]s are insertion-ordered association lists with unique keys
      (module [Dict]); [int]s are [Z]; [str]s are [string]s of ASCII text.
    - The two profile dictionaries of a session are Python objects that the
      agents update in place and share by reference; they live in a store of
      the [World], and the states hold their locations.
    - Language-model calls, [json.loads]/[json.dumps] and the vector store are
      the environment: the replies of the models are a script consumed in
      order, and every call is logged.
    - Code raises exceptions; a computation returns an [outcome] and the
      [World] it leaves behind, also when it raises. *)

From Stdlib Require Import List String Ascii ZArith QArith Bool Arith Lia.
From Stdlib Require Import DecimalString.
From Stdlib Require Import Permutation Sorted.
Import ListNotations.
Close Scope Q_scope.
Open Scope string_scope.
Open Scope list_scope.

(** String concatenation, Python's [+] on [str]. *)
Infix "+++" := String.append (right associativity, at level 60).

Set Implicit Arguments.

(** ** Python strings *)

Module PyStr.

Definition dq : ascii := ascii_of_nat 34.
Definition sq : ascii := ascii_of_nat 39.

(** [str.isspace] on ASCII: tab to carriage return, the four separators, space. *)
Definition is_space (c : ascii) : bool :=
  let n := nat_of_ascii c in
  ((9 <=? n) && (n <=? 13) || (28 <=? n) && (n <=? 32))%nat.

Fixpoint lstrip (s : string) : string :=
  match s with
  | EmptyString => EmptyString
  | String c s' => if is_space c then lstrip s' else s
  end.

Fixpoint rstrip (s : string) : string :=
  match s with
  | EmptyString => EmptyString
  | String c s' =>
      match rstrip s' with
      | EmptyString => if is_space c then EmptyString else String c EmptyString
      | r => String c r
      end
  end.

Definition strip (s : string) : string := rstrip (lstrip s).

Definition lower_char (c : ascii) : ascii :=
  let n := nat_of_ascii c in
  if ((65 <=? n) && (n <=? 90))%nat then ascii_of_nat (n + 32) else c.

Fixpoint lower (s : string) : string :=
  match s with
  | EmptyString => EmptyString
  | String c s' => String (lower_char c) (lower s')
  end.

Definition startswith (s p : string) : bool := String.prefix p s.

(** [needle in s] *)
Fixpoint contains (needle s : string) : bool :=
  String.prefix needle s ||
  match s with
  | EmptyString => false
  | String _ s' => contains needle s'
  end.

(** [s.replace(a, b)] for single characters *)
Fixpoint replace_char (a b : ascii) (s : string) : string :=
  match s with
  | EmptyString => EmptyString
  | String c s' => String (if Ascii.eqb c a then b else c) (replace_char a b s')
  end.

(** [sep.join(parts)] *)
Fixpoint join (sep : string) (parts : list string) : string :=
  match parts with
  | [] => EmptyString
  | [p] => p
  | p :: rest => p +++ sep +++ join sep rest
  end.

(** [os.path.basename]: what follows the last slash *)
Fixpoint basename (s : string) : string :=
  match s with
  | EmptyString => EmptyString
  | String c s' =>
      if contains "/" s then basename s' else s
  end.

Definition of_Z (z : Z) : string := NilZero.string_of_int (Z.to_int z).

Definition of_bool (b : bool) : string := if b then "True" else "False".

Definition hex_digit (n : nat) : ascii :=
  ascii_of_nat (if (n <? 10)%nat then 48 + n else 87 + n).

Definition escape_char (quote c : ascii) : string :=
  let n := nat_of_ascii c in
  if Ascii.eqb c "\" then "\\"
  else if Ascii.eqb c quote then String "\" (String c EmptyString)
  else if (n =? 10)%nat then "\n"
  else if (n =? 13)%nat then "\r"
  else if (n =? 9)%nat then "\t"
  else if ((n <? 32) || (n =? 127))%nat
       then String "\" (String "x" (String (hex_digit (n / 16)) (String (hex_digit (n mod 16)) EmptyString)))
  else String c EmptyString.

Fixpoint escape (quote : ascii) (s : string) : string :=
  match s with
  | EmptyString => EmptyString
  | String c s' => escape_char quote c +++ escape quote s'
  end.

(** [repr] of a [str]: single quotes, unless the text has a single quote
    and no double quote. *)
Definition repr (s : string) : string :=
  let quote :=
    if contains (String sq EmptyString) s && negb (contains (String dq EmptyString) s)
    then dq else sq in
  String quote (escape quote s +++ String quote EmptyString).

End PyStr.

(** ** Python dictionaries: insertion-ordered, unique keys *)

Module Dict.
Section Ops.
Context {V : Type}.

Definition t := list (string * V).

Fixpoint get (k : string) (d : list (string * V)) : option V :=
  match d with
  | [] => None
  | (k', v) :: rest => if String.eqb k k' then Some v else get k rest
  end.

(** [k in d] *)
Definition mem (k : string) (d : list (string * V)) : bool :=
  match get k d with Some _ => true | None => false end.

(** [d[k] = v]: an existing key keeps its place, a new one goes last. *)
Fixpoint set (k : string) (v : V) (d : list (string * V)) : list (string * V) :=
  match d with
  | [] => [(k, v)]
  | (k', v') :: rest =>
      if String.eqb k k' then (k', v) :: rest else (k', v') :: set k v rest
  end.

Definition keys (d : list (string * V)) : list string := map fst d.

Definition values (d : list (string * V)) : list V := map snd d.

(** [d.update(other)] *)
Definition update (d other : list (string * V)) : list (string * V) :=
  fold_left (fun acc kv => set (fst kv) (snd kv) acc) other d.

(** the dictionary a sequence of key/value pairs builds (later pairs win) *)
Definition of_pairs (l : list (string * V)) : list (string * V) := update [] l.
End Ops.
End Dict.

(** ** Values read from JSON *)

(** What [json.loads] returns.  A float is kept by its [repr], which
    determines it. *)
#[warnings="-register-all"]
Inductive json : Type :=
| JNull
| JBool (b : bool)
| JInt (z : Z)
| JFloat (repr : string)
| JStr (s : string)
| JArr (items : list json)
| JObj (members : list (string * json)).

(** [bool(v)] *)
Definition truthy (v : json) : bool :=
  match v with
  | JNull => false
  | JBool b => b
  | JInt z => negb (z =? 0)%Z
  | JFloat r => negb (String.eqb r "0.0" || String.eqb r "-0.0")
  | JStr s => negb (String.eqb s "")
  | JArr items => match items with [] => false | _ => true end
  | JObj members => match members with [] => false | _ => true end
  end.

Fixpoint py_repr (v : json) : string :=
  match v with
  | JNull => "None"
  | JBool b => PyStr.of_bool b
  | JInt z => PyStr.of_Z z
  | JFloat r => r
  | JStr s => PyStr.repr s
  | JArr items =>
      "[" +++ PyStr.join ", " (map py_repr items) +++ "]"
  | JObj members =>
      "{" +++ PyStr.join ", "
               (map (fun kv => PyStr.repr (fst kv) +++ ": " +++ py_repr (snd kv)) members)
          +++ "}"
  end.

(** [str(v)], what an f-string interpolates *)
Definition py_str (v : json) : string :=
  match v with
  | JStr s => s
  | _ => py_repr v
  end.

(** ** Messages *)

(** [m.type] of a LangChain message *)
Inductive role := system | human | ai | tool.

Definition role_eqb (a b : role) : bool :=
  match a, b with
  | system, system | human, human | ai, ai | tool, tool => true
  | _, _ => false
  end.

(** A message's identity: the module-level messages are single objects, every
    other message gets the next fresh identifier when it is created (LangGraph
    draws a uuid when the message first enters a channel). *)
Inductive msg_id := Static (name : string) | Fresh (n : nat).

Definition msg_id_eqb (a b : msg_id) : bool :=
  match a, b with
  | Static x, Static y => String.eqb x y
  | Fresh x, Fresh y => Nat.eqb x y
  | _, _ => false
  end.

Record message := {
  mtype : role;
  content : string;
  tool_calls : list string;   (* the queries of the [retrieve] calls an AI message asks for *)
  mid : msg_id
}.

(** [m1 == m2] *)
Definition message_eqb (a b : message) : bool :=
  role_eqb (mtype a) (mtype b) && String.eqb (content a) (content b)
  && (if list_eq_dec string_dec (tool_calls a) (tool_calls b) then true else false)
  && msg_id_eqb (mid a) (mid b).

(** The [add_messages] reducer of [MessagesState]: a message whose id is
    already in the channel replaces that one, any other is appended. *)
Fixpoint replace_or_append (m : message) (l : list message) : list message :=
  match l with
  | [] => [m]
  | x :: rest =>
      if msg_id_eqb (mid x) (mid m) then m :: rest else x :: replace_or_append m rest
  end.

Definition add_messages (left right : list message) : list message :=
  fold_left (fun acc m => replace_or_append m acc) right left.

(** [l[-1:]] *)
Definition last1 {A} (l : list A) : list A :=
  match rev l with
  | x :: _ => [x]
  | [] => []
  end.

(** ** Profile store *)

(** One entry of the shadow profile: [{"collected": bool, "importance": int}]. *)
Record Entry := { collected : bool; importance : Z }.

Definition ShadowProfile := list (string * Entry).
Definition RealProfile := list (string * json).

(** A location in the store of profile objects. *)
Definition loc := nat.

(** ** The states of the sub-graphs and of the master graph

    A key that a state dictionary may lack is an [option]. *)

Record ChatbotState := {
  cb_messages : list message;
  cb_shadow_profile : option loc
}.

Record ExtractorState := {
  ex_messages : list message;
  ex_real_profile : option loc;
  ex_shadow_profile : option loc;
  ex_all_fields_filled : option bool;
  ex_conversation_title : option string
}.

Record MatcherState := {
  mt_messages : list message;
  mt_real_profile : option loc;
  mt_shadow_profile : option loc;
  mt_selected_template : option string;
  mt_need_no_more_fields : option bool   (* set by [start_session], not a key of the schema *)
}.

Record SummarizerState := {
  sm_messages : list message;
  sm_real_profile : option loc;
  sm_summary : option string
}.

Record PlannerState := {
  pl_messages : list message;
  pl_real_profile : option loc;
  pl_shadow_profile : option loc
}.

Record MasterState := {
  ms_messages : list (option message);   (* [chat_step] appends [None] for an empty text *)
  ms_chatbot : ChatbotState;
  ms_extractor : ExtractorState;
  ms_summarizer : option SummarizerState;
  ms_matcher : MatcherState;
  ms_real_profile : loc;
  ms_shadow_profile : loc;
  ms_conversation_title : option string;
  ms_planner : option PlannerState
}.

(** ** The environment *)

Inductive Model :=
| model_chatbot | model_summarizer | model_matcher | model_extractor
| model_planner | model_formatter.

(** The place of the program a model is called from. *)
Inductive site := Extract | Title | Match | Chat | Summarize | Query | Plan | Format.

Definition site_eqb (a b : site) : bool :=
  match a, b with
  | Extract, Extract | Title, Title | Match, Match | Chat, Chat
  | Summarize, Summarize | Query, Query | Plan, Plan | Format, Format => true
  | _, _ => false
  end.

(** What is observed of a run: the model calls with their prompts, and the
    nodes the graphs enter. *)
Inductive event :=
| Invoke (m : Model) (s : site) (prompt : list message)
| Enter (graph node : string).

Record AIReply := { r_content : string; r_tool_calls : list string }.

(** A model call answers or raises. *)
Inductive reply := Fails (reason : string) | Says (r : AIReply).

(** A page chunk of the vector store with its metadata. *)
Record Document := {
  page_content : string;
  doc_source : option string;
  doc_page : option string
}.

Inductive exn :=
| JSONDecodeError
| ZeroDivisionError
| AttributeError
| KeyError (key : string)
| IndexError
| TypeError
| ModelError (reason : string)
| MessageCoercionError
| GraphRecursionError.

Inductive outcome (A : Type) :=
| Ok (a : A)
| Raise (e : exn).
Arguments Ok {A} a.
Arguments Raise {A} e.

(** The process: the store of profile objects, the two module globals that
    [chat_step] assigns, and the environment. *)
Record World := {
  shadows : list ShadowProfile;
  reals : list RealProfile;
  state : option MasterState;
  prev_assistant_message : option message;
  replies : list reply;
  log : list event;
  next_id : nat;
  json_loads : string -> option json;
  json_dumps : json -> string;
  similarity_search : string -> list Document
}.

Definition with_shadows (f : list ShadowProfile -> list ShadowProfile) (w : World) : World :=
  {| shadows := f (shadows w); reals := reals w; state := state w;
     prev_assistant_message := prev_assistant_message w; replies := replies w;
     log := log w; next_id := next_id w; json_loads := json_loads w;
     json_dumps := json_dumps w; similarity_search := similarity_search w |}.

Definition with_reals (f : list RealProfile -> list RealProfile) (w : World) : World :=
  {| shadows := shadows w; reals := f (reals w); state := state w;
     prev_assistant_message := prev_assistant_message w; replies := replies w;
     log := log w; next_id := next_id w; json_loads := json_loads w;
     json_dumps := json_dumps w; similarity_search := similarity_search w |}.

Definition with_state (s : option MasterState) (w : World) : World :=
  {| shadows := shadows w; reals := reals w; state := s;
     prev_assistant_message := prev_assistant_message w; replies := replies w;
     log := log w; next_id := next_id w; json_loads := json_loads w;
     json_dumps := json_dumps w; similarity_search := similarity_search w |}.

Definition with_prev (m : option message) (w : World) : World :=
  {| shadows := shadows w; reals := reals w; state := state w;
     prev_assistant_message := m; replies := replies w;
     log := log w; next_id := next_id w; json_loads := json_loads w;
     json_dumps := json_dumps w; similarity_search := similarity_search w |}.

Definition with_replies (r : list reply) (w : World) : World :=
  {| shadows := shadows w; reals := reals w; state := state w;
     prev_assistant_message := prev_assistant_message w; replies := r;
     log := log w; next_id := next_id w; json_loads := json_loads w;
     json_dumps := json_dumps w; similarity_search := similarity_search w |}.

Definition with_log (l : list event) (w : World) : World :=
  {| shadows := shadows w; reals := reals w; state := state w;
     prev_assistant_message := prev_assistant_message w; replies := replies w;
     log := l; next_id := next_id w; json_loads := json_loads w;
     json_dumps := json_dumps w; similarity_search := similarity_search w |}.

Definition with_next_id (n : nat) (w : World) : World :=
  {| shadows := shadows w; reals := reals w; state := state w;
     prev_assistant_message := prev_assistant_message w; replies := replies w;
     log := log w; next_id := n; json_loads := json_loads w;
     json_dumps := json_dumps w; similarity_search := similarity_search w |}.

Arguments with_shadows f w /.
Arguments with_reals f w /.
Arguments with_state s w /.
Arguments with_prev m w /.
Arguments with_replies r w /.
Arguments with_log l w /.
Arguments with_next_id n w /.

(** ** Computations: state passing with exceptions

    An exception does not undo what was written before it was raised. *)

Definition M (A : Type) := World -> outcome A * World.

Definition ret {A} (a : A) : M A := fun w => (Ok a, w).

Definition raise {A} (e : exn) : M A := fun w => (Raise e, w).

Definition bind {A B} (c : M A) (k : A -> M B) : M B :=
  fun w =>
    match c w with
    | (Ok a, w') => k a w'
    | (Raise e, w') => (Raise e, w')
    end.

Notation "x <- c ;; k" := (bind c (fun x => k))
  (at level 61, c at next level, right associativity).
Notation "c ;;; k" := (bind c (fun _ => k))
  (at level 61, right associativity).

Definition gets {A} (f : World -> A) : M A := fun w => (Ok (f w), w).

Definition modify (f : World -> World) : M unit := fun w => (Ok tt, f w).

Arguments ret {A} a w /.
Arguments raise {A} e w /.
Arguments bind {A B} c k w /.
Arguments gets {A} f w /.
Arguments modify f w /.

(** *** The store *)

Fixpoint list_set {A} (n : nat) (x : A) (l : list A) : list A :=
  match l, n with
  | [], _ => []
  | _ :: rest, O => x :: rest
  | y :: rest, S n' => y :: list_set n' x rest
  end.

Definition read_shadow (l : loc) (w : World) : ShadowProfile := nth l (shadows w) [].
Definition read_real (l : loc) (w : World) : RealProfile := nth l (reals w) [].

Arguments read_shadow l w /.
Arguments read_real l w /.

Definition get_shadow (l : loc) : M ShadowProfile := gets (read_shadow l).
Definition get_real (l : loc) : M RealProfile := gets (read_real l).

(** an update in place of the object at [l] *)
Definition modify_shadow (l : loc) (f : ShadowProfile -> ShadowProfile) : M unit :=
  modify (fun w => with_shadows (list_set l (f (read_shadow l w))) w).
Definition modify_real (l : loc) (f : RealProfile -> RealProfile) : M unit :=
  modify (fun w => with_reals (list_set l (f (read_real l w))) w).

(** a new dictionary object *)
Definition alloc_shadow (d : ShadowProfile) : M loc :=
  fun w => (Ok (List.length (shadows w)), with_shadows (fun h => h ++ [d]) w).
Definition alloc_real (d : RealProfile) : M loc :=
  fun w => (Ok (List.length (reals w)), with_reals (fun h => h ++ [d]) w).

(** [state.get(key, {})] for a key that holds a profile object *)
Definition shadow_or_new (o : option loc) : M loc :=
  match o with Some l => ret l | None => alloc_shadow [] end.
Definition real_or_new (o : option loc) : M loc :=
  match o with Some l => ret l | None => alloc_real [] end.

(** *** Messages and model calls *)

Definition record (e : event) : M unit :=
  modify (fun w => with_log (log w ++ [e]) w).

Definition fresh_id : M msg_id :=
  fun w => (Ok (Fresh (next_id w)), with_next_id (S (next_id w)) w).

Definition new_message (t : role) (text : string) : M message :=
  i <- fresh_id ;;
  ret {| mtype := t; content := text; tool_calls := []; mid := i |}.

(** [model.invoke(prompt)]: the call is logged, the next reply of the script
    is consumed; the model is unavailable when the script has run out. *)
Definition invoke (m : Model) (s : site) (prompt : list message) : M message :=
  record (Invoke m s prompt) ;;;
  rs <- gets replies ;;
  match rs with
  | [] => raise (ModelError "unavailable")
  | Fails reason :: rest =>
      modify (with_replies rest) ;;; raise (ModelError reason)
  | Says r :: rest =>
      modify (with_replies rest) ;;;
      i <- fresh_id ;;
      ret {| mtype := ai; content := r_content r; tool_calls := r_tool_calls r; mid := i |}
  end.

(** [json.loads(text)] *)
Definition loads (text : string) : M json :=
  parse <- gets json_loads ;;
  match parse text with
  | Some v => ret v
  | None => raise JSONDecodeError
  end.

(** ** Module constants

    The natural-language texts of the prompts are abridged after their first
    sentences; the phrases the code tests for and every interpolated value are
    kept where the source has them. *)

Definition MAXNUMOFFIELDS : Z := 10.
Definition COMPLETENESSRATIO : Q := 1.
Definition MAXRATING : Z := Z.max 2 5.

Definition nl : string := String (ascii_of_nat 10) EmptyString.
Definition dqs : string := String PyStr.dq EmptyString.

Definition static (name : string) (t : role) (text : string) : message :=
  {| mtype := t; content := text; tool_calls := []; mid := Static name |}.

Definition system_prompt_chatbot : message :=
  static "system_prompt_chatbot" system "
You are NestWise, a financial planning assistant.
You must ONLY talk about retirement and personal finance.
Return only the next message the chatbot should send to the user.
".

Definition system_prompt_summarize : message :=
  static "system_prompt_summarize" system "
You are a helpful assistant that summarizes conversations about retirement planning.
Summarize the following conversation and the extracted user profile information.
Present the summary clearly and concisely. Do Not Specify Next Steps.
".

Definition system_prompt_extract : message :=
  static "system_prompt_extract" system "
You will be analyzing the conversation history between a user and a chatbot about retirement planning.
".

Record Template := { description : string; questions : ShadowProfile }.

Definition entry (c : bool) (i : Z) : Entry := {| collected := c; importance := i |}.

Definition prompt_infos : list (string * Template) :=
  [ ("spend",
     {| description := "For users whose primary goal is to fully enjoy their wealth during retirement by actively spending down their savings.";
        questions :=
          [ ("retirement_age", entry false 5);
            ("desired_monthly_spending", entry false 5);
            ("large_planned_expenses", entry false 4);
            ("travel_frequency", entry false 3);
            ("lifestyle_upgrades", entry false 2) ] |});
    ("leave",
     {| description := "For users whose main goal is to leave a financial legacy to their children, family members, or other chosen beneficiaries.";
        questions :=
          [ ("number_of_beneficiaries", entry false 5);
            ("beneficiary_relationships", entry false 4);
            ("inheritance_goal_amount", entry false 5);
            ("estate_distribution_preferences", entry false 3);
            ("life_insurance_status", entry false 2) ] |});
    ("save",
     {| description := "For users who prioritize long-term financial stability, low-risk planning, and maintaining their wealth throughout retirement.";
        questions :=
          [ ("retirement_age", entry false 4);
            ("expected_monthly_expenses", entry false 5);
            ("risk_tolerance", entry false 4);
            ("healthcare_budget", entry false 5);
            ("expected_retirement_duration", entry false 3) ] |});
    ("donate",
     {| description := "For users whose primary retirement objective is to contribute a portion of their wealth to charitable causes, nonprofit organizations, or philanthropic efforts.";
        questions :=
          [ ("charity_names", entry false 4);
            ("donation_goal_amount", entry false 5);
            ("donation_frequency", entry false 3);
            ("donation_timing", entry false 4);
            ("legacy_donation_percentage", entry false 2) ] |});
    ("default",
     {| description := "Used when the goal does not fit any category clearly.";
        questions :=
          [ ("retirement_age", entry false 4);
            ("expected_monthly_expenses", entry false 5);
            ("risk_tolerance", entry false 4);
            ("healthcare_budget", entry false 5);
            ("inheritance_goal_amount", entry false 3) ] |}) ].

Definition category_descriptions : string :=
  PyStr.join nl
    (map (fun ni => "- " +++ fst ni +++ ": " +++ description (snd ni)) prompt_infos).

(** [system_prompt_matcher.format(user_goal=...)] *)
Definition system_prompt_matcher (user_goal : string) : string :=
  "
You are a classification expert.

Given this retirement goal:

" +++ dqs +++ user_goal +++ dqs +++ "

Choose ONE category based on the following descriptions:

" +++ category_descriptions +++ "

If the goal does not clearly match any category, respond with: default

Answer with ONLY the category name.
".

(** The module-level [real_profile = {}].  No statement of the module writes
    to this dictionary: every function that updates a profile first binds a
    local [real_profile]. *)
Definition real_profile : RealProfile := [].

Definition repr_entry (e : Entry) : string :=
  "{'collected': " +++ PyStr.of_bool (collected e) +++
  ", 'importance': " +++ PyStr.of_Z (importance e) +++ "}".

(** [str(shadow_profile)] *)
Definition repr_shadow (d : ShadowProfile) : string :=
  "{" +++ PyStr.join ", "
            (map (fun kv => PyStr.repr (fst kv) +++ ": " +++ repr_entry (snd kv)) d)
      +++ "}".

(** [str(real_profile)] *)
Definition repr_real (d : RealProfile) : string := py_repr (JObj d).

(** ** Interview agent *)

Definition normalize_collected (value : bool) : bool := value.

(** [missing_fields.sort(key=lambda x: x[1], reverse=True)]: stable, by
    importance descending. *)
Fixpoint insert_desc (x : string * Z) (l : list (string * Z)) : list (string * Z) :=
  match l with
  | [] => [x]
  | y :: rest => if (snd x <? snd y)%Z then y :: insert_desc x rest else x :: y :: rest
  end.

Definition sort_desc (l : list (string * Z)) : list (string * Z) :=
  fold_right insert_desc [] l.

Definition profile_status_marker : string :=
  "Below is the user's current profile status.".

Definition profile_prompt (d : ShadowProfile) (missing_fields_text : string) : string :=
  "
    " +++ profile_status_marker +++ "
    Each field has a 'collected' boolean and an 'importance' score (1.0 = most important):

    " +++ repr_shadow d +++ "

    Missing fields sorted by importance:
    " +++ missing_fields_text +++ "

    ## Your Task:
    1. **If fields are missing**: Ask about the MOST important missing field in a conversational way
    2. **If all collected**: Respond with " +++ dqs +++
  "All necessary info collected. Proceeding to generate your plan." +++ dqs +++ "
    ".

(** [str(response)] of a message, of which only the beginning matters. *)
Definition message_str (m : message) : string := "content=" +++ PyStr.repr (content m).

Definition call_chatbot (st : ChatbotState) : M ChatbotState :=
  let msgs := cb_messages st in
  let with_system :=
    match msgs with
    | m0 :: _ =>
        if role_eqb (mtype m0) system && PyStr.contains "NestWise" (content m0)
        then msgs else system_prompt_chatbot :: msgs
    | [] => system_prompt_chatbot :: msgs
    end in
  (* shadow_profile = state.get("shadow_profile", {}) or {} *)
  l0 <- shadow_or_new (cb_shadow_profile st) ;;
  d0 <- get_shadow l0 ;;
  l <- (match d0 with [] => alloc_shadow [] | _ => ret l0 end) ;;
  shadow_profile <- get_shadow l ;;
  let cleaned :=
    filter (fun m => negb (role_eqb (mtype m) human
                           && PyStr.contains profile_status_marker (content m)))
           with_system in
  let missing_fields :=
    sort_desc
      (map (fun kv => (fst kv, importance (snd kv)))
           (filter (fun kv => negb (normalize_collected (collected (snd kv))))
                   shadow_profile)) in
  let joined :=
    PyStr.join nl
      (map (fun fi => "- " +++ fst fi +++ " (importance: " +++ PyStr.of_Z (snd fi) +++ ")")
           missing_fields) in
  let missing_fields_text := if String.eqb joined "" then "None" else joined in
  snapshot <- new_message human (profile_prompt shadow_profile missing_fields_text) ;;
  let messages := cleaned ++ [snapshot] in
  response <- invoke model_chatbot Chat messages ;;
  let reply_text :=
    if String.eqb (content response) "" then message_str response else content response in
  let reply_text_stripped := PyStr.lower (PyStr.strip reply_text) in
  match missing_fields with
  | top :: _ =>
      if PyStr.startswith reply_text_stripped "all necessary info collected" then
        let top_field := PyStr.replace_char "_" " " (fst top) in
        override_message <-
          new_message ai ("Could you please provide your " +++ top_field +++ "?") ;;
        ret {| cb_messages := messages ++ [override_message]; cb_shadow_profile := Some l |}
      else
        ret {| cb_messages := messages ++ [response]; cb_shadow_profile := Some l |}
  | [] =>
      ret {| cb_messages := messages ++ [response]; cb_shadow_profile := Some l |}
  end.

(** ** Extraction agent *)

Definition shadow_system_prompt (d : ShadowProfile) : string :=
  "
  Below is a dictionary representing the user's information.
  Each key corresponds to a data field, and each value indicates whether the information has already been collected:"
  +++ repr_shadow d +++ "

  Respond only with a JSON object containing ONLY the previously false fields that you can now populate.
  If no new information is found, return an empty JSON object.
  If the user explicitly provides updated information for a filled field, add it to the JSON.
  ".

Definition title_system_text : string :=
  "You generate short, clear titles for retirement planning conversations.".

Definition title_user_text (goal : string) : string :=
  "Create a concise, 3-8 word title summarizing this retirement goal: '" +++ goal +++ "'.".

(** [shadow_profile[key]["collected"] = True] for the keys of [ks] that are tracked *)
Definition mark_collected (ks : list string) (d : ShadowProfile) : ShadowProfile :=
  map (fun kv =>
         if existsb (String.eqb (fst kv)) ks
         then (fst kv, {| collected := true; importance := importance (snd kv) |})
         else kv)
      d.

(** [None] is the bare [return] of the source: the node updates nothing. *)
Definition call_extractor (st : ExtractorState) : M (option ExtractorState) :=
  shown <- (match ex_shadow_profile st with
            | Some l => get_shadow l
            | None => ret []
            end) ;;
  prompt <- new_message system (shadow_system_prompt shown) ;;
  let messages := [system_prompt_extract] ++ [prompt] ++ ex_messages st in
  response <- invoke model_extractor Extract messages ;;
  response_dict <- loads (content response) ;;
  shadow_profile <- shadow_or_new (ex_shadow_profile st) ;;
  real_profile <- real_or_new (ex_real_profile st) ;;
  if negb (truthy response_dict) then ret None else
  match response_dict with
  | JObj members =>
      let response_dict := Dict.of_pairs members in
      (* common_keys = response_dict.keys() & shadow_profile.keys() *)
      modify_shadow shadow_profile (mark_collected (Dict.keys response_dict)) ;;;
      modify_real real_profile (fun d => Dict.update d response_dict) ;;;
      title <-
        (if Dict.mem "goal" response_dict then
           let goal := content (last messages system_prompt_extract) in
           modify_real real_profile (Dict.set "goal" (JStr goal)) ;;;
           system_part <- new_message system title_system_text ;;
           user_part <- new_message human (title_user_text goal) ;;
           title_response <- invoke model_extractor Title [system_part; user_part] ;;
           ret (Some (PyStr.strip (content title_response)))
         else ret (ex_conversation_title st)) ;;
      d <- get_shadow shadow_profile ;;
      let boolValue := forallb (fun kv => collected (snd kv)) d in
      ret (Some {| ex_messages := messages;
                   ex_real_profile := Some real_profile;
                   ex_shadow_profile := Some shadow_profile;
                   ex_all_fields_filled := Some boolValue;
                   ex_conversation_title := title |})
  | _ => raise AttributeError   (* response_dict.keys() *)
  end.

(** ** Template matcher *)

(** [for field, info in questions.items(): shadow_profile[field] = {...}] *)
Definition install_questions (qs d : ShadowProfile) : ShadowProfile :=
  fold_left
    (fun acc fi => Dict.set (fst fi) {| collected := false; importance := importance (snd fi) |} acc)
    qs d.

Definition questions_of (category : string) : ShadowProfile :=
  match Dict.get category prompt_infos with
  | Some info => questions info
  | None => []
  end.

(** the category an answer of the classifier selects: the answer stripped and
    lowered, or ["default"] when that is not a key of [prompt_infos] *)
Definition classify (answer : string) : string :=
  let category := PyStr.lower (PyStr.strip answer) in
  if Dict.mem category prompt_infos then category else "default".

Definition call_matcher (st : MatcherState) : M MatcherState :=
  real_profile <- real_or_new (mt_real_profile st) ;;
  shadow_profile <- shadow_or_new (mt_shadow_profile st) ;;
  values <- get_real real_profile ;;
  let user_goal :=
    match Dict.get "goal" values with Some v => v | None => JStr "" end in
  prompt <- new_message human (system_prompt_matcher (py_str user_goal)) ;;
  response <- invoke model_matcher Match [prompt] ;;
  let category := classify (content response) in
  modify_shadow shadow_profile (install_questions (questions_of category)) ;;;
  ret {| mt_messages := mt_messages st;
         mt_real_profile := mt_real_profile st;
         mt_shadow_profile := Some shadow_profile;
         mt_selected_template := Some category;
         mt_need_no_more_fields := mt_need_no_more_fields st |}.

(** ** Summarizer *)

(** The node returns [{"summary": response.content}]. *)
Definition call_summarizer (st : SummarizerState) : M string :=
  let messages := [system_prompt_summarize] ++ sm_messages st in
  response <- invoke model_extractor Summarize messages ;;
  ret (content response).

(** ** Planner *)

Definition rag_query (profile_text : string) : string :=
  "You are a Retrieval Assistant. Given the user's retirement profile below, prepare up to 3 targeted retrieval "
  +++ "queries (each 1-2 sentences) that will return the most relevant PDF chunks for building a retirement plan. "
  +++ "User Profile:" +++ nl +++ profile_text +++ nl +++ nl.

(** [retrieve(query)]: the text part of the tool's result *)
Definition retrieve (query : string) : M string :=
  search <- gets similarity_search ;;
  let retrieved_docs := firstn 3 (search query) in
  let formatted_snippets :=
    map (fun doc =>
           let source := match doc_source doc with Some s => s | None => "Unknown source" end in
           let page := match doc_page doc with Some p => p | None => "N/A" end in
           "Source: " +++ PyStr.basename source +++ ", Page: " +++ page +++ nl
           +++ "Content:" +++ nl +++ PyStr.strip (page_content doc))
        retrieved_docs in
  ret (PyStr.join (nl +++ nl +++ "---" +++ nl +++ nl) formatted_snippets).

(** The node returns [{"messages": [response]}]. *)
Definition query_or_respond (st : PlannerState) : M (list message) :=
  prompt <- new_message system (rag_query (repr_real real_profile)) ;;
  let messages := [prompt] ++ pl_messages st in
  response <- invoke model_planner Query messages ;;
  ret [response].

(** [ToolNode([retrieve])]: one tool message per call of the last message. *)
Fixpoint run_tool_calls (queries : list string) : M (list message) :=
  match queries with
  | [] => ret []
  | q :: rest =>
      text <- retrieve q ;;
      i <- fresh_id ;;
      more <- run_tool_calls rest ;;
      ret ({| mtype := tool; content := text; tool_calls := []; mid := i |} :: more)
  end.

Definition tools_node (st : PlannerState) : M (list message) :=
  match rev (pl_messages st) with
  | m :: _ => run_tool_calls (tool_calls m)
  | [] => ret []
  end.

(** the run of tool messages that ends the history, oldest first *)
Fixpoint leading_tools (reversed : list message) : list message :=
  match reversed with
  | m :: rest => if role_eqb (mtype m) tool then m :: leading_tools rest else []
  | [] => []
  end.

Definition structured_json_schema_dump : string :=
  "{investment_strategy, savings_plan, risk_assessment, milestones, citations}".

Definition planner_system_message (profile_text docs_content : string) : string :=
  "
  You are a Retirement Planning Assistant. Your task is to produce a comprehensive, structured retirement plan
  for a user with profile " +++ profile_text +++ ", comparable to a professional financial advisor. Use the provided user profile to build a customize plan.
  Use ONLY the retrieved context below. Each fact must cite the source (filename and page).
  If unknown, write " +++ dqs +++ "unknown" +++ dqs +++ ". Follow this schema strictly in JSON:

  " +++ structured_json_schema_dump +++ "

  Retrieved Context:
  " +++ docs_content +++ "
  ".

(** The merged and flattened profile that the source computes first is never
    read; the prompt interpolates the state's [real_profile]. *)
Definition call_planner (st : PlannerState) : M (list message) :=
  real_profile <- real_or_new (pl_real_profile st) ;;
  shadow_profile <- shadow_or_new (pl_shadow_profile st) ;;
  values <- get_real real_profile ;;
  let tool_messages := rev (leading_tools (rev (pl_messages st))) in
  let docs_content := PyStr.join (nl +++ nl) (map content tool_messages) in
  prompt <- new_message system (planner_system_message (repr_real values) docs_content) ;;
  let messages := [prompt] ++ pl_messages st in
  response <- invoke model_planner Plan messages ;;
  ret [response].

(** ** Routing *)

(** Python's [a / b] on integers, as an exact rational. *)
Definition true_div (a b : Z) : M Q :=
  if (b =? 0)%Z then raise ZeroDivisionError else ret (inject_Z a / inject_Z b)%Q.

(** The loop over [profile.items()]: total importance, collected importance,
    and whether a field of the highest rating is missing. *)
Definition tally (profile : ShadowProfile) : Z * Z * bool :=
  fold_left
    (fun acc fi =>
       let '(totImportance, totFilledImportance, needsCriticalInfo) := acc in
       let info := snd fi in
       ((totImportance + importance info)%Z,
        (totFilledImportance + (if collected info then importance info else 0))%Z,
        needsCriticalInfo || ((importance info =? MAXRATING)%Z && negb (collected info))))
    profile (0%Z, 0%Z, false).

(** [not current_template] *)
Definition no_template (current_template : option string) : bool :=
  match current_template with
  | None => true
  | Some name => String.eqb name ""
  end.

Definition route_decision_extractor (st : MasterState) : M string :=
  profile <- get_shadow (ms_shadow_profile st) ;;
  let current_template := mt_selected_template (ms_matcher st) in
  let '(totImportance, totFilledImportance, needsCriticalInfo) := tally profile in
  currentCompleteness <- true_div totFilledImportance totImportance ;;
  if negb needsCriticalInfo && Qle_bool COMPLETENESSRATIO currentCompleteness then
    if no_template current_template then ret "matcher" else ret "planner"
  else ret "chatbot".

Definition route_decision_summarize (st : MasterState) : string :=
  let summarize_threshold := 20%nat in
  let messages_count := List.length (cb_messages (ms_chatbot st)) in
  if (summarize_threshold <=? messages_count)%nat then "summarizer" else "__end__".

(** ** Graphs

    A compiled graph runs its entry node, merges what the node returns into
    the state, follows the edge the state selects, and stops at [END] or at a
    node without an outgoing edge.  More than [recursion_limit] steps raise
    [GraphRecursionError]. *)

Record Graph (S N : Type) := {
  graph_name : string;
  node_name : N -> string;
  entry_point : N;
  body : N -> S -> M S;          (* the node, and the merge of its result *)
  edge : N -> S -> M (option N)  (* [None] is [END] *)
}.

Definition recursion_limit : nat := 25.

Fixpoint pregel {S N} (g : Graph S N) (limit : nat) (n : N) (s : S) : M S :=
  match limit with
  | O => raise GraphRecursionError
  | Datatypes.S limit' =>
      record (Enter (graph_name g) (node_name g n)) ;;;
      s' <- body g n s ;;
      next <- edge g n s' ;;
      match next with
      | None => ret s'
      | Some n' => pregel g limit' n' s'
      end
  end.

Definition graph_invoke {S N} (g : Graph S N) (input : S) : M S :=
  pregel g recursion_limit (entry_point g) input.

(** *** The single-node sub-graphs *)

Definition chatbot_graph : Graph ChatbotState unit :=
  {| graph_name := "chatbot_graph";
     node_name := fun _ => "chatbot";
     entry_point := tt;
     body := fun _ s =>
       out <- call_chatbot s ;;
       ret {| cb_messages := add_messages (cb_messages s) (cb_messages out);
              cb_shadow_profile := cb_shadow_profile out |};
     edge := fun _ _ => ret None |}.

Definition matcher_graph : Graph MatcherState unit :=
  {| graph_name := "matcher_graph";
     node_name := fun _ => "matcher";
     entry_point := tt;
     body := fun _ s =>
       out <- call_matcher s ;;
       ret {| mt_messages := add_messages (mt_messages s) (mt_messages out);
              mt_real_profile := mt_real_profile out;
              mt_shadow_profile := mt_shadow_profile out;
              mt_selected_template := mt_selected_template out;
              mt_need_no_more_fields := None |};
     edge := fun _ _ => ret None |}.

Definition summarizer_graph : Graph SummarizerState unit :=
  {| graph_name := "summarizer_graph";
     node_name := fun _ => "summarizer";
     entry_point := tt;
     body := fun _ s =>
       summary <- call_summarizer s ;;
       ret {| sm_messages := sm_messages s;
              sm_real_profile := sm_real_profile s;
              sm_summary := Some summary |};
     edge := fun _ _ => ret None |}.

Definition extractor_graph : Graph ExtractorState unit :=
  {| graph_name := "extractor_graph";
     node_name := fun _ => "extractor";
     entry_point := tt;
     body := fun _ s =>
       update <- call_extractor s ;;
       match update with
       | None => ret s
       | Some out =>
           ret {| ex_messages := add_messages (ex_messages s) (ex_messages out);
                  ex_real_profile := ex_real_profile out;
                  ex_shadow_profile := ex_shadow_profile out;
                  ex_all_fields_filled := ex_all_fields_filled out;
                  ex_conversation_title := ex_conversation_title out |}
       end;
     edge := fun _ _ => ret None |}.

(** *** The planner graph *)

Inductive planner_node := QueryOrRespond | Tools | CallPlanner.

(** [tools_condition]: does the last message ask for a tool? *)
Definition tools_condition (st : PlannerState) : bool :=
  match rev (pl_messages st) with
  | m :: _ => role_eqb (mtype m) ai && negb (Nat.eqb (List.length (tool_calls m)) 0)
  | [] => false
  end.

Definition planner_append (s : PlannerState) (new : list message) : PlannerState :=
  {| pl_messages := add_messages (pl_messages s) new;
     pl_real_profile := pl_real_profile s;
     pl_shadow_profile := pl_shadow_profile s |}.

Definition planner_graph : Graph PlannerState planner_node :=
  {| graph_name := "planner_graph";
     node_name := fun n =>
       match n with
       | QueryOrRespond => "query_or_respond"
       | Tools => "tools"
       | CallPlanner => "call_planner"
       end;
     entry_point := QueryOrRespond;
     body := fun n s =>
       match n with
       | QueryOrRespond => new <- query_or_respond s ;; ret (planner_append s new)
       | Tools => new <- tools_node s ;; ret (planner_append s new)
       | CallPlanner => new <- call_planner s ;; ret (planner_append s new)
       end;
     edge := fun n s =>
       match n with
       | QueryOrRespond => ret (if tools_condition s then Some Tools else None)
       | Tools => ret (Some CallPlanner)
       | CallPlanner => ret None
       end |}.

(** The state a sub-graph starts from: the input written to its channels. *)
Definition into_channel (msgs : list message) : list message := add_messages [] msgs.

(** ** The nodes of the master graph *)

Definition set_ms_messages (v : list (option message)) (s : MasterState) : MasterState :=
  {| ms_messages := v; ms_chatbot := ms_chatbot s; ms_extractor := ms_extractor s;
     ms_summarizer := ms_summarizer s; ms_matcher := ms_matcher s;
     ms_real_profile := ms_real_profile s; ms_shadow_profile := ms_shadow_profile s;
     ms_conversation_title := ms_conversation_title s; ms_planner := ms_planner s |}.

Definition present (l : list (option message)) : list message :=
  flat_map (fun o => match o with Some m => [m] | None => [] end) l.

Definition is_type (t : role) (m : message) : bool := role_eqb (mtype m) t.

(** The last human message of the master conversation, as a list. *)
Definition last_human_of (all_messages : list message) : list message :=
  let human_messages := last1 (filter (is_type human) all_messages) in
  match human_messages with
  | [] => []
  | _ => last1 human_messages
  end.

Definition run_chatbot (master_state : MasterState) : M MasterState :=
  let chatbot_data := ms_chatbot master_state in
  let shadow_profile := ms_shadow_profile master_state in
  let last_human := last_human_of (present (ms_messages master_state)) in
  let chatbot_state :=
    {| cb_messages := into_channel (cb_messages chatbot_data ++ last_human);
       cb_shadow_profile := Some shadow_profile |} in
  chatbot_state <- graph_invoke chatbot_graph chatbot_state ;;
  shadow <- shadow_or_new (cb_shadow_profile chatbot_state) ;;
  ret {| ms_messages := ms_messages master_state;
         ms_chatbot := chatbot_state;
         ms_extractor := ms_extractor master_state;
         ms_summarizer := ms_summarizer master_state;
         ms_matcher := ms_matcher master_state;
         ms_real_profile := ms_real_profile master_state;
         ms_shadow_profile := shadow;
         ms_conversation_title := ms_conversation_title master_state;
         ms_planner := ms_planner master_state |}.

Definition run_extractor (master_state : MasterState) : M MasterState :=
  let extractor_data := ms_extractor master_state in
  let chatbot_data := ms_chatbot master_state in
  let shadow_profile := ms_shadow_profile master_state in
  let last_human := last_human_of (present (ms_messages master_state)) in
  let chatbot_messages :=
    filter (fun m => is_type ai m || is_type system m) (cb_messages chatbot_data) in
  let last_chatbot_content :=
    match rev chatbot_messages with
    | m :: _ => content m
    | [] => "No Chatbot Messages Found"
    end in
  first <- new_message human last_chatbot_content ;;
  let extractor_state :=
    {| ex_messages := into_channel ([first] ++ last_human);
       ex_real_profile := ex_real_profile extractor_data;
       ex_shadow_profile := Some shadow_profile;
       ex_all_fields_filled := ex_all_fields_filled extractor_data;
       ex_conversation_title := ex_conversation_title extractor_data |} in
  extractor_state <- graph_invoke extractor_graph extractor_state ;;
  real <- real_or_new (ex_real_profile extractor_state) ;;
  shadow <- shadow_or_new (ex_shadow_profile extractor_state) ;;
  ret {| ms_messages := ms_messages master_state;
         ms_chatbot := ms_chatbot master_state;
         ms_extractor := extractor_state;
         ms_summarizer := ms_summarizer master_state;
         ms_matcher := ms_matcher master_state;
         ms_real_profile := real;
         ms_shadow_profile := shadow;
         ms_conversation_title := ex_conversation_title extractor_state;
         ms_planner := ms_planner master_state |}.

Definition run_matcher (master_state : MasterState) : M MasterState :=
  let matcher_data := ms_matcher master_state in
  let matcher_state :=
    {| mt_messages := into_channel [];
       mt_real_profile := Some (ms_real_profile master_state);
       mt_shadow_profile := Some (ms_shadow_profile master_state);
       mt_selected_template := mt_selected_template matcher_data;
       mt_need_no_more_fields := mt_need_no_more_fields matcher_data |} in
  matcher_state <- graph_invoke matcher_graph matcher_state ;;
  shadow <- shadow_or_new (mt_shadow_profile matcher_state) ;;
  ret {| ms_messages := ms_messages master_state;
         ms_chatbot := ms_chatbot master_state;
         ms_extractor := ms_extractor master_state;
         ms_summarizer := ms_summarizer master_state;
         ms_matcher := matcher_state;
         ms_real_profile := ms_real_profile master_state;
         ms_shadow_profile := shadow;
         ms_conversation_title := ms_conversation_title master_state;
         ms_planner := ms_planner master_state |}.

(** [planner_data] is the master state's ["planner"] entry and nothing else:
    neither profile of the session is copied into it. *)
Definition run_planner (master_state : MasterState) : M MasterState :=
  let planner_state :=
    match ms_planner master_state with
    | Some planner_data =>
        {| pl_messages := into_channel (pl_messages planner_data);
           pl_real_profile := pl_real_profile planner_data;
           pl_shadow_profile := pl_shadow_profile planner_data |}
    | None =>
        {| pl_messages := into_channel []; pl_real_profile := None; pl_shadow_profile := None |}
    end in
  planner_state <- graph_invoke planner_graph planner_state ;;
  ret {| ms_messages := ms_messages master_state;
         ms_chatbot := ms_chatbot master_state;
         ms_extractor := ms_extractor master_state;
         ms_summarizer := ms_summarizer master_state;
         ms_matcher := ms_matcher master_state;
         ms_real_profile := ms_real_profile master_state;
         ms_shadow_profile := ms_shadow_profile master_state;
         ms_conversation_title := ms_conversation_title master_state;
         ms_planner := Some planner_state |}.

Definition run_summarizer (master_state : MasterState) : M MasterState :=
  let summarizer_data := ms_summarizer master_state in
  let chatbot_data := ms_chatbot master_state in
  let chatbot_messages := cb_messages chatbot_data in
  let old_summary :=
    match summarizer_data with
    | Some d => match sm_summary d with Some s => s | None => "None" end
    | None => "None"
    end in
  first <- new_message human ("Last Summary:" +++ old_summary) ;;
  let summarizer_state :=
    {| sm_messages := [first] ++ chatbot_messages;
       sm_real_profile := match summarizer_data with
                          | Some d => sm_real_profile d
                          | None => None
                          end;
       sm_summary := match summarizer_data with
                     | Some d => sm_summary d
                     | None => None
                     end |} in
  result <- graph_invoke summarizer_graph
              {| sm_messages := into_channel (sm_messages summarizer_state);
                 sm_real_profile := sm_real_profile summarizer_state;
                 sm_summary := sm_summary summarizer_state |} ;;
  summary <- (match sm_summary result with
              | Some s => ret s
              | None => raise (KeyError "summary")
              end) ;;
  recap <- new_message human ("Summary:" +++ summary) ;;
  let chatbot_state :=
    {| cb_messages := [system_prompt_chatbot] ++ [recap] ++ last1 chatbot_messages;
       cb_shadow_profile := cb_shadow_profile chatbot_data |} in
  ret {| ms_messages := ms_messages master_state;
         ms_chatbot := chatbot_state;
         ms_extractor := ms_extractor master_state;
         ms_summarizer := Some {| sm_messages := sm_messages summarizer_state;
                                  sm_real_profile := sm_real_profile summarizer_state;
                                  sm_summary := Some summary |};
         ms_matcher := ms_matcher master_state;
         ms_real_profile := ms_real_profile master_state;
         ms_shadow_profile := ms_shadow_profile master_state;
         ms_conversation_title := ms_conversation_title master_state;
         ms_planner := ms_planner master_state |}.

(** ** The master graph *)

Inductive master_node := Chatbot | Extractor | Matcher | Planner | Summarizer.

(** the path map of the conditional edge that leaves the extractor *)
Definition extractor_paths : list (string * master_node) :=
  [("matcher", Matcher); ("planner", Planner); ("chatbot", Chatbot)].

(** the path map of the conditional edge that leaves the chatbot *)
Definition chatbot_paths : list (string * option master_node) :=
  [("summarizer", Some Summarizer); ("__end__", None)].

Definition workflow : Graph MasterState master_node :=
  {| graph_name := "workflow";
     node_name := fun n =>
       match n with
       | Chatbot => "chatbot"
       | Extractor => "extractor"
       | Matcher => "matcher"
       | Planner => "planner"
       | Summarizer => "summarizer"
       end;
     entry_point := Extractor;
     body := fun n =>
       match n with
       | Chatbot => run_chatbot
       | Extractor => run_extractor
       | Matcher => run_matcher
       | Planner => run_planner
       | Summarizer => run_summarizer
       end;
     edge := fun n s =>
       match n with
       | Extractor =>
           route <- route_decision_extractor s ;;
           match Dict.get route extractor_paths with
           | Some n' => ret (Some n')
           | None => raise (KeyError route)
           end
       | Matcher => ret (Some Chatbot)
       | Chatbot =>
           match Dict.get (route_decision_summarize s) chatbot_paths with
           | Some next => ret next
           | None => raise (KeyError (route_decision_summarize s))
           end
       | Planner => ret None
       | Summarizer => ret None
       end |}.

(** [graph.invoke(state)]: the input's messages are coerced and written to the
    channel first; an entry that is not a message is refused. *)
Definition coerce (l : list (option message)) : M (list message) :=
  if forallb (fun o => match o with Some _ => true | None => false end) l
  then ret (present l) else raise MessageCoercionError.

Definition graph (input : MasterState) : M MasterState :=
  msgs <- coerce (ms_messages input) ;;
  graph_invoke workflow (set_ms_messages (map Some (into_channel msgs)) input).

(** ** Formatter *)

Definition system_prompt_formatter : message :=
  static "system_prompt_formatter" system "
You are a Formatter Assistant.
You receive raw JSON output from the Planner Agent.
Convert this raw JSON into a well-formatted, human-readable report.
".

Definition call_formatter (raw_json_str : string) : M string :=
  parse <- gets json_loads ;;
  dumps <- gets json_dumps ;;
  let formatted_json :=
    match parse raw_json_str with
    | Some parsed => dumps parsed
    | None => raw_json_str   (* fallback *)
    end in
  text <- new_message human formatted_json ;;
  response <- invoke model_formatter Format [system_prompt_formatter; text] ;;
  ret (content response).

(** ** Sessions *)

Definition assistant_message : message :=
  static "assistant_message" ai
    "Hello there, I'm NestWise! How can I help you plan for your retirement?".

Definition initial_shadow_profile : ShadowProfile :=
  [ ("goal", entry false 5);
    ("age", entry false 2);
    ("salary", entry false 3);
    ("savings", entry false 4);
    ("location", entry false 5) ].

(** The [MasterState(...)] that [start_session] builds, around its two new
    profile dictionaries. *)
Definition new_master_state (real shadow : loc) : MasterState :=
  {| ms_messages := [];
     ms_chatbot := {| cb_messages := [system_prompt_chatbot; assistant_message];
                      cb_shadow_profile := None |};
     ms_extractor := {| ex_messages := []; ex_real_profile := None;
                        ex_shadow_profile := None;
                        ex_all_fields_filled := Some false;
                        ex_conversation_title := Some "None" |};
     ms_summarizer := None;
     ms_matcher := {| mt_messages := []; mt_real_profile := None;
                      mt_shadow_profile := None; mt_selected_template := None;
                      mt_need_no_more_fields := Some false |};
     ms_real_profile := real;
     ms_shadow_profile := shadow;
     ms_conversation_title := Some "initial";
     ms_planner := None |}.

(** The one module-level [state] is rebound; [session_id] is only returned. *)
Definition start_session (session_id : string) : M string :=
  real <- alloc_real [] ;;
  shadow <- alloc_shadow initial_shadow_profile ;;
  modify (with_state (Some (new_master_state real shadow))) ;;;
  ret session_id.

(** What [chat_step] returns to the router. *)
Record Answer := {
  response : string;
  answer_real_profile : list (string * json);
  answer_conversation_title : option string
}.

Definition chat_step (user_message session_id : string) : M Answer :=
  human_message <-
    (if String.eqb user_message "" then ret None
     else m <- new_message human user_message ;; ret (Some m)) ;;
  current <- gets state ;;
  match current with
  | None => raise TypeError   (* state["messages"] before any session *)
  | Some before =>
      (* state["messages"].append(human_message) *)
      let appended := set_ms_messages (ms_messages before ++ [human_message]) before in
      modify (with_state (Some appended)) ;;;
      (* state = graph.invoke(state) *)
      after <- graph appended ;;
      modify (with_state (Some after)) ;;;
      match rev (cb_messages (ms_chatbot after)) with
      | [] => raise IndexError
      | assistant_message :: _ =>
          prev <- gets prev_assistant_message ;;
          response_text <-
            (if match prev with
                | Some p => message_eqb assistant_message p
                | None => false
                end
             then
               match ms_planner after with
               | None => raise (KeyError "planner")
               | Some planner =>
                   match rev (pl_messages planner) with
                   | [] => raise IndexError
                   | planner_message :: _ => call_formatter (content planner_message)
                   end
               end
             else
               modify (with_prev (Some assistant_message)) ;;;
               ret (content assistant_message)) ;;
          values <- get_real (ms_real_profile after) ;;
          tracked <- get_shadow (ms_shadow_profile after) ;;
          let profile_data :=
            map (fun fi =>
                   (fst fi,
                    match Dict.get (fst fi) values with
                    | Some v => v
                    | None => JBool false
                    end))
                tracked in
          ret {| response := response_text;
                 answer_real_profile := profile_data;
                 answer_conversation_title := ms_conversation_title after |}
      end
  end.

(** ** The validity check of a matcher response

    [isinstance(x, int)] holds of a [bool] too. *)

Definition is_bool (v : json) : bool :=
  match v with
  | JBool _ => true
  | _ => false
  end.

Definition is_int (v : json) : bool :=
  match v with
  | JInt _ | JBool _ => true
  | _ => false
  end.

(** one turn of the loop over [data.items()] *)
Definition valid_entry (value : json) : bool :=
  match value with
  | JObj members =>
      let value := Dict.of_pairs members in
      match Dict.get "collected" value, Dict.get "importance" value with
      | Some c, Some i => is_bool c && is_int i
      | _, _ => false
      end
  | _ => false
  end.

Definition is_valid_matcher_response (response_text : string) : M bool :=
  if String.eqb response_text "" then ret false else
  let response_text := PyStr.strip response_text in
  if String.eqb response_text "None" then ret true else
  parse <- gets json_loads ;;
  match parse response_text with
  | Some (JObj members) =>
      ret (forallb (fun kv => valid_entry (snd kv)) (Dict.of_pairs members))
  | Some _ => ret false
  | None => ret false   (* except json.JSONDecodeError *)
  end.

(** ** The HTTP endpoints of [routers/chatBot.py]

    The bodies of the two endpoints, for a caller whose access token was
    verified.  An endpoint answers with its response model or raises an
    [HTTPException]; [except Exception] catches whatever [chat_step] raises. *)

Record AnswerRequest := { req_session_id : string; req_message : string }.

Record AnswerResponse := {
  resp_response : string;
  resp_real_profile : list (string * json);
  resp_conversation_title : option string
}.

Inductive http (A : Type) :=
| Respond (body : A)
| HTTPException (status_code : nat) (detail : string).
Arguments Respond {A} body.
Arguments HTTPException {A} status_code detail.

Definition HTTP_400_BAD_REQUEST : nat := 400.
Definition HTTP_500_INTERNAL_SERVER_ERROR : nat := 500.

(** [session_id = str(time.time())] is the argument [now]. *)
Definition start_chat (now : string) (w : World) : http string * World :=
  match start_session now w with
  | (Ok _, w') => (Respond now, w')
  | (Raise _, w') => (HTTPException HTTP_500_INTERNAL_SERVER_ERROR "Failed to start session", w')
  end.

Definition answer_question (payload : AnswerRequest) (w : World)
  : http AnswerResponse * World :=
  if String.eqb (req_session_id payload) "" then
    (HTTPException HTTP_400_BAD_REQUEST "Missing session_id", w)
  else if String.eqb (PyStr.strip (req_message payload)) "" then
    (HTTPException HTTP_400_BAD_REQUEST "Message cannot be empty", w)
  else
    match chat_step (req_message payload) (req_session_id payload) w with
    | (Ok result, w') =>
        (Respond {| resp_response := response result;
                    resp_real_profile := answer_real_profile result;
                    resp_conversation_title := answer_conversation_title result |}, w')
    | (Raise _, w') =>
        (HTTPException HTTP_500_INTERNAL_SERVER_ERROR
           "Internal error while processing request", w')
    end.

(** * The vocabulary of the properties, and scenario data *)

(** ** The contract of the profile store, in the words of the specification

    [completenessRatio] is the importance of the collected fields over the
    importance of all fields, [needsCritical] says that a field of importance
    [MAX_IMPORTANCE] (5) is not collected, and readiness asks for a ratio of
    at least the threshold and no critical field missing. *)

Definition total_importance (p : ShadowProfile) : Z :=
  fold_right Z.add 0%Z (map (fun fi => importance (snd fi)) p).

Definition collected_importance (p : ShadowProfile) : Z :=
  fold_right Z.add 0%Z
    (map (fun fi => importance (snd fi)) (filter (fun fi => collected (snd fi)) p)).

Definition completenessRatio (p : ShadowProfile) : Q :=
  (inject_Z (collected_importance p) / inject_Z (total_importance p))%Q.

Definition needsCritical (p : ShadowProfile) : bool :=
  existsb (fun fi => (importance (snd fi) =? 5)%Z && negb (collected (snd fi))) p.

Definition isReady (threshold : Q) (p : ShadowProfile) : bool :=
  Qle_bool threshold (completenessRatio p) && negb (needsCritical p).

(** ** Scenarios and what is read off a run *)

Definition says (text : string) : reply := Says {| r_content := text; r_tool_calls := [] |}.

(** a process before any session, with a given script of replies and parser *)
Definition boot (parse : string -> option json) (script : list reply) : World :=
  {| shadows := []; reals := []; state := None; prev_assistant_message := None;
     replies := script; log := []; next_id := 0;
     json_loads := parse; json_dumps := py_repr;
     similarity_search := fun _ => [] |}.

(** the world a computation leaves *)
Definition after {A} (c : M A) (w : World) : World := snd (c w).

Definition no_parse : string -> option json := fun _ => None.

(** a process right after [start_session] *)
Definition session_world : World := after (start_session "A") (boot no_parse []).

Definition session_state : MasterState := new_master_state 0 0.

(** a state whose shadow profile is the empty dictionary *)
Definition empty_map_world : World :=
  after (alloc_shadow []) (after (alloc_real []) (boot no_parse [])).

Definition empty_map_state : MasterState := new_master_state 0 0.

(** a session whose five initial fields are all collected, and a classifier
    that answers "spend" *)
Definition collected_profile : ShadowProfile :=
  [ ("goal", entry true 5); ("age", entry true 2); ("salary", entry true 3);
    ("savings", entry true 4); ("location", entry true 5) ].

Definition matching_world : World :=
  {| shadows := [collected_profile];
     reals := [[("goal", JStr "I want to travel the world")]];
     state := None; prev_assistant_message := None;
     replies := [says "spend"]; log := []; next_id := 0;
     json_loads := no_parse; json_dumps := py_repr;
     similarity_search := fun _ => [] |}.

(** the text of the chatbot's last message, which [run_extractor] hands over *)
Definition last_chatbot_content (st : MasterState) : string :=
  match rev (filter (fun m => is_type ai m || is_type system m)
                    (cb_messages (ms_chatbot st))) with
  | [] => "No Chatbot Messages Found"
  | m :: _ => content m
  end.

(** the messages [run_extractor] passes to the extractor *)
Definition extractor_input (st : MasterState) (w : World) : list message :=
  into_channel
    ([{| mtype := human; content := last_chatbot_content st;
         tool_calls := []; mid := Fresh (next_id w) |}]
     ++ last_human_of (present (ms_messages st))).

(** the text of the latest of them *)
Definition latest_text (st : MasterState) (w : World) : string :=
  content (last (extractor_input st w) system_prompt_extract).

Definition is_title_request (e : event) : bool :=
  match e with
  | Invoke _ Title _ => true
  | _ => false
  end.

(** how many title requests a log holds *)
Definition title_requests (evs : list event) : nat :=
  List.length (filter is_title_request evs).

Definition real_profile_is_allocated (st : MasterState) (w : World) : Prop :=
  match ex_real_profile (ms_extractor st) with
  | Some l => (l < List.length (reals w))%nat
  | None => True
  end.

Definition label := (string * string)%type.

Definition tracked (e : event) : list label :=
  match e with
  | Enter g n =>
      if String.eqb g "workflow" || String.eqb g "planner_graph" then [(g, n)] else []
  | Invoke _ _ _ => []
  end.

Definition entered (evs : list event) : list label := flat_map tracked evs.

(** the traces of a computation followed by another *)
Definition seq (first then_ : list (list label)) : list (list label) :=
  flat_map (fun a => map (app a) then_) first.

(** A relation between the world before and the world after that every step
    may be asked to keep. *)
Class Keeps (R : World -> World -> Prop) : Prop := {
  keeps_refl : forall w, R w w;
  keeps_trans : forall a b c, R a b -> R b c -> R a c
}.

(** the two module globals are not assigned *)
Definition same_globals (w w' : World) : Prop :=
  state w' = state w /\ prev_assistant_message w' = prev_assistant_message w.

Definition any_world (w w' : World) : Prop := True.

(** the log grows by [evs], and [R] relates the world before to the world after *)
Definition frame (R : World -> World -> Prop) (w w' : World) (evs : list event) : Prop :=
  log w' = log w ++ evs /\ R w w'.

Definition runs (R : World -> World -> Prop) {A} (c : M A) (L Lok : list (list label)) : Prop :=
  forall w, exists evs,
    frame R w (snd (c w)) evs
    /\ In (entered evs) L
    /\ (forall a, fst (c w) = Ok a -> In (entered evs) Lok)
    /\ fst (c w) <> Raise GraphRecursionError.

(** a computation that enters no node of the two graphs and assigns no global *)
Definition quiet {A} (c : M A) : Prop := runs same_globals c [[]] [[]].

Definition Wn (n : string) : label := ("workflow", n).

Definition Pn (n : string) : label := ("planner_graph", n).

(** the node sequences a planner run may enter, and those of a run that returns *)
Definition planner_traces : list (list label) :=
  [ [Pn "query_or_respond"];
    [Pn "query_or_respond"; Pn "tools"];
    [Pn "query_or_respond"; Pn "tools"; Pn "call_planner"] ].

Definition planner_runs : list (list label) :=
  [ [Pn "query_or_respond"];
    [Pn "query_or_respond"; Pn "tools"; Pn "call_planner"] ].

(** the node sequences of a turn that returns *)
Definition complete_turns : list (list label) :=
  [ [Wn "extractor"; Wn "chatbot"];
    [Wn "extractor"; Wn "chatbot"; Wn "summarizer"];
    [Wn "extractor"; Wn "matcher"; Wn "chatbot"];
    [Wn "extractor"; Wn "matcher"; Wn "chatbot"; Wn "summarizer"];
    [Wn "extractor"; Wn "planner"; Pn "query_or_respond"];
    [Wn "extractor"; Wn "planner"; Pn "query_or_respond"; Pn "tools"; Pn "call_planner"] ].

(** the node sequences of any turn: those, and what a failing node cuts short *)
Definition turn_traces : list (list label) :=
  [ [];
    [Wn "extractor"];
    [Wn "extractor"; Wn "chatbot"];
    [Wn "extractor"; Wn "chatbot"; Wn "summarizer"];
    [Wn "extractor"; Wn "matcher"];
    [Wn "extractor"; Wn "matcher"; Wn "chatbot"];
    [Wn "extractor"; Wn "matcher"; Wn "chatbot"; Wn "summarizer"];
    [Wn "extractor"; Wn "planner"];
    [Wn "extractor"; Wn "planner"; Pn "query_or_respond"];
    [Wn "extractor"; Wn "planner"; Pn "query_or_respond"; Pn "tools"];
    [Wn "extractor"; Wn "planner"; Pn "query_or_respond"; Pn "tools"; Pn "call_planner"] ].

(** the traces that may follow the extractor *)
Definition after_extractor : list (list label) :=
  [ []; [Wn "chatbot"]; [Wn "chatbot"; Wn "summarizer"];
    [Wn "matcher"]; [Wn "matcher"; Wn "chatbot"];
    [Wn "matcher"; Wn "chatbot"; Wn "summarizer"];
    [Wn "planner"]; [Wn "planner"; Pn "query_or_respond"];
    [Wn "planner"; Pn "query_or_respond"; Pn "tools"];
    [Wn "planner"; Pn "query_or_respond"; Pn "tools"; Pn "call_planner"] ].

Definition after_extractor_ok : list (list label) :=
  [ [Wn "chatbot"]; [Wn "chatbot"; Wn "summarizer"];
    [Wn "matcher"; Wn "chatbot"]; [Wn "matcher"; Wn "chatbot"; Wn "summarizer"];
    [Wn "planner"; Pn "query_or_respond"];
    [Wn "planner"; Pn "query_or_respond"; Pn "tools"; Pn "call_planner"] ].

(** a computation that enters no node, whatever it assigns *)
Definition calm {A} (c : M A) : Prop := runs any_world c [[]] [[]].

(** the nodes of the master graph, and of the planner graph, in a trace *)
Definition master_nodes (t : list label) : list label :=
  filter (fun l => String.eqb (fst l) "workflow") t.

Definition planner_nodes (t : list label) : list label :=
  filter (fun l => String.eqb (fst l) "planner_graph") t.

(** the message [chat_step] makes of the user's text *)
Definition user_turn (user_message : string) (w : World) : message :=
  {| mtype := human; content := user_message; tool_calls := [];
     mid := Fresh (next_id w) |}.

(** [state["messages"].append(human_message)] *)
Definition with_user_message (m : message) (st : MasterState) : MasterState :=
  set_ms_messages (ms_messages st ++ [Some m]) st.

(** the process when [chat_step] hands the state to the graph *)
Definition turn_started (user_message : string) (before : MasterState) (w : World) : World :=
  with_state (Some (with_user_message (user_turn user_message w) before))
    (with_next_id (S (next_id w)) w).

(** what the graph makes of its input before the first node runs *)
Definition graph_input (st : MasterState) : MasterState :=
  set_ms_messages (map Some (into_channel (present (ms_messages st)))) st.

Definition all_messages (l : list (option message)) : bool :=
  forallb (fun o => match o with Some _ => true | None => false end) l.

(** a new session whose extractor will answer with prose *)
Definition prose_world : World :=
  after (start_session "A")
    (boot no_parse [says "Sure! The user wants to retire early."]).

(** a new session whose first model call will fail *)
Definition outage_world : World :=
  after (start_session "A") (boot no_parse [Fails "connection error"]).

Definition succeeded {A} (o : outcome A) : bool :=
  match o with
  | Ok _ => true
  | Raise _ => false
  end.

Definition jq (text : string) : string := dqs +++ text +++ dqs.

(** two replies of the extractor that both carry a "goal" key *)
Definition first_goal_reply : string := "{" +++ jq "goal" +++ ": " +++ jq "retire early and travel" +++ "}".

Definition second_goal_reply : string := "{" +++ jq "goal" +++ ": " +++ jq "leave a legacy" +++ "}".

Definition two_goals_parse (text : string) : option json :=
  Dict.get text
    [ (first_goal_reply, JObj [("goal", JStr "retire early and travel")]);
      (second_goal_reply, JObj [("goal", JStr "leave a legacy")]) ].

(** a session after a first turn that stated a goal *)
Definition after_first_goal : World :=
  after
    (start_session "A" ;;;
     chat_step "I want to retire early and travel" "A")
    (boot two_goals_parse
       [ says first_goal_reply; says "Early Retirement and Travel";
         says "How old are you?";
         says second_goal_reply; says "Leaving a Legacy";
         says "How old are you?" ]).

Definition second_goal_turn : M Answer :=
  chat_step "Actually I would rather leave everything to my children" "A".

(** the state of that session, with its title already set *)
Definition titled_state : MasterState :=
  match state after_first_goal with
  | Some st => st
  | None => new_master_state 0 0
  end.

(** the goal the matcher classifies *)
Definition user_goal_of (st : MasterState) (w : World) : json :=
  match Dict.get "goal" (read_real (ms_real_profile st) w) with
  | Some v => v
  | None => JStr ""
  end.

(** a new session whose extractor returns a paraphrased goal *)
Definition paraphrase_world : World :=
  after (start_session "A")
    (boot two_goals_parse [says first_goal_reply; says "Early Retirement and Travel"]).

Definition first_user_message : message :=
  {| mtype := human; content := "I want to retire early and travel";
     tool_calls := []; mid := Fresh 0 |}.

Definition paraphrase_state : MasterState :=
  with_user_message first_user_message (new_master_state 0 0).

(** a request of the planner whose prompt interpolates the empty dictionary *)
Definition asks_with_empty_profile (e : event) : Prop :=
  match e with
  | Invoke _ Query prompt =>
      exists p rest, prompt = p :: rest /\ content p = rag_query "{}"
  | Invoke _ Plan prompt =>
      exists p rest docs, prompt = p :: rest /\ content p = planner_system_message "{}" docs
  | _ => True
  end.

(** the ["planner"] entry of the master state holds no real profile *)
Definition planner_has_no_profile (st : MasterState) : Prop :=
  match ms_planner st with
  | Some p => pl_real_profile p = None
  | None => True
  end.

(** a session whose profile is filled and whose template is selected *)
Definition ready_world : World :=
  {| shadows := [collected_profile];
     reals := [[("goal", JStr "I want to travel the world"); ("age", JInt 52);
                ("salary", JInt 90000); ("savings", JInt 400000);
                ("location", JStr "Ohio")]];
     state := None; prev_assistant_message := None;
     replies := [says "Here is your plan."]; log := []; next_id := 0;
     json_loads := no_parse; json_dumps := py_repr;
     similarity_search := fun _ => [] |}.

(** the profile values of the session state of a process *)
Definition session_values (w : World) : option RealProfile :=
  option_map (fun st => read_real (ms_real_profile st) w) (state w).

Definition age_reply : string := "{" +++ jq "age" +++ ": 35}".

Definition age_parse (text : string) : option json :=
  Dict.get text [(first_goal_reply, JObj [("goal", JStr "retire early and travel")]);
                 (age_reply, JObj [("age", JInt 35)])].

Definition before_late_failure : World :=
  after
    (start_session "A" ;;;
     chat_step "I want to retire early and travel" "A")
    (boot age_parse
       [ says first_goal_reply; says "Early Retirement and Travel";
         says "How old are you?";
         says age_reply; Fails "connection error" ]).

Definition collected_fields (w : World) : option (list string) :=
  option_map
    (fun st => map fst (filter (fun fi => collected (snd fi))
                               (read_shadow (ms_shadow_profile st) w)))
    (state w).

(** ** The vocabulary of the further properties *)

Definition last_chatbot_message (st : MasterState) : option message :=
  match rev (cb_messages (ms_chatbot st)) with
  | m :: _ => Some m
  | [] => None
  end.

(** a session whose master history holds an entry that is not a message *)
Definition poisoned (w : World) : Prop :=
  exists st, state w = Some st /\ all_messages (ms_messages st) = false.

(** the process after a sequence of calls of [chat_step], whatever they return *)
Definition after_turns (turns : list (string * string)) (w : World) : World :=
  fold_left (fun w0 turn => after (chat_step (fst turn) (snd turn)) w0) turns w.

(** every entry of the master history of the session is a message *)
Definition clean (w : World) : Prop :=
  match state w with
  | Some st => all_messages (ms_messages st) = true
  | None => True
  end.

(** a request to one of the two endpoints *)
Inductive Request :=
| StartChat (now : string)
| AnswerQuestion (payload : AnswerRequest).

(** the process after the requests were handled, one after the other *)
Definition served (requests : list Request) (w : World) : World :=
  fold_left
    (fun w0 r =>
       match r with
       | StartChat now => snd (start_chat now w0)
       | AnswerQuestion payload => snd (answer_question payload w0)
       end)
    requests w.

(** [c] relates the world it starts in to the world it leaves by [R], and
    raises only exceptions of [X]. *)
Definition obeys {A} (R : World -> World -> Prop) (X : exn -> Prop) (c : M A) : Prop :=
  forall w, R w (snd (c w)) /\ forall e, fst (c w) = Raise e -> X e.

(** what a node of a graph may raise: the failure of a model call, of
    [json.loads], of [.keys()] on a reply that is no object, of the division
    of the router, and the step limit of a graph *)
Definition node_failure (e : exn) : Prop :=
  e = JSONDecodeError \/ e = AttributeError \/ e = ZeroDivisionError
  \/ (exists reason, e = ModelError reason) \/ e = GraphRecursionError.

(** what a turn of a session with a clean history may raise *)
Definition turn_failure (e : exn) : Prop :=
  e = JSONDecodeError \/ e = AttributeError \/ e = ZeroDivisionError
  \/ (exists reason, e = ModelError reason)
  \/ e = IndexError \/ e = KeyError "planner".

Definition is_request (e : event) : bool :=
  match e with
  | Invoke _ _ _ => true
  | Enter _ _ => false
  end.

(** how many model requests a log holds *)
Definition requests_in (evs : list event) : nat := List.length (filter is_request evs).

(** [c] only appends to the log, and at most [n] model requests *)
Definition costs {A} (n : nat) (c : M A) : Prop :=
  forall w, exists evs, log (snd (c w)) = log w ++ evs /\ (requests_in evs <= n)%nat.

(** the profile the interviewer is shown: the state's dictionary, or an empty
    one when the state has none *)
Definition shown_profile (o : option loc) (w : World) : ShadowProfile :=
  match o with
  | Some l => read_shadow l w
  | None => []
  end.

(** a message that carries a snapshot of the profile *)
Definition is_snapshot (m : message) : bool :=
  role_eqb (mtype m) human && PyStr.contains profile_status_marker (content m).

(** a system message that names the assistant *)
Definition is_system_prompt (m : message) : bool :=
  role_eqb (mtype m) system && PyStr.contains "NestWise" (content m).

(** the fields that are not collected, with their importance, in the order of
    the profile *)
Definition uncollected (d : ShadowProfile) : list (string * Z) :=
  map (fun kv => (fst kv, importance (snd kv)))
      (filter (fun kv => negb (collected (snd kv))) d).

Definition missing_line (fi : string * Z) : string :=
  "- " +++ fst fi +++ " (importance: " +++ PyStr.of_Z (snd fi) +++ ")".

(** the text a reply is tested on *)
Definition reply_text_of (r : AIReply) : string :=
  if String.eqb (r_content r) ""
  then "content=" +++ PyStr.repr (r_content r)
  else r_content r.

(** the model claims that nothing is missing *)
Definition claims_all_collected (r : AIReply) : bool :=
  PyStr.startswith (PyStr.lower (PyStr.strip (reply_text_of r))) "all necessary info collected".

(** the history the interviewer is sent: the system prompt first, and no
    earlier snapshot *)
Definition interview_history (msgs : list message) : list message :=
  filter (fun m => negb (is_snapshot m))
    match msgs with
    | m0 :: _ => if is_system_prompt m0 then msgs else system_prompt_chatbot :: msgs
    | [] => system_prompt_chatbot :: msgs
    end.

(** the list of missing fields in a snapshot *)
Definition missing_fields_text (d : ShadowProfile) : string :=
  match sort_desc (uncollected d) with
  | [] => "None"
  | missing => PyStr.join nl (map missing_line missing)
  end.

(** the snapshot [call_chatbot] appends to the history *)
Definition snapshot_of (st : ChatbotState) (w : World) : message :=
  {| mtype := human;
     content := profile_prompt (shown_profile (cb_shadow_profile st) w)
                  (missing_fields_text (shown_profile (cb_shadow_profile st) w));
     tool_calls := [];
     mid := Fresh (next_id w) |}.

(** the store grew by empty dictionaries only *)
Definition grown {V} (old new : list (list (string * V))) : Prop :=
  exists fresh, new = old ++ fresh /\ Forall (fun d => d = []) fresh.

(** a reply that is a JSON object with at least one member *)
Definition is_nonempty_object (v : json) : bool :=
  match v with
  | JObj (_ :: _) => true
  | _ => false
  end.

(** every dictionary of the old store is still there and has kept its keys *)
Definition keeps_keys {V} (old new : list (list (string * V))) : Prop :=
  forall l d,
    nth_error old l = Some d ->
    exists d', nth_error new l = Some d'
               /\ forall k, Dict.mem k d = true -> Dict.mem k d' = true.

(** no tracked field and no stored value was deleted *)
Definition nothing_deleted (w w' : World) : Prop :=
  keeps_keys (shadows w) (shadows w') /\ keeps_keys (reals w) (reals w').

Definition any_exception (e : exn) : Prop := True.

(** a message created before the counter of identifiers reached [n] *)
Definition id_below (n : nat) (m : message) : Prop :=
  match mid m with
  | Fresh k => (k < n)%nat
  | Static _ => True
  end.

(** messages created one after the other, from identifier [n] on *)
Fixpoint ascending (n : nat) (msgs : list message) : Prop :=
  match msgs with
  | [] => True
  | m :: rest => exists k, mid m = Fresh k /\ (n <= k)%nat /\ ascending (S k) rest
  end.

(** the text [retrieve] returns for a query *)
Definition snippets (search : string -> list Document) (query : string) : string :=
  PyStr.join (nl +++ nl +++ "---" +++ nl +++ nl)
    (map (fun doc =>
            "Source: "
            +++ PyStr.basename match doc_source doc with Some s => s | None => "Unknown source" end
            +++ ", Page: " +++ match doc_page doc with Some p => p | None => "N/A" end +++ nl
            +++ "Content:" +++ nl +++ PyStr.strip (page_content doc))
         (firstn 3 (search query))).

(** the tool messages of a list of queries, created from identifier [n] on *)
Fixpoint tool_results (search : string -> list Document) (n : nat) (queries : list string)
  : list message :=
  match queries with
  | [] => []
  | q :: rest =>
      {| mtype := tool; content := snippets search q; tool_calls := []; mid := Fresh n |}
      :: tool_results search (S n) rest
  end.

(** every field the first state tracks in the first world, the second state
    tracks in the second world *)
Definition tracks_more (s : MasterState) (w : World) (s' : MasterState) (w' : World) : Prop :=
  forall field,
    Dict.mem field (read_shadow (ms_shadow_profile s) w) = true ->
    Dict.mem field (read_shadow (ms_shadow_profile s') w') = true.

(** the counter of message identifiers did not go back *)
Definition later (w w' : World) : Prop := (next_id w <= next_id w')%nat.

(** every message of the session was created before the counter reached its
    present value *)
Definition well_numbered (st : MasterState) (w : World) : Prop :=
  Forall (id_below (next_id w)) (cb_messages (ms_chatbot st))
  /\ Forall (id_below (next_id w)) (present (ms_messages st))
  /\ match prev_assistant_message w with
     | Some p => id_below (next_id w) p
     | None => True
     end.

(** a message created when the counter was at [n] or later *)
Definition id_from (n : nat) (m : message) : Prop :=
  exists k, mid m = Fresh k /\ (n <= k)%nat.

(** the interviewer's history is below the threshold of the summarizer *)
Definition short_history (st : MasterState) : Prop :=
  (List.length (cb_messages (ms_chatbot st)) < 20)%nat.

(** a reply of the extractor that fills the five initial fields, and one that
    reports nothing new *)
Definition full_reply : string :=
  "{" +++ jq "goal" +++ ": " +++ jq "spend it all" +++ ", " +++ jq "age" +++ ": 52, "
  +++ jq "salary" +++ ": 90000, " +++ jq "savings" +++ ": 400000, "
  +++ jq "location" +++ ": " +++ jq "Ohio" +++ "}".

Definition full_parse (text : string) : option json :=
  Dict.get text
    [ (full_reply,
       JObj [("goal", JStr "spend it all"); ("age", JInt 52); ("salary", JInt 90000);
             ("savings", JInt 400000); ("location", JStr "Ohio")]);
      ("{}", JObj []) ].

(** a new session whose first turn will fill the profile and select a template,
    and whose second turn will learn nothing *)
Definition full_session : World :=
  after (start_session "A")
    (boot full_parse
       [ says full_reply; says "Spending It All"; says "spend";
         says "When do you plan to retire?";
         says "{}"; says "At what age would you like to retire?" ]).

Definition full_message : string :=
  "I am 52, live in Ohio, earn 90000, saved 400000 and want to spend it all".

(** that session after its first turn *)
Definition templated_world : World := after (chat_step full_message "A") full_session.

Definition templated_state : MasterState :=
  match state templated_world with
  | Some st => st
  | None => new_master_state 0 0
  end.

(** the interviewer's state of a new session, and a process whose model
    declares the interview over at once *)
Definition new_chatbot_state : ChatbotState :=
  {| cb_messages := [system_prompt_chatbot; assistant_message];
     cb_shadow_profile := Some 0 |}.

Definition premature_world : World :=
  after (start_session "A") (boot no_parse [says "All necessary info collected. Thank you!"]).

(** the extractor's state in a session whose two profiles are allocated *)
Definition allocated_extractor_state : ExtractorState :=
  {| ex_messages := []; ex_real_profile := Some 0; ex_shadow_profile := Some 0;
     ex_all_fields_filled := Some false; ex_conversation_title := Some "None" |}.

Definition nothing_new_world : World :=
  after (start_session "A") (boot full_parse [says "{}"]).

(** a process whose planner asks for one retrieval and then answers *)
Definition retrieval_world : World :=
  boot no_parse
    [ Says {| r_content := ""; r_tool_calls := ["retirement savings in Ohio"] |};
      says "Here is your plan." ].

Definition empty_planner_state : PlannerState :=
  {| pl_messages := []; pl_real_profile := None; pl_shadow_profile := None |}.

Definition recap_world : World := boot no_parse [says "The user wants to retire early."].

(** * Properties *)

(** ** Dictionaries *)

Module DictFacts.
Section Facts.
Context {V : Type}.
Implicit Types (d : list (string * V)) (k : string) (v : V).

Lemma get_set_eq k v d : Dict.get k (Dict.set k v d) = Some v.
Proof.
  induction d as [|[k' v'] d IH]; simpl.
  - now rewrite String.eqb_refl.
  - destruct (String.eqb k k') eqn:E; simpl; rewrite E; auto.
Qed.

Lemma get_set_neq k k' v d :
  k <> k' -> Dict.get k (Dict.set k' v d) = Dict.get k d.
Proof.
  intros Hne. induction d as [|[k0 v0] d IH]; simpl.
  - destruct (String.eqb k k') eqn:E; auto.
    apply String.eqb_eq in E. contradiction.
  - destruct (String.eqb k' k0) eqn:E; simpl.
    + apply String.eqb_eq in E. subst k0.
      destruct (String.eqb k k') eqn:E'; auto.
      apply String.eqb_eq in E'. contradiction.
    + now rewrite IH.
Qed.

Lemma mem_get k d : Dict.mem k d = true <-> exists v, Dict.get k d = Some v.
Proof.
  unfold Dict.mem. destruct (Dict.get k d); split; intros H; eauto.
  - discriminate.
  - destruct H as [v H]. discriminate.
Qed.

Lemma mem_false_get k d : Dict.mem k d = false <-> Dict.get k d = None.
Proof.
  unfold Dict.mem. destruct (Dict.get k d); split; intros H; congruence.
Qed.

Lemma get_in k v d : Dict.get k d = Some v -> In (k, v) d.
Proof.
  induction d as [|[k' v'] d IH]; simpl; [discriminate|].
  destruct (String.eqb k k') eqn:E.
  - apply String.eqb_eq in E. subst. intros [= ->]. now left.
  - intros H. right. auto.
Qed.

Lemma mem_set k k' v d :
  Dict.mem k (Dict.set k' v d) = String.eqb k k' || Dict.mem k d.
Proof.
  unfold Dict.mem. destruct (String.eqb k k') eqn:E.
  - apply String.eqb_eq in E. subst. now rewrite get_set_eq.
  - apply String.eqb_neq in E. now rewrite get_set_neq.
Qed.

Lemma set_not_nil k v d : Dict.set k v d <> [].
Proof. destruct d as [|[k' v'] d]; simpl; [|destruct (String.eqb k k')]; discriminate. Qed.
End Facts.
End DictFacts.

(** ** Readiness *)

Lemma tally_from (p : ShadowProfile) (a b : Z) (c : bool) :
  fold_left
    (fun acc fi =>
       let '(totImportance, totFilledImportance, needsCriticalInfo) := acc in
       let info := snd fi in
       ((totImportance + importance info)%Z,
        (totFilledImportance + (if collected info then importance info else 0))%Z,
        needsCriticalInfo || ((importance info =? MAXRATING)%Z && negb (collected info))))
    p (a, b, c)
  = ((a + total_importance p)%Z, (b + collected_importance p)%Z, c || needsCritical p).
Proof.
  revert a b c. induction p as [|[field info] p IH]; intros a b c.
  - simpl. now rewrite !Z.add_0_r, orb_false_r.
  - cbn [fold_left snd]. rewrite IH.
    unfold total_importance, collected_importance, needsCritical.
    cbn [map filter existsb snd fold_right].
    change MAXRATING with 5%Z.
    destruct (collected info); cbn [map fold_right negb snd];
      rewrite ?andb_false_r, ?andb_true_r, ?orb_false_r, <- ?orb_assoc,
        <- ?Z.add_assoc, ?Z.add_0_l; reflexivity.
Qed.

Lemma tally_spec (p : ShadowProfile) :
  tally p = (total_importance p, collected_importance p, needsCritical p).
Proof. unfold tally. now rewrite tally_from. Qed.

Lemma importance_sums (p : ShadowProfile) :
  (forall field info, In (field, info) p -> (1 <= importance info)%Z) ->
  (0 <= collected_importance p <= total_importance p)%Z /\
  (p <> [] -> 0 < total_importance p)%Z.
Proof.
  induction p as [|[field info] p IH]; intros Hpos.
  - split; [cbn; lia | congruence].
  - assert (Hi : (1 <= importance info)%Z) by (eapply Hpos; now left).
    destruct IH as [IH _]; [intros f i Hin; eapply Hpos; right; eauto|].
    unfold collected_importance, total_importance in *.
    cbn [map filter fold_right snd].
    destruct (collected info); cbn [map fold_right snd]; split; intros; lia.
Qed.

Lemma ratio_bounds (p : ShadowProfile) :
  p <> [] ->
  (forall field info, In (field, info) p -> (1 <= importance info)%Z) ->
  (0 <= completenessRatio p)%Q /\ (completenessRatio p <= 1)%Q.
Proof.
  intros Hne Hpos.
  destruct (importance_sums p Hpos) as [[H0 Hle] Htot]. specialize (Htot Hne).
  unfold completenessRatio.
  assert (Hq : (0 < inject_Z (total_importance p))%Q).
  { change 0%Q with (inject_Z 0). now rewrite <- Zlt_Qlt. }
  split.
  - apply Qle_shift_div_l; [exact Hq|].
    rewrite Qmult_0_l. change 0%Q with (inject_Z 0). now rewrite <- Zle_Qle.
  - apply Qle_shift_div_r; [exact Hq|].
    rewrite Qmult_1_l. now rewrite <- Zle_Qle.
Qed.

Lemma needsCritical_iff (p : ShadowProfile) :
  needsCritical p = true <->
  exists field info, In (field, info) p /\ importance info = 5%Z /\ collected info = false.
Proof.
  unfold needsCritical. rewrite existsb_exists. split.
  - intros [[field info] [Hin H]]. apply andb_true_iff in H as [Hi Hc].
    exists field, info. cbn [snd] in *. repeat split; auto.
    + now apply Z.eqb_eq.
    + now apply negb_true_iff.
  - intros (field & info & Hin & Hi & Hc). exists (field, info). split; auto.
    cbn [snd]. rewrite Hi, Hc. reflexivity.
Qed.

(** ** Running a computation symbolically *)

(** One step of reduction through the monad, the store and the records,
    leaving the prompts, the agents and the graph loop folded. *)
Ltac mred :=
  cbn beta iota zeta delta
    [bind ret raise gets modify record fresh_id new_message invoke loads
     get_shadow get_real modify_shadow modify_real alloc_shadow alloc_real
     shadow_or_new real_or_new
     fst snd shadows reals state prev_assistant_message replies log next_id
     json_loads json_dumps similarity_search
     with_shadows with_reals with_state with_prev with_replies with_log with_next_id
     read_shadow read_real
     cb_messages cb_shadow_profile
     ex_messages ex_real_profile ex_shadow_profile ex_all_fields_filled ex_conversation_title
     mt_messages mt_real_profile mt_shadow_profile mt_selected_template mt_need_no_more_fields
     sm_messages sm_real_profile sm_summary
     pl_messages pl_real_profile pl_shadow_profile
     ms_messages ms_chatbot ms_extractor ms_summarizer ms_matcher ms_real_profile
     ms_shadow_profile ms_conversation_title ms_planner set_ms_messages
     mtype content tool_calls mid r_content r_tool_calls
     graph_name node_name entry_point body edge].

Ltac mred_in H :=
  cbn beta iota zeta delta
    [bind ret raise gets modify record fresh_id new_message invoke loads
     get_shadow get_real modify_shadow modify_real alloc_shadow alloc_real
     shadow_or_new real_or_new
     fst snd shadows reals state prev_assistant_message replies log next_id
     json_loads json_dumps similarity_search
     with_shadows with_reals with_state with_prev with_replies with_log with_next_id
     read_shadow read_real
     cb_messages cb_shadow_profile
     ex_messages ex_real_profile ex_shadow_profile ex_all_fields_filled ex_conversation_title
     mt_messages mt_real_profile mt_shadow_profile mt_selected_template mt_need_no_more_fields
     sm_messages sm_real_profile sm_summary
     pl_messages pl_real_profile pl_shadow_profile
     ms_messages ms_chatbot ms_extractor ms_summarizer ms_matcher ms_real_profile
     ms_shadow_profile ms_conversation_title ms_planner set_ms_messages
     mtype content tool_calls mid r_content r_tool_calls
     graph_name node_name entry_point body edge] in H.

(** The graph loop, one node at a time. *)
Lemma pregel_step {S N} (g : Graph S N) (limit : nat) (n : N) (s : S) :
  pregel g (Datatypes.S limit) n s =
  (record (Enter (graph_name g) (node_name g n)) ;;;
   s' <- body g n s ;;
   next <- edge g n s' ;;
   match next with
   | None => ret s'
   | Some n' => pregel g limit n' s'
   end).
Proof. reflexivity. Qed.

Lemma route_decision_extractor_spec (st : MasterState) (w : World) :
  total_importance (read_shadow (ms_shadow_profile st) w) <> 0%Z ->
  route_decision_extractor st w =
    (Ok (if isReady COMPLETENESSRATIO (read_shadow (ms_shadow_profile st) w)
         then if no_template (mt_selected_template (ms_matcher st))
              then "matcher" else "planner"
         else "chatbot"), w).
Proof.
  intros Htot. unfold route_decision_extractor, true_div.
  unfold get_shadow, gets, bind at 1. cbn beta iota.
  rewrite tally_spec. apply Z.eqb_neq in Htot.
  unfold bind, ret, raise. rewrite Htot.
  unfold isReady, completenessRatio.
  rewrite (andb_comm (Qle_bool _ _) (negb _)).
  destruct (negb _ && Qle_bool _ _); [destruct (no_template _)|]; reflexivity.
Qed.

Lemma route_decision_extractor_zero (st : MasterState) (w : World) :
  total_importance (read_shadow (ms_shadow_profile st) w) = 0%Z ->
  route_decision_extractor st w = (Raise ZeroDivisionError, w).
Proof.
  intros Htot. unfold route_decision_extractor, true_div.
  unfold get_shadow, gets, bind at 1. cbn beta iota.
  rewrite tally_spec. apply Z.eqb_eq in Htot.
  unfold bind, ret, raise. now rewrite Htot.
Qed.

(** ** C1 *)



(** ** C8 *)

(** C8, counterexample.  On the empty CompletionMap the routing computation
    does not yield a ratio of 0: the division raises [ZeroDivisionError]. *)
Lemma C8_counterexample :
  read_shadow (ms_shadow_profile empty_map_state) empty_map_world = []
  /\ route_decision_extractor empty_map_state empty_map_world
     = (Raise ZeroDivisionError, empty_map_world)
  /\ forall route w', route_decision_extractor empty_map_state empty_map_world <> (Ok route, w').
Proof.
  split; [reflexivity|]. split; [reflexivity|]. intros route w'. discriminate.
Qed.

(** C8, as amended.  On the empty CompletionMap the readiness computation is
    not defined: the total importance is 0, the division by it is not guarded,
    and the routing function (and with it the edge that leaves the extractor)
    raises [ZeroDivisionError] without producing a ratio. *)
Theorem C8_empty_map_raises (st : MasterState) (w : World) :
  read_shadow (ms_shadow_profile st) w = [] ->
  tally (read_shadow (ms_shadow_profile st) w) = (0%Z, 0%Z, false)
  /\ true_div 0 0 w = (Raise ZeroDivisionError, w)
  /\ route_decision_extractor st w = (Raise ZeroDivisionError, w)
  /\ edge workflow Extractor st w = (Raise ZeroDivisionError, w).
Proof.
  intros Hempty.
  assert (Hroute : route_decision_extractor st w = (Raise ZeroDivisionError, w)).
  { apply route_decision_extractor_zero. now rewrite Hempty. }
  repeat split.
  - now rewrite Hempty.
  - exact Hroute.
  - cbn [edge workflow]. unfold bind. now rewrite Hroute.
Qed.

Lemma C8_witness :
  read_shadow (ms_shadow_profile empty_map_state) empty_map_world = []
  /\ edge workflow Extractor empty_map_state empty_map_world
     = (Raise ZeroDivisionError, empty_map_world).
Proof.
  split; [reflexivity|].
  apply (@C8_empty_map_raises empty_map_state empty_map_world). reflexivity.
Defined.

(** ** The store *)

Lemma nth_list_set_eq {A} (l : nat) (x d : A) (h : list A) :
  (l < List.length h)%nat -> nth l (list_set l x h) d = x.
Proof.
  revert l. induction h as [|y h IH]; intros [|l] Hlt; cbn in *; try lia; auto.
  apply IH. lia.
Qed.

Lemma nth_list_set_neq {A} (l l' : nat) (x d : A) (h : list A) :
  l <> l' -> nth l' (list_set l x h) d = nth l' h d.
Proof.
  revert l l'. induction h as [|y h IH]; intros [|l] [|l'] Hne; cbn; auto; try lia.
Qed.

Lemma length_list_set {A} (l : nat) (x : A) (h : list A) :
  List.length (list_set l x h) = List.length h.
Proof. revert l. induction h as [|y h IH]; intros [|l]; cbn; auto. Qed.

Lemma nth_alloc {A} (x d : A) (h : list A) : nth (List.length h) (h ++ [x]) d = x.
Proof. rewrite app_nth2, Nat.sub_diag; [reflexivity | lia]. Qed.

Lemma nth_alloc_old {A} (l : nat) (x d : A) (h : list A) :
  (l < List.length h)%nat -> nth l (h ++ [x]) d = nth l h d.
Proof. intros. now apply app_nth1. Qed.

(** ** Template selection *)

Lemma install_questions_other (qs d : ShadowProfile) (field : string) :
  Dict.mem field qs = false ->
  Dict.get field (install_questions qs d) = Dict.get field d.
Proof.
  unfold install_questions. revert d.
  induction qs as [|[k info] qs IH]; intros d Hmem; cbn [fold_left fst snd]; [reflexivity|].
  unfold Dict.mem in Hmem. cbn [Dict.get] in Hmem.
  destruct (String.eqb field k) eqn:E; [discriminate|].
  rewrite IH.
  - apply DictFacts.get_set_neq. now apply String.eqb_neq.
  - exact Hmem.
Qed.

Lemma install_questions_field (qs d : ShadowProfile) (field : string) (info : Entry) :
  NoDup (Dict.keys qs) ->
  Dict.get field qs = Some info ->
  Dict.get field (install_questions qs d)
  = Some {| collected := false; importance := importance info |}.
Proof.
  unfold install_questions. revert d.
  induction qs as [|[k i] qs IH]; intros d Hnd Hget; cbn [fold_left fst snd]; [discriminate|].
  cbn [Dict.keys map fst] in Hnd. inversion Hnd as [|? ? Hnotin Hnd']; subst.
  cbn [Dict.get] in Hget. destruct (String.eqb field k) eqn:E.
  - apply String.eqb_eq in E. subst k. injection Hget as ->.
    fold (install_questions qs (Dict.set field {| collected := false; importance := importance info |} d)).
    rewrite install_questions_other; [apply DictFacts.get_set_eq|].
    apply DictFacts.mem_false_get.
    destruct (Dict.get field qs) eqn:G; [|reflexivity].
    exfalso. apply Hnotin. apply DictFacts.get_in in G.
    change field with (fst (field, e)). now apply in_map.
  - now apply IH.
Qed.

Lemma install_questions_mem (qs d : ShadowProfile) (field : string) :
  Dict.mem field (install_questions qs d) = Dict.mem field qs || Dict.mem field d.
Proof.
  unfold install_questions. revert d.
  induction qs as [|[k i] qs IH]; intros d; cbn [fold_left fst snd]; [reflexivity|].
  rewrite IH, DictFacts.mem_set.
  unfold Dict.mem at 3. cbn [Dict.get].
  destruct (String.eqb field k); cbn [orb].
  - now rewrite orb_true_r.
  - reflexivity.
Qed.

Lemma classify_known (answer : string) : Dict.mem (classify answer) prompt_infos = true.
Proof.
  unfold classify.
  destruct (Dict.mem (PyStr.lower (PyStr.strip answer)) prompt_infos) eqn:E; [exact E|reflexivity].
Qed.

Lemma template_keys_unique (category : string) : NoDup (Dict.keys (questions_of category)).
Proof.
  unfold questions_of.
  destruct (Dict.get category prompt_infos) as [info|] eqn:G; [|constructor].
  apply DictFacts.get_in in G. cbn in G.
  repeat (destruct G as [G|G];
          [injection G as _ <-; cbn;
           repeat (constructor; [cbn; intros H; repeat (destruct H as [H|H]; [discriminate|]); exact H|]);
           constructor|]).
  contradiction.
Qed.

(** What [run_matcher] does when the classifier answers. *)
Lemma run_matcher_says (st : MasterState) (w : World) (r : AIReply) (rest : list reply) :
  replies w = Says r :: rest ->
  exists st' w',
    run_matcher st w = (Ok st', w')
    /\ mt_selected_template (ms_matcher st') = Some (classify (r_content r))
    /\ ms_shadow_profile st' = ms_shadow_profile st
    /\ ms_real_profile st' = ms_real_profile st
    /\ shadows w' =
       list_set (ms_shadow_profile st)
         (install_questions (questions_of (classify (r_content r)))
            (read_shadow (ms_shadow_profile st) w))
         (shadows w)
    /\ reals w' = reals w
    /\ exists prompt,
         log w' = log w ++ [Enter "matcher_graph" "matcher"; Invoke model_matcher Match [prompt]]
         /\ content prompt =
            system_prompt_matcher
              (py_str match Dict.get "goal" (read_real (ms_real_profile st) w) with
                      | Some v => v
                      | None => JStr ""
                      end).
Proof.
  intros Hrep.
  unfold run_matcher, graph_invoke, recursion_limit. do 2 eexists.
  split.
  - rewrite pregel_step. unfold matcher_graph, call_matcher. mred.
    rewrite Hrep. mred. reflexivity.
  - mred. repeat (split; [reflexivity|]).
    eexists. split.
    + rewrite <- app_assoc. reflexivity.
    + reflexivity.
Qed.

(** ** C2 *)

(** C2, counterexample.  After the "spend" template is selected for a session
    that tracked the five initial fields, "goal" is still tracked although it
    is not a field of the template, and it is still counted by the router. *)
Lemma C2_counterexample :
  exists st' w',
    run_matcher (new_master_state 0 0) matching_world = (Ok st', w')
    /\ mt_selected_template (ms_matcher st') = Some "spend"
    /\ Dict.mem "goal" (read_shadow (ms_shadow_profile st') w') = true
    /\ Dict.mem "goal" (questions_of "spend") = false
    /\ total_importance (read_shadow (ms_shadow_profile st') w')
       = (total_importance collected_profile + total_importance (questions_of "spend"))%Z.
Proof. do 2 eexists. repeat split. Qed.

(** C2, as amended.  Selecting a template adds the template's fields to the
    tracked set, each with [collected = false] and the template's importance
    (a tracked field of the same name is overwritten); every field tracked
    before that is not a field of the template stays tracked with its entry
    unchanged, so the tracked set afterwards is the union of the old set and
    the template's fields. *)
Theorem C2_template_selection_extends
    (st : MasterState) (w : World) (r : AIReply) (rest : list reply) :
  replies w = Says r :: rest ->
  (ms_shadow_profile st < List.length (shadows w))%nat ->
  let category := classify (r_content r) in
  let template := questions_of category in
  let old := read_shadow (ms_shadow_profile st) w in
  exists st' w',
    run_matcher st w = (Ok st', w')
    /\ mt_selected_template (ms_matcher st') = Some category
    /\ Dict.mem category prompt_infos = true
    /\ ms_shadow_profile st' = ms_shadow_profile st
    /\ read_shadow (ms_shadow_profile st') w' = install_questions template old
    /\ (forall field info,
          Dict.get field template = Some info ->
          Dict.get field (read_shadow (ms_shadow_profile st') w')
          = Some {| collected := false; importance := importance info |})
    /\ (forall field,
          Dict.mem field template = false ->
          Dict.get field (read_shadow (ms_shadow_profile st') w') = Dict.get field old)
    /\ (forall field,
          Dict.mem field (read_shadow (ms_shadow_profile st') w')
          = Dict.mem field template || Dict.mem field old).
Proof.
  intros Hrep Hlt category template old.
  destruct (@run_matcher_says st w r rest Hrep) as (st' & w' & Hrun & Hsel & Hloc & _ & Hsh & _).
  exists st', w'.
  assert (Hnew : read_shadow (ms_shadow_profile st') w' = install_questions template old).
  { unfold read_shadow. rewrite Hloc, Hsh. now apply nth_list_set_eq. }
  split; [exact Hrun|]. split; [exact Hsel|]. split; [apply classify_known|].
  split; [exact Hloc|]. split; [exact Hnew|]. rewrite Hnew.
  split; [|split].
  - intros field info Hget. apply install_questions_field; [apply template_keys_unique|exact Hget].
  - intros field Hmem. now apply install_questions_other.
  - intros field. apply install_questions_mem.
Qed.

Lemma C2_witness :
  replies matching_world = [says "spend"]
  /\ (ms_shadow_profile (new_master_state 0 0) < List.length (shadows matching_world))%nat
  /\ exists st' w',
       run_matcher (new_master_state 0 0) matching_world = (Ok st', w')
       /\ Dict.get "retirement_age" (read_shadow (ms_shadow_profile st') w')
          = Some (entry false 5)
       /\ Dict.get "goal" (read_shadow (ms_shadow_profile st') w')
          = Some (entry true 5).
Proof.
  split; [reflexivity|]. split; [cbn; lia|].
  destruct (@C2_template_selection_extends (new_master_state 0 0) matching_world
              {| r_content := "spend"; r_tool_calls := [] |} [] eq_refl)
    as (st' & w' & Hrun & _ & _ & _ & _ & Hin & Hout & _).
  - cbn. lia.
  - exists st', w'. split; [exact Hrun|]. split.
    + apply (Hin "retirement_age" (entry false 5)). reflexivity.
    + rewrite (Hout "goal"); reflexivity.
Defined.

(** ** Extraction *)

Lemma replace_or_append_not_nil (m : message) (l : list message) :
  replace_or_append m l <> [].
Proof. destruct l; cbn; [|destruct (msg_id_eqb _ _)]; discriminate. Qed.

Lemma add_messages_not_nil (right left : list message) :
  left <> [] -> add_messages left right <> [].
Proof.
  unfold add_messages. revert left.
  induction right as [|m right IH]; intros left Hne; cbn; [exact Hne|].
  apply IH, replace_or_append_not_nil.
Qed.

Lemma extractor_input_not_nil (st : MasterState) (w : World) : extractor_input st w <> [].
Proof.
  unfold extractor_input, into_channel, add_messages. cbn [app fold_left].
  apply (@add_messages_not_nil (last_human_of (present (ms_messages st)))).
  apply replace_or_append_not_nil.
Qed.

Lemma last_skip {A} (x d : A) (l : list A) : l <> [] -> last (x :: l) d = last l d.
Proof. destruct l; [congruence | reflexivity]. Qed.

Lemma extractor_messages_last (a b : message) (st : MasterState) (w : World) :
  content (last ([a] ++ [b] ++ extractor_input st w) system_prompt_extract)
  = latest_text st w.
Proof.
  unfold latest_text. cbn [app].
  rewrite !last_skip; auto using extractor_input_not_nil.
  discriminate.
Qed.

(** When the conversation has a human message, the latest message passed to
    the extractor is the last human message. *)
Lemma latest_text_human (st : MasterState) (w : World) (h : message) :
  last_human_of (present (ms_messages st)) = [h] ->
  latest_text st w = content h.
Proof.
  intros Hh. unfold latest_text, extractor_input. rewrite Hh.
  unfold into_channel, add_messages.
  cbn [app fold_left replace_or_append mid].
  destruct (msg_id_eqb (Fresh (next_id w)) (mid h)); reflexivity.
Qed.

Lemma last1_snoc {A} (l : list A) (x : A) : last1 (l ++ [x]) = [x].
Proof. unfold last1. now rewrite rev_app_distr. Qed.

(** In [chat_step] the last human message is the one just appended. *)
Lemma last_human_appended (history : list (option message)) (m : message) :
  mtype m = human ->
  last_human_of (present (history ++ [Some m])) = [m].
Proof.
  intros Hm. unfold last_human_of, present.
  rewrite flat_map_app, filter_app. cbn [flat_map app filter].
  replace (is_type human m) with true by (unfold is_type; now rewrite Hm).
  rewrite last1_snoc. reflexivity.
Qed.

(** The extractor's reply does not parse: [json.loads] raises, nothing was
    written to the profiles, and no node caught the exception. *)
Lemma run_extractor_unparseable (st : MasterState) (w : World) (r : AIReply) (rest : list reply) :
  replies w = Says r :: rest ->
  json_loads w (r_content r) = None ->
  exists w',
    run_extractor st w = (Raise JSONDecodeError, w')
    /\ shadows w' = shadows w /\ reals w' = reals w /\ state w' = state w
    /\ prev_assistant_message w' = prev_assistant_message w.
Proof.
  intros Hrep Hparse.
  unfold run_extractor. mred. unfold graph_invoke, recursion_limit.
  rewrite pregel_step. unfold extractor_graph, call_extractor. mred.
  rewrite Hrep. mred. rewrite Hparse. mred.
  eexists. split; [reflexivity|]. repeat split.
Qed.

(** The extraction request itself fails. *)
Lemma run_extractor_fails (st : MasterState) (w : World) (reason : string) (rest : list reply) :
  replies w = Fails reason :: rest ->
  exists w',
    run_extractor st w = (Raise (ModelError reason), w')
    /\ shadows w' = shadows w /\ reals w' = reals w /\ state w' = state w
    /\ prev_assistant_message w' = prev_assistant_message w.
Proof.
  intros Hrep.
  unfold run_extractor. mred. unfold graph_invoke, recursion_limit.
  rewrite pregel_step. unfold extractor_graph, call_extractor. mred.
  rewrite Hrep. mred.
  eexists. split; [reflexivity|]. repeat split.
Qed.

(** The reply is an object with a "goal" key and the title request is answered. *)
Lemma run_extractor_goal
    (st : MasterState) (w : World) (r t : AIReply) (rest : list reply)
    (members : list (string * json)) :
  replies w = Says r :: Says t :: rest ->
  json_loads w (r_content r) = Some (JObj members) ->
  Dict.mem "goal" (Dict.of_pairs members) = true ->
  real_profile_is_allocated st w ->
  exists st' w',
    run_extractor st w = (Ok st', w')
    /\ ms_conversation_title st' = Some (PyStr.strip (r_content t))
    /\ Dict.get "goal" (read_real (ms_real_profile st') w') = Some (JStr (latest_text st w))
    /\ (exists extract_prompt system_part user_part,
          log w' = log w ++ [Enter "extractor_graph" "extractor";
                             Invoke model_extractor Extract extract_prompt;
                             Invoke model_extractor Title [system_part; user_part]]
          /\ content user_part = title_user_text (latest_text st w))
    /\ replies w' = rest.
Proof.
  intros Hrep Hparse Hgoal Hreal.
  assert (Htruthy : truthy (JObj members) = true).
  { destruct members; [discriminate Hgoal | reflexivity]. }
  unfold run_extractor. mred. unfold graph_invoke, recursion_limit.
  rewrite pregel_step. unfold extractor_graph, call_extractor. mred.
  rewrite Hrep. mred. rewrite Hparse. mred.
  rewrite Htruthy. cbn [negb].
  fold (last_chatbot_content st). fold (extractor_input st w).
  unfold real_profile_is_allocated in Hreal.
  destruct (ex_real_profile (ms_extractor st)) as [l|] eqn:El; mred;
    rewrite Hgoal; mred; rewrite !extractor_messages_last;
    do 2 eexists; (split; [reflexivity|]); mred;
    (split; [reflexivity|]); (split; [|split]).
  - rewrite nth_list_set_eq; [apply DictFacts.get_set_eq|].
    now rewrite length_list_set.
  - do 3 eexists. split; [now rewrite <- !app_assoc | reflexivity].
  - reflexivity.
  - rewrite nth_list_set_eq; [apply DictFacts.get_set_eq|].
    rewrite length_list_set, length_app. cbn. lia.
  - do 3 eexists. split; [now rewrite <- !app_assoc | reflexivity].
  - reflexivity.
Qed.

(** The reply is an object without a "goal" key. *)
Lemma run_extractor_no_goal
    (st : MasterState) (w : World) (r : AIReply) (rest : list reply)
    (members : list (string * json)) :
  replies w = Says r :: rest ->
  json_loads w (r_content r) = Some (JObj members) ->
  Dict.mem "goal" (Dict.of_pairs members) = false ->
  exists st' w',
    run_extractor st w = (Ok st', w')
    /\ ms_conversation_title st' = ex_conversation_title (ms_extractor st)
    /\ (exists extract_prompt,
          log w' = log w ++ [Enter "extractor_graph" "extractor";
                             Invoke model_extractor Extract extract_prompt])
    /\ replies w' = rest.
Proof.
  intros Hrep Hparse Hgoal.
  unfold run_extractor. mred. unfold graph_invoke, recursion_limit.
  rewrite pregel_step. unfold extractor_graph, call_extractor. mred.
  rewrite Hrep. mred. rewrite Hparse. mred.
  destruct (truthy (JObj members)); cbn [negb];
    destruct (ex_real_profile (ms_extractor st)) as [l|] eqn:El; mred;
    rewrite ?Hgoal; mred; rewrite ?El;
    do 2 eexists; (split; [reflexivity|]); mred;
    (split; [reflexivity|]); (split; [|reflexivity]);
    eexists; now rewrite <- !app_assoc.
Qed.

(** ** What a computation leaves in the log

    The nodes of the master graph and of the planner graph that a run enters
    are read off the log.  [runs R c L Lok] says that [c] only appends to the
    log, relates the world before to the world after by [R], enters a
    sequence of nodes that is in [L], and one that is in [Lok] when it
    returns normally. *)

#[export] Instance same_globals_keeps : Keeps same_globals.
Proof.
  split; unfold same_globals.
  - auto.
  - intros a b c [H1 H2] [H3 H4]. split; congruence.
Qed.

#[export] Instance any_world_keeps : Keeps any_world.
Proof. split; unfold any_world; auto. Qed.

Section Runs.
Context (R : World -> World -> Prop) {keeps : Keeps R}.

Lemma frame_refl (w : World) : frame R w w [].
Proof. unfold frame. rewrite app_nil_r. split; [reflexivity | apply keeps_refl]. Qed.

Lemma frame_trans (w1 w2 w3 : World) (a b : list event) :
  frame R w1 w2 a -> frame R w2 w3 b -> frame R w1 w3 (a ++ b).
Proof.
  unfold frame. intros (H1 & H2) (H3 & H4). split.
  - now rewrite H3, H1, app_assoc.
  - eapply keeps_trans; eauto.
Qed.

(** [c] followed by [k], where [k] only has to be known on the values that
    [c] can return *)
Lemma runs_bind_ok {A B} (c : M A) (k : A -> M B) (P : A -> Prop)
    (L1 Lok1 L2 Lok2 : list (list label)) :
  runs R c L1 Lok1 ->
  (forall w a w', c w = (Ok a, w') -> P a) ->
  (forall a, P a -> runs R (k a) L2 Lok2) ->
  runs R (bind c k) (L1 ++ seq Lok1 L2) (seq Lok1 Lok2).
Proof.
  assert (Hseq : forall a b first then_,
             In a first -> In b then_ -> In (a ++ b) (seq first then_)).
  { intros a b first then_ Ha Hb. unfold seq. apply in_flat_map.
    exists a. split; [exact Ha | now apply in_map]. }
  intros Hc HP Hk w. destruct (Hc w) as (evs1 & Hf1 & Hin1 & Hok1 & Hlim1).
  cbn [bind]. destruct (c w) as [[a|e] w1] eqn:E; cbn [fst snd] in *.
  - destruct (Hk a (HP _ _ _ E) w1) as (evs2 & Hf2 & Hin2 & Hok2 & Hlim2).
    exists (evs1 ++ evs2). split; [eapply frame_trans; eauto|].
    unfold entered in *. rewrite flat_map_app. split; [|split].
    + apply in_or_app. right. apply Hseq; eauto.
    + intros b Hb. apply Hseq; eauto.
    + exact Hlim2.
  - exists evs1. split; [exact Hf1|]. split; [|split].
    + apply in_or_app. now left.
    + discriminate.
    + intros [= ->]. now apply Hlim1.
Qed.

Lemma runs_bind {A B} (c : M A) (k : A -> M B) (L1 Lok1 L2 Lok2 : list (list label)) :
  runs R c L1 Lok1 ->
  (forall a, runs R (k a) L2 Lok2) ->
  runs R (bind c k) (L1 ++ seq Lok1 L2) (seq Lok1 Lok2).
Proof.
  intros Hc Hk. apply (@runs_bind_ok _ _ c k (fun _ => True)); auto.
Qed.

Lemma runs_weaken {A} (c : M A) (L Lok L' Lok' : list (list label)) :
  runs R c L Lok -> incl L L' -> incl Lok Lok' -> runs R c L' Lok'.
Proof.
  intros Hc HL HLok w. destruct (Hc w) as (evs & Hf & Hin & Hok & Hlim).
  exists evs. split; [exact Hf|]. split; [now apply HL|]. split; [|exact Hlim].
  intros a Ha. apply HLok. eauto.
Qed.

Lemma runs_pure {A} (c : M A) :
  (forall w, log (snd (c w)) = log w /\ R w (snd (c w))
             /\ fst (c w) <> Raise GraphRecursionError) ->
  runs R c [[]] [[]].
Proof.
  intros H w. destruct (H w) as (Hlog & HR & Hlim). exists []. split.
  - unfold frame. rewrite app_nil_r. now split.
  - split; [now left|]. split; [intros; now left | exact Hlim].
Qed.

End Runs.

Lemma runs_relax {A} (c : M A) (L Lok : list (list label)) :
  runs same_globals c L Lok -> runs any_world c L Lok.
Proof.
  intros H w. destruct (H w) as (evs & [Hlog _] & Hin & Hok & Hlim).
  exists evs. repeat split; auto.
Qed.

Lemma quiet_bind {A B} (c : M A) (k : A -> M B) :
  quiet c -> (forall a, quiet (k a)) -> quiet (bind c k).
Proof.
  intros Hc Hk.
  eapply runs_weaken; [eapply runs_bind; eauto; typeclasses eauto | |];
    unfold incl; cbn; tauto.
Qed.

Lemma quiet_pure {A} (c : M A) :
  (forall w, log (snd (c w)) = log w /\ same_globals w (snd (c w))
             /\ fst (c w) <> Raise GraphRecursionError) ->
  quiet c.
Proof. apply runs_pure. Qed.

Lemma quiet_ret {A} (a : A) : quiet (ret a).
Proof. apply quiet_pure. intros w. repeat split; discriminate. Qed.

Lemma quiet_raise {A} (e : exn) : e <> GraphRecursionError -> quiet (@raise A e).
Proof. intros He. apply quiet_pure. intros w. repeat split. cbn. congruence. Qed.

Lemma quiet_gets {A} (f : World -> A) : quiet (gets f).
Proof. apply quiet_pure. intros w. repeat split; discriminate. Qed.

Lemma quiet_modify_shadow (l : loc) (f : ShadowProfile -> ShadowProfile) :
  quiet (modify_shadow l f).
Proof. apply quiet_pure. intros w. repeat split; discriminate. Qed.

Lemma quiet_modify_real (l : loc) (f : RealProfile -> RealProfile) :
  quiet (modify_real l f).
Proof. apply quiet_pure. intros w. repeat split; discriminate. Qed.

Lemma quiet_alloc_shadow (d : ShadowProfile) : quiet (alloc_shadow d).
Proof. apply quiet_pure. intros w. repeat split; discriminate. Qed.

Lemma quiet_alloc_real (d : RealProfile) : quiet (alloc_real d).
Proof. apply quiet_pure. intros w. repeat split; discriminate. Qed.

Lemma quiet_replies (rest : list reply) : quiet (modify (with_replies rest)).
Proof. apply quiet_pure. intros w. repeat split; discriminate. Qed.

Lemma quiet_fresh_id : quiet fresh_id.
Proof. apply quiet_pure. intros w. repeat split; discriminate. Qed.

Lemma runs_record (e : event) : runs same_globals (record e) [tracked e] [tracked e].
Proof.
  assert (He : entered [e] = tracked e) by (unfold entered; cbn; apply app_nil_r).
  intros w. exists [e]. rewrite He. repeat split; auto; try (now left). discriminate.
Qed.

Lemma quiet_record (e : event) : tracked e = [] -> quiet (record e).
Proof. intros He. unfold quiet. rewrite <- He. apply runs_record. Qed.

Create HintDb quiet discriminated.

#[local] Hint Resolve quiet_ret quiet_gets quiet_modify_shadow quiet_modify_real
  quiet_alloc_shadow quiet_alloc_real quiet_replies quiet_fresh_id : quiet.
#[local] Hint Extern 2 (quiet (bind _ _)) => apply quiet_bind; [|intros] : quiet.
#[local] Hint Extern 1 (quiet (record _)) => apply quiet_record; reflexivity : quiet.
#[local] Hint Extern 1 (quiet (raise _)) => apply quiet_raise; discriminate : quiet.
#[local] Hint Extern 3 (quiet (match ?x with _ => _ end)) => destruct x : quiet.
#[local] Hint Extern 4 (quiet _) => progress cbv beta : quiet.

Ltac quietly := auto 60 with quiet nocore.

Lemma quiet_shadow_or_new (o : option loc) : quiet (shadow_or_new o).
Proof. unfold shadow_or_new. quietly. Qed.

Lemma quiet_real_or_new (o : option loc) : quiet (real_or_new o).
Proof. unfold real_or_new. quietly. Qed.

Lemma quiet_get_shadow (l : loc) : quiet (get_shadow l).
Proof. unfold get_shadow. quietly. Qed.

Lemma quiet_get_real (l : loc) : quiet (get_real l).
Proof. unfold get_real. quietly. Qed.

Lemma quiet_new_message (t : role) (text : string) : quiet (new_message t text).
Proof. unfold new_message. quietly. Qed.

Lemma quiet_invoke (m : Model) (s : site) (prompt : list message) :
  quiet (invoke m s prompt).
Proof. unfold invoke. quietly. Qed.

Lemma quiet_loads (text : string) : quiet (loads text).
Proof. unfold loads. quietly. Qed.

#[local] Hint Resolve quiet_shadow_or_new quiet_real_or_new quiet_get_shadow quiet_get_real
  quiet_new_message quiet_invoke quiet_loads : quiet.

Lemma quiet_call_chatbot (st : ChatbotState) : quiet (call_chatbot st).
Proof. unfold call_chatbot. quietly. Qed.

Lemma quiet_call_extractor (st : ExtractorState) : quiet (call_extractor st).
Proof. unfold call_extractor. quietly. Qed.

Lemma quiet_call_matcher (st : MatcherState) : quiet (call_matcher st).
Proof. unfold call_matcher. quietly. Qed.

Lemma quiet_call_summarizer (st : SummarizerState) : quiet (call_summarizer st).
Proof. unfold call_summarizer. quietly. Qed.

Lemma quiet_retrieve (query : string) : quiet (retrieve query).
Proof. unfold retrieve. quietly. Qed.

#[local] Hint Resolve quiet_retrieve : quiet.

Lemma quiet_run_tool_calls (queries : list string) : quiet (run_tool_calls queries).
Proof. induction queries as [|q rest IH]; cbn [run_tool_calls]; quietly. Qed.

#[local] Hint Resolve quiet_run_tool_calls : quiet.

Lemma quiet_tools_node (st : PlannerState) : quiet (tools_node st).
Proof. unfold tools_node. quietly. Qed.

Lemma quiet_query_or_respond (st : PlannerState) : quiet (query_or_respond st).
Proof. unfold query_or_respond. quietly. Qed.

Lemma quiet_call_planner (st : PlannerState) : quiet (call_planner st).
Proof. unfold call_planner. quietly. Qed.

Lemma quiet_call_formatter (raw : string) : quiet (call_formatter raw).
Proof. unfold call_formatter. quietly. Qed.

Lemma quiet_route_decision_extractor (st : MasterState) : quiet (route_decision_extractor st).
Proof.
  unfold route_decision_extractor, true_div. quietly.
Qed.

Lemma bind_ret_l {A B} (a : A) (k : A -> M B) : bind (ret a) k = k a.
Proof. reflexivity. Qed.

(** A graph of one node without outgoing edge, outside the two tracked graphs. *)
Lemma quiet_single_node {S} (g : Graph S unit) (s : S) :
  tracked (Enter (graph_name g) (node_name g tt)) = [] ->
  (forall s', quiet (body g tt s')) ->
  (forall s', edge g tt s' = ret None) ->
  quiet (graph_invoke g s).
Proof.
  intros Hname Hbody Hedge. unfold graph_invoke, recursion_limit.
  destruct (entry_point g). rewrite pregel_step.
  apply quiet_bind; [now apply quiet_record|]. intros _.
  apply quiet_bind; [apply Hbody|]. intros s'.
  rewrite Hedge, bind_ret_l. apply quiet_ret.
Qed.

Lemma quiet_chatbot_graph (s : ChatbotState) : quiet (graph_invoke chatbot_graph s).
Proof.
  apply quiet_single_node; [reflexivity | | reflexivity].
  intros s'. cbn [body chatbot_graph]. pose proof quiet_call_chatbot. quietly.
Qed.

Lemma quiet_extractor_graph (s : ExtractorState) : quiet (graph_invoke extractor_graph s).
Proof.
  apply quiet_single_node; [reflexivity | | reflexivity].
  intros s'. cbn [body extractor_graph]. pose proof quiet_call_extractor. quietly.
Qed.

Lemma quiet_matcher_graph (s : MatcherState) : quiet (graph_invoke matcher_graph s).
Proof.
  apply quiet_single_node; [reflexivity | | reflexivity].
  intros s'. cbn [body matcher_graph]. pose proof quiet_call_matcher. quietly.
Qed.

Lemma quiet_summarizer_graph (s : SummarizerState) : quiet (graph_invoke summarizer_graph s).
Proof.
  apply quiet_single_node; [reflexivity | | reflexivity].
  intros s'. cbn [body summarizer_graph]. pose proof quiet_call_summarizer. quietly.
Qed.

#[local] Hint Resolve quiet_chatbot_graph quiet_extractor_graph quiet_matcher_graph
  quiet_summarizer_graph quiet_route_decision_extractor quiet_call_formatter
  quiet_tools_node quiet_query_or_respond quiet_call_planner : quiet.

Lemma quiet_run_chatbot (s : MasterState) : quiet (run_chatbot s).
Proof. unfold run_chatbot. quietly. Qed.

Lemma quiet_run_extractor (s : MasterState) : quiet (run_extractor s).
Proof. unfold run_extractor. quietly. Qed.

Lemma quiet_run_matcher (s : MasterState) : quiet (run_matcher s).
Proof. unfold run_matcher. quietly. Qed.

Lemma quiet_run_summarizer (s : MasterState) : quiet (run_summarizer s).
Proof. unfold run_summarizer. quietly. Qed.

(** *** The traces of the planner graph and of the master graph *)

(** One step of the graph loop: the node is entered, its body runs, and the
    edge selects what follows. *)
Lemma runs_pregel_step {S N} (g : Graph S N) (f : nat) (n : N) (s : S)
    (Lb Lbok Ln Lnok : list (list label)) :
  runs same_globals (body g n s) Lb Lbok ->
  (forall s', runs same_globals
                (next <- edge g n s' ;;
                 match next with
                 | None => ret s'
                 | Some n' => pregel g f n' s'
                 end) Ln Lnok) ->
  runs same_globals (pregel g (Datatypes.S f) n s)
    ([tracked (Enter (graph_name g) (node_name g n))]
     ++ seq [tracked (Enter (graph_name g) (node_name g n))] (Lb ++ seq Lbok Ln))
    (seq [tracked (Enter (graph_name g) (node_name g n))] (seq Lbok Lnok)).
Proof.
  intros Hbody Hnext. rewrite pregel_step.
  eapply runs_bind; [typeclasses eauto | apply runs_record | intros _].
  eapply runs_bind; [typeclasses eauto | exact Hbody | exact Hnext].
Qed.

Ltac trace_incl :=
  unfold incl, planner_traces, planner_runs, complete_turns, turn_traces, Pn, Wn;
  cbn; tauto.

Lemma runs_call_planner_node (f : nat) (s : PlannerState) :
  runs same_globals (pregel planner_graph (Datatypes.S f) CallPlanner s)
    [[Pn "call_planner"]] [[Pn "call_planner"]].
Proof.
  eapply runs_weaken.
  - eapply runs_pregel_step.
    + cbn [body planner_graph].
      refine (_ : quiet _). quietly.
    + intros s'. cbn [edge planner_graph]. rewrite bind_ret_l. apply quiet_ret.
  - trace_incl.
  - trace_incl.
Qed.

Lemma runs_tools_node (f : nat) (s : PlannerState) :
  runs same_globals (pregel planner_graph (Datatypes.S (Datatypes.S f)) Tools s)
    [[Pn "tools"]; [Pn "tools"; Pn "call_planner"]] [[Pn "tools"; Pn "call_planner"]].
Proof.
  eapply runs_weaken.
  - eapply runs_pregel_step.
    + cbn [body planner_graph].
      refine (_ : quiet _). quietly.
    + intros s'. cbn [edge planner_graph]. rewrite bind_ret_l.
      apply runs_call_planner_node.
  - trace_incl.
  - trace_incl.
Qed.

Lemma runs_query_node (f : nat) (s : PlannerState) :
  runs same_globals
    (pregel planner_graph (Datatypes.S (Datatypes.S (Datatypes.S f))) QueryOrRespond s)
    planner_traces planner_runs.
Proof.
  eapply runs_weaken.
  - eapply (@runs_pregel_step _ _ planner_graph _ QueryOrRespond s
              [[]] [[]]
              [[]; [Pn "tools"]; [Pn "tools"; Pn "call_planner"]]
              [[]; [Pn "tools"; Pn "call_planner"]]).
    + cbn [body planner_graph].
      refine (_ : quiet _). quietly.
    + intros s'. cbn [edge planner_graph]. rewrite bind_ret_l.
      destruct (tools_condition s').
      * eapply runs_weaken; [apply runs_tools_node | trace_incl | trace_incl].
      * eapply runs_weaken; [apply quiet_ret | trace_incl | trace_incl].
  - trace_incl.
  - trace_incl.
Qed.

Lemma runs_run_planner (s : MasterState) :
  runs same_globals (run_planner s) planner_traces planner_runs.
Proof.
  unfold run_planner. eapply runs_weaken.
  - eapply runs_bind; [typeclasses eauto | apply runs_query_node | intros; apply quiet_ret].
  - trace_incl.
  - trace_incl.
Qed.

Lemma runs_summarizer_node (f : nat) (s : MasterState) :
  runs same_globals (pregel workflow (Datatypes.S f) Summarizer s)
    [[Wn "summarizer"]] [[Wn "summarizer"]].
Proof.
  eapply runs_weaken.
  - eapply runs_pregel_step.
    + apply quiet_run_summarizer.
    + intros s'. cbn [edge workflow]. rewrite bind_ret_l. apply quiet_ret.
  - trace_incl.
  - trace_incl.
Qed.

Lemma runs_chatbot_node (f : nat) (s : MasterState) :
  runs same_globals (pregel workflow (Datatypes.S (Datatypes.S f)) Chatbot s)
    [[Wn "chatbot"]; [Wn "chatbot"; Wn "summarizer"]]
    [[Wn "chatbot"]; [Wn "chatbot"; Wn "summarizer"]].
Proof.
  eapply runs_weaken.
  - eapply (@runs_pregel_step _ _ workflow _ Chatbot s
              [[]] [[]] [[]; [Wn "summarizer"]] [[]; [Wn "summarizer"]]).
    + apply quiet_run_chatbot.
    + intros s'. cbn [edge workflow]. unfold route_decision_summarize.
      destruct (_ <=? _)%nat; cbn [Dict.get chatbot_paths String.eqb Ascii.eqb Bool.eqb];
        rewrite bind_ret_l.
      * eapply runs_weaken; [apply runs_summarizer_node | trace_incl | trace_incl].
      * eapply runs_weaken; [apply quiet_ret | trace_incl | trace_incl].
  - trace_incl.
  - trace_incl.
Qed.

Lemma runs_matcher_node (f : nat) (s : MasterState) :
  runs same_globals
    (pregel workflow (Datatypes.S (Datatypes.S (Datatypes.S f))) Matcher s)
    [[Wn "matcher"]; [Wn "matcher"; Wn "chatbot"];
     [Wn "matcher"; Wn "chatbot"; Wn "summarizer"]]
    [[Wn "matcher"; Wn "chatbot"]; [Wn "matcher"; Wn "chatbot"; Wn "summarizer"]].
Proof.
  eapply runs_weaken.
  - eapply runs_pregel_step.
    + apply quiet_run_matcher.
    + intros s'. cbn [edge workflow]. rewrite bind_ret_l. apply runs_chatbot_node.
  - trace_incl.
  - trace_incl.
Qed.

Lemma runs_planner_node (f : nat) (s : MasterState) :
  runs same_globals (pregel workflow (Datatypes.S f) Planner s)
    [[Wn "planner"];
     [Wn "planner"; Pn "query_or_respond"];
     [Wn "planner"; Pn "query_or_respond"; Pn "tools"];
     [Wn "planner"; Pn "query_or_respond"; Pn "tools"; Pn "call_planner"]]
    [[Wn "planner"; Pn "query_or_respond"];
     [Wn "planner"; Pn "query_or_respond"; Pn "tools"; Pn "call_planner"]].
Proof.
  eapply runs_weaken.
  - eapply runs_pregel_step.
    + apply runs_run_planner.
    + intros s'. cbn [edge workflow]. rewrite bind_ret_l. apply quiet_ret.
  - trace_incl.
  - trace_incl.
Qed.

(** The edge that leaves the extractor selects the matcher, the planner or the
    chatbot, or raises. *)
Lemma extractor_edge_targets (s : MasterState) (w : World) (n : option master_node) (w' : World) :
  edge workflow Extractor s w = (Ok n, w') ->
  n = Some Matcher \/ n = Some Planner \/ n = Some Chatbot.
Proof.
  cbn [edge workflow bind]. destruct (route_decision_extractor s w) as [[route|e] w1]; [|discriminate].
  destruct (Dict.get route extractor_paths) as [n'|] eqn:G; cbn [ret raise]; [|discriminate].
  intros [= <- _]. apply DictFacts.get_in in G. cbn in G.
  destruct G as [G|[G|[G|[]]]]; injection G as _ <-; auto.
Qed.

Lemma quiet_extractor_edge (s : MasterState) : quiet (edge workflow Extractor s).
Proof. cbn [edge workflow]. quietly. Qed.

Lemma runs_extractor_node (f : nat) (s : MasterState) :
  runs same_globals
    (pregel workflow (Datatypes.S (Datatypes.S (Datatypes.S (Datatypes.S f)))) Extractor s)
    turn_traces complete_turns.
Proof.
  eapply runs_weaken.
  - eapply (@runs_pregel_step _ _ workflow _ Extractor s
              [[]] [[]] ([[]] ++ seq [[]] after_extractor) (seq [[]] after_extractor_ok)).
    + apply quiet_run_extractor.
    + intros s'.
      eapply (@runs_bind_ok same_globals _ _ _ (edge workflow Extractor s') _
                (fun n => n = Some Matcher \/ n = Some Planner \/ n = Some Chatbot)).
      * apply quiet_extractor_edge.
      * intros w n w'. apply extractor_edge_targets.
      * intros n [ -> | [ -> | -> ] ].
        -- eapply runs_weaken; [apply runs_matcher_node | |];
             unfold after_extractor, after_extractor_ok; trace_incl.
        -- eapply runs_weaken; [apply runs_planner_node | |];
             unfold after_extractor, after_extractor_ok; trace_incl.
        -- eapply runs_weaken; [apply runs_chatbot_node | |];
             unfold after_extractor, after_extractor_ok; trace_incl.
  - unfold after_extractor, after_extractor_ok. trace_incl.
  - unfold after_extractor, after_extractor_ok. trace_incl.
Qed.

Lemma quiet_coerce (l : list (option message)) : quiet (coerce l).
Proof. unfold coerce. quietly. Qed.

(** One run of the master graph. *)
Lemma runs_graph (input : MasterState) :
  runs same_globals (graph input) turn_traces complete_turns.
Proof.
  unfold graph, graph_invoke, recursion_limit. eapply runs_weaken.
  - eapply runs_bind; [typeclasses eauto | apply quiet_coerce |].
    intros msgs. apply runs_extractor_node.
  - trace_incl.
  - trace_incl.
Qed.

(** *** A whole turn *)

Lemma calm_of_quiet {A} (c : M A) : quiet c -> calm c.
Proof. apply runs_relax. Qed.

Lemma calm_bind {A B} (c : M A) (k : A -> M B) :
  calm c -> (forall a, calm (k a)) -> calm (bind c k).
Proof.
  intros Hc Hk.
  eapply runs_weaken; [eapply runs_bind; eauto; typeclasses eauto | |];
    unfold incl; cbn; tauto.
Qed.

Lemma calm_assign (f : World -> World) :
  (forall w, log (f w) = log w) -> calm (modify f).
Proof.
  intros Hf. apply runs_pure. intros w. cbn. repeat split; auto. discriminate.
Qed.

Lemma runs_never_ok {A} (R : World -> World -> Prop) (c : M A) (L Lok Lok' : list (list label)) :
  runs R c L Lok -> (forall w a, fst (c w) <> Ok a) -> runs R c L Lok'.
Proof.
  intros Hc Hno w. destruct (Hc w) as (evs & Hf & Hin & _ & Hlim).
  exists evs. split; [exact Hf|]. split; [exact Hin|]. split; [|exact Hlim].
  intros a Ha. now apply Hno in Ha.
Qed.

Create HintDb calm discriminated.

#[local] Hint Extern 2 (calm (bind _ _)) => apply calm_bind; [|intros] : calm.
#[local] Hint Extern 1 (calm (modify _)) => apply calm_assign; reflexivity : calm.
#[local] Hint Extern 3 (calm (match ?x with _ => _ end)) => destruct x : calm.
#[local] Hint Extern 4 (calm _) => progress cbv beta : calm.
#[local] Hint Extern 5 (calm _) => apply calm_of_quiet; quietly : calm.

Ltac calmly := auto 60 with calm nocore.

Lemma runs_chat_step (user_message session_id : string) :
  runs any_world (chat_step user_message session_id) turn_traces complete_turns.
Proof.
  unfold chat_step. eapply runs_weaken.
  - eapply runs_bind; [typeclasses eauto | refine (_ : calm _); calmly |].
    intros human_message.
    eapply runs_bind; [typeclasses eauto | refine (_ : calm _); calmly |].
    intros [before|].
    + eapply runs_bind; [typeclasses eauto | refine (_ : calm _); calmly |].
      intros _.
      eapply runs_bind; [typeclasses eauto | apply runs_relax, runs_graph |].
      intros after_. refine (_ : calm _). calmly.
    + eapply runs_weaken.
      * eapply runs_never_ok; [refine (_ : calm _); calmly | discriminate].
      * trace_incl.
      * apply incl_refl.
  - trace_incl.
  - trace_incl.
Qed.

Lemma turn_traces_bounded (t : list label) :
  In t turn_traces ->
  NoDup t
  /\ (List.length (master_nodes t) <= 4)%nat
  /\ (List.length (planner_nodes t) <= 3)%nat
  /\ exists run rest, In run complete_turns /\ run = t ++ rest.
Proof.
  unfold turn_traces, complete_turns. cbn [In].
  intros H.
  repeat (destruct H as [<-|H];
          [split; [repeat constructor; cbn; intuition discriminate|];
           split; [cbn; lia|]; split; [cbn; lia|];
           first
             [ do 2 eexists; split; [left; reflexivity | reflexivity]
             | do 2 eexists; split; [right; left; reflexivity | reflexivity]
             | do 2 eexists; split; [right; right; left; reflexivity | reflexivity]
             | do 2 eexists; split; [right; right; right; left; reflexivity | reflexivity]
             | do 2 eexists; split; [right; right; right; right; left; reflexivity | reflexivity]
             | do 2 eexists; split;
               [right; right; right; right; right; left; reflexivity | reflexivity] ]|]).
  contradiction.
Qed.

(** ** C9 *)

(** C9. One turn ([chat_step]) enters the nodes of the master graph along one
    of: extractor, then optionally matcher, then chatbot, then optionally
    summarizer; or extractor, then planner.  It enters at most four of them
    and none twice, and it never exhausts the recursion limit.  Inside a
    planner run the nodes are query_or_respond, then optionally tools followed
    by call_planner: at most one retrieval round, and nothing leads back to
    querying.  A turn that raises stops somewhere along one of these paths. *)
Theorem C9_turn_is_bounded (user_message session_id : string) (w : World) :
  exists evs,
    log (after (chat_step user_message session_id) w) = log w ++ evs
    /\ (exists run rest, In run complete_turns /\ run = entered evs ++ rest)
    /\ (forall answer,
          fst (chat_step user_message session_id w) = Ok answer ->
          In (entered evs) complete_turns)
    /\ fst (chat_step user_message session_id w) <> Raise GraphRecursionError
    /\ NoDup (entered evs)
    /\ (List.length (master_nodes (entered evs)) <= 4)%nat
    /\ (List.length (planner_nodes (entered evs)) <= 3)%nat.
Proof.
  destruct (@runs_chat_step user_message session_id w) as (evs & [Hlog _] & Hin & Hok & Hlim).
  destruct (@turn_traces_bounded _ Hin) as (Hnd & Hm & Hp & Hrun).
  exists evs. unfold after. repeat split; auto.
Qed.

(** ** A turn that fails *)

Lemma chat_step_graph_raises
    (user_message session_id : string) (w : World) (before : MasterState)
    (e : exn) (w' : World) :
  state w = Some before ->
  user_message <> "" ->
  graph (with_user_message (user_turn user_message w) before)
        (turn_started user_message before w) = (Raise e, w') ->
  chat_step user_message session_id w = (Raise e, w')
  /\ state w' = Some (with_user_message (user_turn user_message w) before)
  /\ prev_assistant_message w' = prev_assistant_message w.
Proof.
  intros Hstate Hmsg Hgraph. split.
  - unfold chat_step. apply String.eqb_neq in Hmsg. rewrite Hmsg. mred.
    rewrite Hstate. mred.
    change (graph _ _) with
      (graph (with_user_message (user_turn user_message w) before)
             (turn_started user_message before w)).
    now rewrite Hgraph.
  - destruct (@runs_graph (with_user_message (user_turn user_message w) before)
                (turn_started user_message before w))
      as (evs & [_ [Hs Hp]] & _).
    rewrite Hgraph in Hs, Hp. cbn [snd] in Hs, Hp. split; [exact Hs | exact Hp].
Qed.

Lemma graph_extractor_raises (st : MasterState) (w : World) (e : exn) (w' : World) :
  all_messages (ms_messages st) = true ->
  run_extractor (graph_input st) (with_log (log w ++ [Enter "workflow" "extractor"]) w)
  = (Raise e, w') ->
  graph st w = (Raise e, w').
Proof.
  intros Hall Hrun. unfold graph, coerce. fold (all_messages (ms_messages st)).
  rewrite Hall. mred. unfold graph_invoke, recursion_limit. rewrite pregel_step.
  mred. cbn [workflow body entry_point graph_name node_name].
  unfold graph_input in Hrun. mred_in Hrun.
  now rewrite Hrun.
Qed.

Lemma all_messages_appended (l : list (option message)) (m : message) :
  all_messages l = true -> all_messages (l ++ [Some m]) = true.
Proof. intros H. unfold all_messages in *. rewrite forallb_app, H. reflexivity. Qed.

(** What the failure of the extractor node makes of the turn. *)
Lemma chat_step_extractor_raises
    (user_message session_id : string) (w : World) (before : MasterState)
    (e : exn) (w' : World) :
  state w = Some before ->
  user_message <> "" ->
  all_messages (ms_messages before) = true ->
  run_extractor
    (graph_input (with_user_message (user_turn user_message w) before))
    (with_log (log w ++ [Enter "workflow" "extractor"])
       (turn_started user_message before w))
  = (Raise e, w') ->
  chat_step user_message session_id w = (Raise e, w')
  /\ state w' = Some (with_user_message (user_turn user_message w) before)
  /\ prev_assistant_message w' = prev_assistant_message w.
Proof.
  intros Hstate Hmsg Hall Hrun.
  apply chat_step_graph_raises; auto.
  apply graph_extractor_raises.
  - unfold with_user_message. cbn [ms_messages set_ms_messages].
    now apply all_messages_appended.
  - exact Hrun.
Qed.

(** ** C3 *)

(** C3 (what the code does).  When the extractor's reply is not parseable as
    JSON, [json.loads] raises JSONDecodeError inside the extraction node,
    nothing catches it, and [chat_step] raises it to its caller; the profile
    dictionaries are as they were. *)
Theorem C3_unparseable_reply_is_raised
    (user_message session_id : string) (w : World) (before : MasterState)
    (r : AIReply) (rest : list reply) :
  state w = Some before ->
  user_message <> "" ->
  all_messages (ms_messages before) = true ->
  replies w = Says r :: rest ->
  json_loads w (r_content r) = None ->
  exists w',
    chat_step user_message session_id w = (Raise JSONDecodeError, w')
    /\ shadows w' = shadows w
    /\ reals w' = reals w.
Proof.
  intros Hstate Hmsg Hall Hrep Hparse.
  destruct (@run_extractor_unparseable
              (graph_input (with_user_message (user_turn user_message w) before))
              (with_log (log w ++ [Enter "workflow" "extractor"])
                 (turn_started user_message before w))
              r rest Hrep Hparse)
    as (w' & Hrun & Hsh & Hre & _).
  exists w'. split; [|split].
  - now apply (@chat_step_extractor_raises user_message session_id w before).
  - exact Hsh.
  - exact Hre.
Qed.

Lemma C3_witness :
  state prose_world = Some (new_master_state 0 0)
  /\ replies prose_world = [says "Sure! The user wants to retire early."]
  /\ json_loads prose_world "Sure! The user wants to retire early." = None
  /\ exists w',
       chat_step "I want to retire early" "A" prose_world = (Raise JSONDecodeError, w')
       /\ shadows w' = shadows prose_world
       /\ reals w' = reals prose_world.
Proof.
  split; [reflexivity|]. split; [reflexivity|]. split; [reflexivity|].
  apply (@C3_unparseable_reply_is_raised
           "I want to retire early" "A" prose_world (new_master_state 0 0)
           {| r_content := "Sure! The user wants to retire early."; r_tool_calls := [] |} []);
    try reflexivity.
  discriminate.
Defined.

(** ** C4 *)




(** ** C7 *)

Lemma title_requests_app (a b : list event) :
  title_requests (a ++ b) = (title_requests a + title_requests b)%nat.
Proof. unfold title_requests. now rewrite filter_app, length_app. Qed.




(** ** C10 *)

(** Whatever the classifier answers, the request it is sent interpolates the
    "goal" entry of the session's real profile. *)
Lemma run_matcher_prompt (st : MasterState) (w : World) :
  exists prompt,
    log (after (run_matcher st) w)
    = log w ++ [Enter "matcher_graph" "matcher"; Invoke model_matcher Match [prompt]]
    /\ content prompt = system_prompt_matcher (py_str (user_goal_of st w)).
Proof.
  unfold after, run_matcher, graph_invoke, recursion_limit, user_goal_of.
  rewrite pregel_step. unfold matcher_graph, call_matcher. mred.
  destruct (replies w) as [|[reason|r] rest]; mred;
    (eexists; split; [now rewrite <- app_assoc | reflexivity]).
Qed.



(** ** The planner's requests *)

Lemma run_tool_calls_spec (queries : list string) (w : World) :
  exists msgs,
    run_tool_calls queries w = (Ok msgs, with_next_id (List.length queries + next_id w) w).
Proof.
  revert w. induction queries as [|q rest IH]; intros w.
  - exists []. destruct w; reflexivity.
  - cbn [run_tool_calls]. unfold retrieve. mred.
    destruct (IH (with_next_id (S (next_id w)) w)) as (msgs & Hrun).
    mred_in Hrun. rewrite Hrun. mred.
    eexists. cbn [List.length]. rewrite Nat.add_succ_r. reflexivity.
Qed.

Lemma tools_node_spec (s : PlannerState) (w : World) :
  exists msgs n, tools_node s w = (Ok msgs, with_next_id n w).
Proof.
  unfold tools_node. destruct (rev (pl_messages s)) as [|m ms].
  - exists [], (next_id w). destruct w; reflexivity.
  - destruct (run_tool_calls_spec (tool_calls m) w) as (msgs & H). eauto.
Qed.

Lemma query_or_respond_prompt (s : PlannerState) (w : World) :
  exists o w' p,
    query_or_respond s w = (o, w')
    /\ log w' = log w ++ [Invoke model_planner Query (p :: pl_messages s)]
    /\ content p = rag_query "{}".
Proof.
  unfold query_or_respond. mred.
  destruct (replies w) as [|[reason|r] rest]; mred;
    (do 3 eexists; split; [reflexivity | split; reflexivity]).
Qed.

Lemma call_planner_prompt (s : PlannerState) (w : World) :
  pl_real_profile s = None ->
  exists o w' p docs,
    call_planner s w = (o, w')
    /\ log w' = log w ++ [Invoke model_planner Plan (p :: pl_messages s)]
    /\ content p = planner_system_message "{}" docs.
Proof.
  intros Hnone. unfold call_planner. rewrite Hnone.
  destruct (pl_shadow_profile s); mred; rewrite nth_alloc;
    destruct (replies w) as [|[reason|r] rest]; mred;
    (do 4 eexists; split; [reflexivity | split; reflexivity]).
Qed.

Lemma planner_graph_prompts (s : PlannerState) (w : World) :
  pl_real_profile s = None ->
  exists query more,
    log (after (graph_invoke planner_graph s) w)
    = log w ++ Enter "planner_graph" "query_or_respond"
               :: Invoke model_planner Query query :: more
    /\ Forall asks_with_empty_profile
         (Enter "planner_graph" "query_or_respond" :: Invoke model_planner Query query :: more)
    /\ forall s', fst (graph_invoke planner_graph s w) = Ok s' -> pl_real_profile s' = None.
Proof.
  intros Hnone. unfold after, graph_invoke, recursion_limit.
  rewrite pregel_step. cbn [planner_graph body edge graph_name node_name entry_point]. mred.
  match goal with
  | |- context [query_or_respond ?s0 ?w0] =>
      destruct (query_or_respond_prompt s0 w0) as (o & w1 & p & Hq & Hlog1 & Hp)
  end.
  rewrite Hq. mred_in Hlog1.
  assert (Hask1 : asks_with_empty_profile (Invoke model_planner Query (p :: pl_messages s)))
    by (cbn; eauto).
  destruct o as [new|e]; mred.
  2: { do 2 eexists. rewrite Hlog1, <- app_assoc. split; [reflexivity|].
       split; [repeat constructor; exact Hask1 | discriminate]. }
  destruct (tools_condition (planner_append s new)); mred.
  2: { do 2 eexists. rewrite Hlog1, <- app_assoc. split; [reflexivity|].
       split; [repeat constructor; exact Hask1 |].
       intros s' [= <-]. exact Hnone. }
  rewrite pregel_step. cbn [planner_graph body edge graph_name node_name entry_point]. mred.
  match goal with
  | |- context [tools_node ?s0 ?w0] =>
      destruct (tools_node_spec s0 w0) as (msgs & n & Ht)
  end.
  rewrite Ht. mred.
  rewrite pregel_step. cbn [planner_graph body edge graph_name node_name entry_point]. mred.
  match goal with
  | |- context [call_planner ?s0 ?w0] =>
      destruct (@call_planner_prompt s0 w0 Hnone) as (o & w2 & p2 & docs & Hc & Hlog2 & Hp2)
  end.
  rewrite Hc. mred_in Hlog2. rewrite Hlog1 in Hlog2.
  assert (Hask2 : forall prompt_rest,
             asks_with_empty_profile (Invoke model_planner Plan (p2 :: prompt_rest)))
    by (intros; cbn; exists p2, prompt_rest, docs; split; [reflexivity | exact Hp2]).
  destruct o as [new2|e]; mred;
    (do 2 eexists; rewrite Hlog2, <- !app_assoc; split; [reflexivity|];
     split; [repeat constructor; auto |]).
  - intros s' [= <-]. exact Hnone.
  - discriminate.
Qed.

(** ** C5 *)

(** C5 (what the code does).  Neither phase of the planner is given the
    session's ProfileValues.  The retrieval-query prompt interpolates the
    module-level dictionary [real_profile], which is never written and prints
    as "{}"; the synthesis prompt interpolates the ["real_profile"] key of the
    planner's own state, which [run_planner] builds from the master state's
    ["planner"] entry alone, so it is absent and prints as "{}".  This holds
    for every session state and every content of its real profile. *)
Theorem C5_planner_prompts_embed_empty_profile (st : MasterState) (w : World) :
  planner_has_no_profile st ->
  repr_real real_profile = "{}"
  /\ exists query more,
       log (after (run_planner st) w)
       = log w ++ Enter "planner_graph" "query_or_respond"
                  :: Invoke model_planner Query query :: more
       /\ Forall asks_with_empty_profile
            (Enter "planner_graph" "query_or_respond"
             :: Invoke model_planner Query query :: more)
       /\ forall st', fst (run_planner st w) = Ok st' -> planner_has_no_profile st'.
Proof.
  intros Hno. split; [reflexivity|].
  unfold after, run_planner.
  match goal with
  | |- context [graph_invoke planner_graph ?s0] =>
      assert (Hnone : pl_real_profile s0 = None)
        by (unfold planner_has_no_profile in Hno; destruct (ms_planner st); auto);
      destruct (@planner_graph_prompts s0 w Hnone) as (query & more & Hlog & Hall & Hkeep)
  end.
  unfold after in Hlog. exists query, more.
  cbn [bind].
  match goal with
  | |- context [graph_invoke planner_graph ?s0 w] =>
      destruct (graph_invoke planner_graph s0 w) as [[s'|e] w'] eqn:E
  end; cbn [fst snd ret] in *.
  - split; [exact Hlog|]. split; [exact Hall|].
    intros st' [= <-]. unfold planner_has_no_profile. cbn. now apply Hkeep.
  - split; [exact Hlog|]. split; [exact Hall|]. discriminate.
Qed.

Lemma C5_witness :
  planner_has_no_profile (new_master_state 0 0)
  /\ read_real (ms_real_profile (new_master_state 0 0)) ready_world <> []
  /\ exists query more,
       log (after (run_planner (new_master_state 0 0)) ready_world)
       = log ready_world ++ Enter "planner_graph" "query_or_respond"
                            :: Invoke model_planner Query query :: more
       /\ Forall asks_with_empty_profile
            (Enter "planner_graph" "query_or_respond"
             :: Invoke model_planner Query query :: more).
Proof.
  split; [exact I|]. split; [discriminate|].
  destruct (@C5_planner_prompts_embed_empty_profile (new_master_state 0 0) ready_world I)
    as (_ & query & more & Hlog & Hall & _).
  exists query, more. split; [exact Hlog | exact Hall].
Defined.

(** ** C6 *)

(** C6 (what the code does).  There is one session state for the whole
    process: [chat_step] does not look at its [session_id], and
    [start_session] rebinds the state to a new initial one whatever session
    was in progress, so starting a second session discards the first one's
    CompletionMap, ProfileValues, histories and title. *)
Theorem C6_sessions_share_one_state :
  (forall user_message a b, chat_step user_message a = chat_step user_message b)
  /\ (forall session_id w,
        exists real shadow,
          state (after (start_session session_id) w) = Some (new_master_state real shadow)
          /\ read_real real (after (start_session session_id) w) = []
          /\ read_shadow shadow (after (start_session session_id) w)
             = initial_shadow_profile).
Proof.
  split; [reflexivity|].
  intros session_id w. unfold after, start_session. mred.
  do 2 eexists. split; [reflexivity|]. split; apply nth_alloc.
Qed.

(** Session "A" has stated its goal and has a title; then session "B" starts. *)
Example second_session_replaces_first :
  session_values after_first_goal
  = Some [("goal", JStr "I want to retire early and travel")]
  /\ option_map ms_conversation_title (state after_first_goal)
     = Some (Some "Early Retirement and Travel")
  /\ session_values (after (start_session "B") after_first_goal) = Some []
  /\ option_map ms_conversation_title (state (after (start_session "B") after_first_goal))
     = Some (Some "initial")
  /\ option_map (fun st => cb_messages (ms_chatbot st))
       (state (after (start_session "B") after_first_goal))
     = Some [system_prompt_chatbot; assistant_message].
Proof. repeat split; vm_compute; reflexivity. Qed.

(** ** A failure after the extraction

    The extractor marks "age" as collected and stores its value in place; the
    chatbot's model call then fails.  The turn raises, and the profile
    dictionaries of the session keep what the extractor wrote. *)

Example late_failure_keeps_updates :
  collected_fields before_late_failure = Some ["goal"]
  /\ fst (chat_step "I am 35" "A" before_late_failure) = Raise (ModelError "connection error")
  /\ collected_fields (after (chat_step "I am 35" "A") before_late_failure)
     = Some ["goal"; "age"]
  /\ session_values (after (chat_step "I am 35" "A") before_late_failure)
     = Some [("goal", JStr "I want to retire early and travel"); ("age", JInt 35)].
Proof. repeat split; vm_compute; reflexivity. Qed.

(** * Further properties of the code *)

(** ** The anatomy of a turn *)

Lemma succeeded_ok {A} (c : M A) (w : World) :
  succeeded (fst (c w)) = true -> exists a, c w = (Ok a, after c w).
Proof.
  unfold after. destruct (c w) as [[a|e] w']; cbn; [|discriminate].
  intros _. now exists a.
Qed.

Lemma bind_ok {A B} (c : M A) (k : A -> M B) (w : World) (b : B) (w' : World) :
  bind c k w = (Ok b, w') ->
  exists a w1, c w = (Ok a, w1) /\ k a w1 = (Ok b, w').
Proof.
  unfold bind. destruct (c w) as [[a|e] w1]; [eauto | discriminate].
Qed.

Lemma pregel_invariant {S N} (g : Graph S N) (P : S -> Prop) :
  (forall n s w s' w', P s -> body g n s w = (Ok s', w') -> P s') ->
  forall limit n s w s' w',
    P s -> pregel g limit n s w = (Ok s', w') -> P s'.
Proof.
  intros Hbody. induction limit as [|limit IH]; intros n s w s' w' HP Hrun.
  - discriminate Hrun.
  - rewrite pregel_step in Hrun.
    apply bind_ok in Hrun. destruct Hrun as (_ & w1 & _ & Hrun).
    apply bind_ok in Hrun. destruct Hrun as (s1 & w2 & Hb & Hrun).
    apply bind_ok in Hrun. destruct Hrun as (next & w3 & He & Hrun).
    pose proof (Hbody _ _ _ _ _ HP Hb) as HP1.
    destruct next as [n'|].
    + eapply IH; eauto.
    + injection Hrun as <- _. exact HP1.
Qed.

Ltac bind_inv H :=
  repeat match type of H with
         | bind _ _ _ = (Ok _, _) =>
             let a := fresh "a" in
             let w := fresh "w" in
             let Hc := fresh "Hc" in
             apply bind_ok in H; destruct H as (a & w & Hc & H)
         end.

Lemma run_chatbot_keeps (s : MasterState) (w : World) (s' : MasterState) (w' : World) :
  run_chatbot s w = (Ok s', w') ->
  ms_messages s' = ms_messages s /\ ms_extractor s' = ms_extractor s
  /\ ms_summarizer s' = ms_summarizer s /\ ms_matcher s' = ms_matcher s
  /\ ms_real_profile s' = ms_real_profile s
  /\ ms_conversation_title s' = ms_conversation_title s
  /\ ms_planner s' = ms_planner s.
Proof.
  unfold run_chatbot. intros H. bind_inv H.
  injection H as <- _. repeat split.
Qed.

Lemma run_extractor_keeps (s : MasterState) (w : World) (s' : MasterState) (w' : World) :
  run_extractor s w = (Ok s', w') ->
  ms_messages s' = ms_messages s /\ ms_chatbot s' = ms_chatbot s
  /\ ms_summarizer s' = ms_summarizer s /\ ms_matcher s' = ms_matcher s
  /\ ms_planner s' = ms_planner s
  /\ ms_conversation_title s' = ex_conversation_title (ms_extractor s').
Proof.
  unfold run_extractor. intros H. bind_inv H.
  injection H as <- _. repeat split.
Qed.

Lemma run_matcher_keeps (s : MasterState) (w : World) (s' : MasterState) (w' : World) :
  run_matcher s w = (Ok s', w') ->
  ms_messages s' = ms_messages s /\ ms_chatbot s' = ms_chatbot s
  /\ ms_extractor s' = ms_extractor s /\ ms_summarizer s' = ms_summarizer s
  /\ ms_real_profile s' = ms_real_profile s
  /\ ms_conversation_title s' = ms_conversation_title s
  /\ ms_planner s' = ms_planner s.
Proof.
  unfold run_matcher. intros H. bind_inv H.
  injection H as <- _. repeat split.
Qed.

Lemma run_planner_keeps (s : MasterState) (w : World) (s' : MasterState) (w' : World) :
  run_planner s w = (Ok s', w') ->
  ms_messages s' = ms_messages s /\ ms_chatbot s' = ms_chatbot s
  /\ ms_extractor s' = ms_extractor s /\ ms_summarizer s' = ms_summarizer s
  /\ ms_matcher s' = ms_matcher s
  /\ ms_real_profile s' = ms_real_profile s /\ ms_shadow_profile s' = ms_shadow_profile s
  /\ ms_conversation_title s' = ms_conversation_title s.
Proof.
  unfold run_planner. intros H. bind_inv H.
  injection H as <- _. repeat split.
Qed.

Lemma run_summarizer_keeps (s : MasterState) (w : World) (s' : MasterState) (w' : World) :
  run_summarizer s w = (Ok s', w') ->
  ms_messages s' = ms_messages s /\ ms_extractor s' = ms_extractor s
  /\ ms_matcher s' = ms_matcher s
  /\ ms_real_profile s' = ms_real_profile s /\ ms_shadow_profile s' = ms_shadow_profile s
  /\ ms_conversation_title s' = ms_conversation_title s
  /\ ms_planner s' = ms_planner s.
Proof.
  unfold run_summarizer. intros H. bind_inv H.
  injection H as <- _. repeat split.
Qed.

Lemma route_decision_extractor_world (s : MasterState) (w : World) :
  snd (route_decision_extractor s w) = w.
Proof.
  destruct (Z.eq_dec (total_importance (read_shadow (ms_shadow_profile s) w)) 0) as [H|H].
  - now rewrite (route_decision_extractor_zero s w H).
  - now rewrite (route_decision_extractor_spec s w H).
Qed.

Lemma workflow_edge_world (n : master_node) (s : MasterState) (w : World) :
  snd (edge workflow n s w) = w.
Proof.
  destruct n; cbn [workflow edge]; try reflexivity.
  - destruct (Dict.get (route_decision_summarize s) chatbot_paths); reflexivity.
  - unfold bind. pose proof (route_decision_extractor_world s w) as H.
    destruct (route_decision_extractor s w) as [[route|e] w1]; cbn [snd] in *; subst.
    + destruct (Dict.get route extractor_paths); reflexivity.
    + reflexivity.
Qed.

Lemma graph_ok (input out : MasterState) (w w' : World) :
  graph input w = (Ok out, w') ->
  all_messages (ms_messages input) = true
  /\ exists s1 w1 n',
       run_extractor (graph_input input)
         (with_log (log w ++ [Enter "workflow" "extractor"]) w) = (Ok s1, w1)
       /\ edge workflow Extractor s1 w1 = (Ok (Some n'), w1)
       /\ (n' = Matcher \/ n' = Planner \/ n' = Chatbot)
       /\ pregel workflow 24 n' s1 w1 = (Ok out, w').
Proof.
  unfold graph, coerce. fold (all_messages (ms_messages input)).
  destruct (all_messages (ms_messages input)) eqn:Hall; [|discriminate].
  mred. unfold graph_invoke, recursion_limit. rewrite pregel_step.
  mred. cbn [workflow body entry_point graph_name node_name].
  fold (graph_input input).
  intros H. split; [reflexivity|].
  match type of H with
  | context [run_extractor ?s0 ?w0] =>
      destruct (run_extractor s0 w0) as [[s1|e] w1] eqn:Hrun; [|discriminate H]
  end.
  pose proof (workflow_edge_world Extractor s1 w1) as Hw.
  change (match route_decision_extractor s1 w1 with
          | (Ok a, w'0) => _ a w'0
          | (Raise e, w'0) => _
          end) with (edge workflow Extractor s1 w1) in H.
  cbn beta iota in H.
  destruct (edge workflow Extractor s1 w1) as [[next|e] w2] eqn:He; [|discriminate H].
  cbn [snd] in Hw. subst w2.
  pose proof (@extractor_edge_targets s1 w1 next w1 He) as Ht.
  exists s1, w1.
  destruct next as [n'|].
  - exists n'. split; [reflexivity|]. split; [exact He|]. split.
    + destruct Ht as [[= ->]|[[= ->]|[= ->]]]; auto.
    + exact H.
  - destruct Ht as [Ht|[Ht|Ht]]; discriminate Ht.
Qed.

Lemma role_eqb_eq (a b : role) : role_eqb a b = true <-> a = b.
Proof. destruct a, b; cbn; split; congruence. Qed.

Lemma msg_id_eqb_eq (a b : msg_id) : msg_id_eqb a b = true <-> a = b.
Proof.
  destruct a as [x|x], b as [y|y]; cbn; split; try congruence.
  - intros H. apply String.eqb_eq in H. now subst.
  - intros [= ->]. apply String.eqb_refl.
  - intros H. apply Nat.eqb_eq in H. now subst.
  - intros [= ->]. apply Nat.eqb_refl.
Qed.

Lemma message_eqb_eq (a b : message) : message_eqb a b = true <-> a = b.
Proof.
  unfold message_eqb. split.
  - intros H. apply andb_prop in H. destruct H as [H Hid].
    apply andb_prop in H. destruct H as [H Htc].
    apply andb_prop in H. destruct H as [Ht Hc].
    apply role_eqb_eq in Ht. apply String.eqb_eq in Hc. apply msg_id_eqb_eq in Hid.
    destruct (list_eq_dec string_dec (tool_calls a) (tool_calls b)) as [Htc'|]; [|discriminate].
    destruct a, b; cbn in *; subst; reflexivity.
  - intros ->.
    replace (role_eqb (mtype b) (mtype b)) with true by (symmetry; now apply role_eqb_eq).
    rewrite String.eqb_refl.
    replace (msg_id_eqb (mid b) (mid b)) with true by (symmetry; now apply msg_id_eqb_eq).
    destruct (list_eq_dec string_dec (tool_calls b) (tool_calls b)); [reflexivity | congruence].
Qed.

(** A history that holds something that is not a message is refused before
    any node runs. *)
Lemma graph_refuses (input : MasterState) (w : World) :
  all_messages (ms_messages input) = false ->
  graph input w = (Raise MessageCoercionError, w).
Proof.
  intros H. unfold graph, coerce. fold (all_messages (ms_messages input)).
  now rewrite H.
Qed.

Lemma all_messages_none (l : list (option message)) :
  all_messages (l ++ [None]) = false.
Proof. unfold all_messages. rewrite forallb_app. cbn. apply andb_false_r. Qed.

Lemma call_formatter_frame (raw : string) (w : World) :
  let w' := snd (call_formatter raw w) in
  shadows w' = shadows w /\ reals w' = reals w /\ state w' = state w
  /\ prev_assistant_message w' = prev_assistant_message w.
Proof.
  unfold call_formatter. mred.
  destruct (replies w) as [|[reason|r] rest]; mred; repeat split.
Qed.

Lemma graph_globals (input : MasterState) (w : World) :
  state (snd (graph input w)) = state w
  /\ prev_assistant_message (snd (graph input w)) = prev_assistant_message w.
Proof.
  destruct (@runs_graph input w) as (evs & [_ [Hs Hp]] & _). split; assumption.
Qed.

Lemma chat_step_ok (user_message session_id : string) (w : World) (a : Answer) (w' : World) :
  chat_step user_message session_id w = (Ok a, w') ->
  user_message <> ""
  /\ exists before after w1 am,
       state w = Some before
       /\ graph (with_user_message (user_turn user_message w) before)
            (turn_started user_message before w) = (Ok after, w1)
       /\ last_chatbot_message after = Some am
       /\ state w' = Some after
       /\ shadows w' = shadows w1 /\ reals w' = reals w1
       /\ prev_assistant_message w' = Some am
       /\ answer_real_profile a
          = map (fun fi =>
                   (fst fi,
                    match Dict.get (fst fi) (read_real (ms_real_profile after) w1) with
                    | Some v => v
                    | None => JBool false
                    end))
                (read_shadow (ms_shadow_profile after) w1)
       /\ answer_conversation_title a = ms_conversation_title after
       /\ ((prev_assistant_message w = Some am
            /\ exists planner pm rest,
                 ms_planner after = Some planner
                 /\ rev (pl_messages planner) = pm :: rest
                 /\ call_formatter (content pm) (with_state (Some after) w1)
                    = (Ok (response a), w'))
           \/ (prev_assistant_message w <> Some am
               /\ response a = content am
               /\ log w' = log w1 /\ replies w' = replies w1
               /\ next_id w' = next_id w1)).
Proof.
  unfold chat_step.
  destruct (String.eqb user_message "") eqn:Hm.
  - mred. destruct (state w) as [before|]; [|discriminate]. mred.
    rewrite graph_refuses; [discriminate|].
    cbn [ms_messages set_ms_messages]. apply all_messages_none.
  - apply String.eqb_neq in Hm. intros H. split; [exact Hm|].
    apply bind_ok in H. destruct H as (hm & w0 & Hnew & H).
    mred_in Hnew. injection Hnew as <- <-.
    apply bind_ok in H. destruct H as (current & w0' & Hget & H).
    mred_in Hget. injection Hget as <- <-.
    destruct (state w) as [before|] eqn:Hstate; [|discriminate].
    apply bind_ok in H. destruct H as ([] & w0' & Hset & H).
    mred_in Hset. injection Hset as <-.
    apply bind_ok in H. destruct H as (after & w1 & Hgraph & H).
    change (graph _ _) with
      (graph (with_user_message (user_turn user_message w) before)
             (turn_started user_message before w)) in Hgraph.
    pose proof (graph_globals (with_user_message (user_turn user_message w) before)
                  (turn_started user_message before w)) as [_ Hprev].
    rewrite Hgraph in Hprev.
    cbn [snd] in Hprev. unfold turn_started in Hprev. mred_in Hprev.
    apply bind_ok in H. destruct H as ([] & w1s & Hset & H).
    assert (Hw1s : w1s = with_state (Some after) w1) by (now injection Hset).
    clear Hset.
    assert (Hs1 : shadows w1s = shadows w1) by now subst w1s.
    assert (Hr1 : reals w1s = reals w1) by now subst w1s.
    assert (Hst1 : state w1s = Some after) by now subst w1s.
    assert (Hp1 : prev_assistant_message w1s = prev_assistant_message w) by (subst w1s; exact Hprev).
    assert (Hl1 : log w1s = log w1) by now subst w1s.
    assert (Hq1 : replies w1s = replies w1) by now subst w1s.
    assert (Hn1 : next_id w1s = next_id w1) by now subst w1s.
    destruct (rev (cb_messages (ms_chatbot after))) as [|am rest] eqn:Hrev; [discriminate|].
    exists before, after, w1, am.
    split; [reflexivity|]. split; [exact Hgraph|].
    split; [unfold last_chatbot_message; now rewrite Hrev|].
    apply bind_ok in H. destruct H as (prev & w2 & Hget & H).
    injection Hget as <- <-. rewrite Hp1 in H.
    apply bind_ok in H. destruct H as (text & w3 & Htext & H).
    unfold get_real, get_shadow in H. mred_in H. injection H as <- <-.
    cbn [response answer_real_profile answer_conversation_title].
    destruct (match prev_assistant_message w with
              | Some p => message_eqb am p
              | None => false
              end) eqn:Heq.
    + destruct (prev_assistant_message w) as [p|]; [|discriminate].
      apply message_eqb_eq in Heq. subst p.
      destruct (ms_planner after) as [planner|]; [|discriminate].
      destruct (rev (pl_messages planner)) as [|pm prest] eqn:Hpl; [discriminate|].
      pose proof (call_formatter_frame (content pm) w1s) as (Hsh & Hre & Hst & Hpr).
      rewrite Htext in Hsh, Hre, Hst, Hpr. cbn [snd] in Hsh, Hre, Hst, Hpr.
      unfold read_real, read_shadow. rewrite Hsh, Hre, Hst, Hpr, Hs1, Hr1, Hst1, Hp1.
      repeat (split; [reflexivity|]).
      left. split; [reflexivity|].
      exists planner, pm, prest.
      split; [reflexivity|]. split; [exact Hpl | now rewrite <- Hw1s].
    + mred_in Htext. injection Htext as <- <-. mred.
      unfold read_real, read_shadow. rewrite Hs1, Hr1, Hst1, Hl1, Hq1, Hn1.
      repeat (split; [reflexivity|]).
      right. split; [|repeat split].
      intros Hpa. rewrite Hpa in Heq.
      assert (message_eqb am am = true) by now apply message_eqb_eq.
      congruence.
Qed.

Lemma get_map_keyed {V W} (f : string -> W) (d : list (string * V)) (k : string) :
  Dict.get k (map (fun fi => (fst fi, f (fst fi))) d)
  = if Dict.mem k d then Some (f k) else None.
Proof.
  unfold Dict.mem.
  induction d as [|[k' v] d IH]; cbn; [reflexivity|].
  destruct (String.eqb k k') eqn:E.
  - apply String.eqb_eq in E. now subst.
  - exact IH.
Qed.

Lemma keys_map_keyed {V W} (f : string -> W) (d : list (string * V)) :
  Dict.keys (map (fun fi => (fst fi, f (fst fi))) d) = Dict.keys d.
Proof. unfold Dict.keys. rewrite map_map. reflexivity. Qed.

Lemma workflow_body_title (n : master_node) (s : MasterState) (w : World)
    (s' : MasterState) (w' : World) :
  (n = Extractor \/ ms_conversation_title s = ex_conversation_title (ms_extractor s)) ->
  body workflow n s w = (Ok s', w') ->
  ms_conversation_title s' = ex_conversation_title (ms_extractor s').
Proof.
  intros HP Hb. destruct n; cbn [workflow body] in Hb.
  - apply run_chatbot_keeps in Hb. destruct Hb as (_ & He & _ & _ & _ & Ht & _).
    destruct HP as [|HP]; [discriminate|]. congruence.
  - now apply run_extractor_keeps in Hb.
  - apply run_matcher_keeps in Hb. destruct Hb as (_ & _ & He & _ & _ & Ht & _).
    destruct HP as [|HP]; [discriminate|]. congruence.
  - apply run_planner_keeps in Hb. destruct Hb as (_ & _ & He & _ & _ & _ & _ & Ht).
    destruct HP as [|HP]; [discriminate|]. congruence.
  - apply run_summarizer_keeps in Hb. destruct Hb as (_ & He & _ & _ & _ & Ht & _).
    destruct HP as [|HP]; [discriminate|]. congruence.
Qed.

Lemma graph_title (input out : MasterState) (w w' : World) :
  graph input w = (Ok out, w') ->
  ms_conversation_title out = ex_conversation_title (ms_extractor out).
Proof.
  intros H. apply graph_ok in H.
  destruct H as (_ & s1 & w1 & n' & Hrun & _ & _ & Hrest).
  apply run_extractor_keeps in Hrun. destruct Hrun as (_ & _ & _ & _ & _ & Ht).
  revert Hrest. apply pregel_invariant with (P := fun s =>
    ms_conversation_title s = ex_conversation_title (ms_extractor s)); [|exact Ht].
  intros n s w0 s' w0' HP Hb. apply (@workflow_body_title n s w0 s' w0'); auto.
Qed.

Lemma workflow_body_messages (n : master_node) (s : MasterState) (w : World)
    (s' : MasterState) (w' : World) :
  body workflow n s w = (Ok s', w') -> ms_messages s' = ms_messages s.
Proof.
  intros Hb. destruct n; cbn [workflow body] in Hb.
  - now apply run_chatbot_keeps in Hb.
  - now apply run_extractor_keeps in Hb.
  - now apply run_matcher_keeps in Hb.
  - now apply run_planner_keeps in Hb.
  - now apply run_summarizer_keeps in Hb.
Qed.

Lemma graph_messages (input out : MasterState) (w w' : World) :
  graph input w = (Ok out, w') ->
  ms_messages out = map Some (into_channel (present (ms_messages input))).
Proof.
  intros H. apply graph_ok in H.
  destruct H as (_ & s1 & w1 & n' & Hrun & _ & _ & Hrest).
  apply run_extractor_keeps in Hrun. destruct Hrun as (Hm & _).
  revert Hrest. apply pregel_invariant with (P := fun s =>
    ms_messages s = map Some (into_channel (present (ms_messages input)))); [|exact Hm].
  intros n s w0 s' w0' HP Hb. apply workflow_body_messages in Hb. congruence.
Qed.

(** X1.  When [chat_step] returns, the ["real_profile"] of its answer has exactly
    the keys of the session's shadow profile, in the same order; a key carries
    the value the real profile stores for it, and [False] when the real profile
    stores none.  The ["conversation_title"] of the answer is the title of the
    stored state, which is the title the extractor's state holds. *)
Theorem chat_step_reports_tracked_fields
    (user_message session_id : string) (w : World) (a : Answer) (w' : World) :
  chat_step user_message session_id w = (Ok a, w') ->
  exists st',
    state w' = Some st'
    /\ Dict.keys (answer_real_profile a)
       = Dict.keys (read_shadow (ms_shadow_profile st') w')
    /\ (forall field,
          Dict.get field (answer_real_profile a)
          = if Dict.mem field (read_shadow (ms_shadow_profile st') w')
            then Some match Dict.get field (read_real (ms_real_profile st') w') with
                      | Some v => v
                      | None => JBool false
                      end
            else None)
    /\ answer_conversation_title a = ms_conversation_title st'
    /\ ms_conversation_title st' = ex_conversation_title (ms_extractor st').
Proof.
  intros H. apply chat_step_ok in H.
  destruct H as (_ & before & after & w1 & am & _ & Hgraph & _ & Hst & Hsh & Hre & _ & Hans
                 & Htitle & _).
  exists after. split; [exact Hst|].
  unfold read_shadow, read_real in *. rewrite Hsh, Hre, Hans.
  split; [|split; [|split]].
  - apply (keys_map_keyed
             (fun k => match Dict.get k (nth (ms_real_profile after) (reals w1) []) with
                       | Some v => v
                       | None => JBool false
                       end)).
  - intros field.
    apply (get_map_keyed
             (fun k => match Dict.get k (nth (ms_real_profile after) (reals w1) []) with
                       | Some v => v
                       | None => JBool false
                       end)).
  - exact Htitle.
  - now apply graph_title in Hgraph.
Qed.

Lemma chat_step_reports_tracked_fields_witness :
  exists a w',
    chat_step full_message "A" full_session = (Ok a, w')
    /\ Dict.keys (answer_real_profile a)
       = ["goal"; "age"; "salary"; "savings"; "location"; "retirement_age";
          "desired_monthly_spending"; "large_planned_expenses"; "travel_frequency";
          "lifestyle_upgrades"]
    /\ answer_conversation_title a = Some "Spending It All".
Proof.
  destruct (@succeeded_ok _ (chat_step full_message "A") full_session) as (a & Hrun);
    [vm_compute; reflexivity|].
  exists a, (after (chat_step full_message "A") full_session). split; [exact Hrun|].
  destruct (@chat_step_reports_tracked_fields full_message "A" full_session a
              (after (chat_step full_message "A") full_session) Hrun)
    as (st' & Hst & Hkeys & _ & Htitle & _).
  assert (Hst' : st' = templated_state).
  { unfold templated_state, templated_world. now rewrite Hst. }
  subst st'. split.
  - rewrite Hkeys. vm_compute. reflexivity.
  - rewrite Htitle. vm_compute. reflexivity.
Defined.

Lemma chatbot_edge (s : MasterState) (w : World) :
  edge workflow Chatbot s w = (Ok (if (20 <=? List.length (cb_messages (ms_chatbot s)))%nat
                                   then Some Summarizer else None), w).
Proof.
  cbn [workflow edge]. unfold route_decision_summarize.
  destruct (20 <=? List.length (cb_messages (ms_chatbot s)))%nat; reflexivity.
Qed.

Lemma pregel_keeps_matcher (limit : nat) (n : master_node) (s : MasterState) (w : World)
    (s' : MasterState) (w' : World) :
  n <> Matcher -> n <> Extractor ->
  pregel workflow limit n s w = (Ok s', w') ->
  ms_matcher s' = ms_matcher s.
Proof.
  revert n s w. induction limit as [|limit IH]; intros n s w Hm He Hrun; [discriminate|].
  rewrite pregel_step in Hrun.
  apply bind_ok in Hrun. destruct Hrun as (_ & w1 & _ & Hrun).
  apply bind_ok in Hrun. destruct Hrun as (s1 & w2 & Hb & Hrun).
  apply bind_ok in Hrun. destruct Hrun as (next & w3 & Hedge & Hrun).
  assert (Hs1 : ms_matcher s1 = ms_matcher s).
  { destruct n; cbn [workflow body] in Hb; try congruence.
    - now apply run_chatbot_keeps in Hb.
    - now apply run_planner_keeps in Hb.
    - now apply run_summarizer_keeps in Hb. }
  destruct n; try congruence.
  - rewrite chatbot_edge in Hedge. injection Hedge as <- <-.
    match type of Hrun with context [if ?b then _ else _] => destruct b end.
    + apply IH in Hrun; [congruence | discriminate | discriminate].
    + injection Hrun as <- _. exact Hs1.
  - cbn [workflow edge] in Hedge. injection Hedge as <- <-.
    injection Hrun as <- _. exact Hs1.
  - cbn [workflow edge] in Hedge. injection Hedge as <- <-.
    injection Hrun as <- _. exact Hs1.
Qed.

Lemma extractor_edge_templated (s : MasterState) (w : World) (c : string)
    (n : master_node) (w' : World) :
  mt_selected_template (ms_matcher s) = Some c -> c <> "" ->
  edge workflow Extractor s w = (Ok (Some n), w') ->
  n = Planner \/ n = Chatbot.
Proof.
  intros Hc Hne. cbn [workflow edge]. unfold bind.
  destruct (Z.eq_dec (total_importance (read_shadow (ms_shadow_profile s) w)) 0) as [H|H].
  - rewrite (route_decision_extractor_zero s w H). discriminate.
  - rewrite (route_decision_extractor_spec s w H). rewrite Hc.
    unfold no_template. apply String.eqb_neq in Hne. rewrite Hne.
    destruct (isReady _ _); cbn; intros [= <- _]; auto.
Qed.

Lemma entered_app (a b : list event) : entered (a ++ b) = entered a ++ entered b.
Proof. unfold entered. apply flat_map_app. Qed.

Lemma quiet_log {A} (c : M A) (w : World) :
  quiet c -> exists evs, log (snd (c w)) = log w ++ evs /\ entered evs = [].
Proof.
  intros Hq. destruct (Hq w) as (evs & [Hlog _] & Hin & _).
  exists evs. split; [exact Hlog|].
  destruct Hin as [<-|[]]. reflexivity.
Qed.

Lemma runs_log {A} (c : M A) (L Lok : list (list label)) (w : World) (a : A) (w' : World) :
  runs same_globals c L Lok -> c w = (Ok a, w') ->
  exists evs, log w' = log w ++ evs /\ In (entered evs) Lok.
Proof.
  intros Hr Hc. destruct (Hr w) as (evs & [Hlog _] & _ & Hok & _).
  rewrite Hc in Hlog, Hok. exists evs. split; [exact Hlog|]. now apply (Hok a).
Qed.

(** the node sequences that may follow the extractor on its three ways out *)
Lemma workflow_trace_from (n : master_node) (s : MasterState) (w : World)
    (out : MasterState) (w' : World) :
  n = Matcher \/ n = Planner \/ n = Chatbot ->
  pregel workflow 24 n s w = (Ok out, w') ->
  exists evs,
    log w' = log w ++ evs
    /\ match n with
       | Matcher =>
           In (entered evs)
              [[Wn "matcher"; Wn "chatbot"]; [Wn "matcher"; Wn "chatbot"; Wn "summarizer"]]
       | Planner =>
           In (entered evs)
              [[Wn "planner"; Pn "query_or_respond"];
               [Wn "planner"; Pn "query_or_respond"; Pn "tools"; Pn "call_planner"]]
       | _ =>
           In (entered evs) [[Wn "chatbot"]; [Wn "chatbot"; Wn "summarizer"]]
       end.
Proof.
  intros [-> | [-> | ->]] Hrun.
  - exact (@runs_log _ _ _ _ _ _ _ (@runs_matcher_node 21 s) Hrun).
  - exact (@runs_log _ _ _ _ _ _ _ (@runs_planner_node 23 s) Hrun).
  - exact (@runs_log _ _ _ _ _ _ _ (@runs_chatbot_node 22 s) Hrun).
Qed.

(** A turn that returns: the extractor ran, the router chose one of its three
    ways out, the rest of the graph ran from there, and the answer was built. *)
Lemma turn_anatomy (user_message session_id : string) (w : World) (a : Answer) (w' : World) :
  chat_step user_message session_id w = (Ok a, w') ->
  exists before s1 w1 n' after w2 am,
    state w = Some before
    /\ run_extractor (graph_input (with_user_message (user_turn user_message w) before))
         (with_log (log w ++ [Enter "workflow" "extractor"])
            (turn_started user_message before w)) = (Ok s1, w1)
    /\ edge workflow Extractor s1 w1 = (Ok (Some n'), w1)
    /\ (n' = Matcher \/ n' = Planner \/ n' = Chatbot)
    /\ pregel workflow 24 n' s1 w1 = (Ok after, w2)
    /\ state w' = Some after
    /\ shadows w' = shadows w2 /\ reals w' = reals w2
    /\ last_chatbot_message after = Some am
    /\ prev_assistant_message w' = Some am
    /\ ((prev_assistant_message w = Some am
         /\ exists planner pm rest,
              ms_planner after = Some planner
              /\ rev (pl_messages planner) = pm :: rest
              /\ call_formatter (content pm) (with_state (Some after) w2)
                 = (Ok (response a), w'))
        \/ (prev_assistant_message w <> Some am
            /\ response a = content am
            /\ log w' = log w2 /\ replies w' = replies w2
            /\ next_id w' = next_id w2))
    /\ exists evs_x evs_n evs_f,
         log w' = log w ++ Enter "workflow" "extractor" :: evs_x ++ evs_n ++ evs_f
         /\ log w1 = log w ++ Enter "workflow" "extractor" :: evs_x
         /\ log w2 = log w1 ++ evs_n
         /\ entered evs_x = [] /\ entered evs_f = []
         /\ match n' with
            | Matcher =>
                In (entered evs_n)
                   [[Wn "matcher"; Wn "chatbot"];
                    [Wn "matcher"; Wn "chatbot"; Wn "summarizer"]]
            | Planner =>
                In (entered evs_n)
                   [[Wn "planner"; Pn "query_or_respond"];
                    [Wn "planner"; Pn "query_or_respond"; Pn "tools"; Pn "call_planner"]]
            | _ =>
                In (entered evs_n) [[Wn "chatbot"]; [Wn "chatbot"; Wn "summarizer"]]
            end.
Proof.
  intros H. apply chat_step_ok in H.
  destruct H as (_ & before & after & w2 & am & Hstate & Hgraph & Hlast & Hst & Hsh & Hre
                 & Hprev & _ & _ & Hresp).
  apply graph_ok in Hgraph.
  destruct Hgraph as (_ & s1 & w1 & n' & Hrun & Hedge & Hn & Hrest).
  exists before, s1, w1, n', after, w2, am.
  repeat (split; [assumption|]).
  assert (Hx : exists evs_x, log w1 = (log w ++ [Enter "workflow" "extractor"]) ++ evs_x
                              /\ entered evs_x = []).
  { match type of Hrun with
    | ?c ?w0 = _ =>
        destruct (@quiet_log _ c w0 (@quiet_run_extractor _)) as (evs_x & Hlx & Hex);
        rewrite Hrun in Hlx; exists evs_x; split; [exact Hlx | exact Hex]
    end. }
  destruct Hx as (evs_x & Hlx & Hex).
  destruct (@workflow_trace_from n' s1 w1 after w2 Hn Hrest) as (evs_n & Hln & Hen).
  assert (Hf : exists evs_f, log w' = log w2 ++ evs_f /\ entered evs_f = []).
  { destruct Hresp as [(_ & planner & pm & rest & _ & _ & Hf) | (_ & _ & Hl & _)].
    - destruct (@quiet_log _ (call_formatter (content pm)) (with_state (Some after) w2)
                  (@quiet_call_formatter _)) as (evs_f & Hlf & Hef).
      rewrite Hf in Hlf. exists evs_f. split; [exact Hlf | exact Hef].
    - exists []. rewrite app_nil_r. split; [exact Hl | reflexivity]. }
  destruct Hf as (evs_f & Hlf & Hef).
  exists evs_x, evs_n, evs_f.
  split; [|split; [|split; [exact Hln | split; [exact Hex | split; [exact Hef | exact Hen]]]]].
  - rewrite Hlf, Hln, Hlx. rewrite <- !app_assoc. reflexivity.
  - rewrite Hlx. rewrite <- !app_assoc. reflexivity.
Qed.

Lemma entered_turn (evs_x evs_n evs_f : list event) :
  entered evs_x = [] -> entered evs_f = [] ->
  entered (Enter "workflow" "extractor" :: evs_x ++ evs_n ++ evs_f)
  = Wn "extractor" :: entered evs_n.
Proof.
  intros Hx Hf. change (Enter "workflow" "extractor" :: evs_x ++ evs_n ++ evs_f)
    with ([Enter "workflow" "extractor"] ++ evs_x ++ evs_n ++ evs_f).
  rewrite !entered_app, Hx, Hf, app_nil_r. reflexivity.
Qed.

(** X2.  In a session whose matcher state already holds a non-empty selected
    template, a turn that returns does not enter the matcher node, and the
    matcher state of the session is after the turn what it was before. *)
Theorem template_is_selected_once
    (user_message session_id : string) (w : World) (before : MasterState) (c : string)
    (a : Answer) (w' : World) :
  state w = Some before ->
  mt_selected_template (ms_matcher before) = Some c ->
  c <> "" ->
  chat_step user_message session_id w = (Ok a, w') ->
  exists st' evs,
    state w' = Some st'
    /\ ms_matcher st' = ms_matcher before
    /\ log w' = log w ++ evs
    /\ ~ In (Wn "matcher") (entered evs).
Proof.
  intros Hstate Hc Hne H. apply turn_anatomy in H.
  destruct H as (before' & s1 & w1 & n' & after & w2 & am & Hstate' & Hrun & Hedge & _
                 & Hrest & Hst & _ & _ & _ & _ & _
                 & evs_x & evs_n & evs_f & Hlog & _ & _ & Hex & Hef & Hen).
  rewrite Hstate in Hstate'. injection Hstate' as <-.
  apply run_extractor_keeps in Hrun. destruct Hrun as (_ & _ & _ & Hm & _).
  assert (Hm1 : ms_matcher s1 = ms_matcher before) by (rewrite Hm; reflexivity).
  assert (Hn : n' = Planner \/ n' = Chatbot).
  { apply (@extractor_edge_templated s1 w1 c n' w1); auto. now rewrite Hm1. }
  exists after, (Enter "workflow" "extractor" :: evs_x ++ evs_n ++ evs_f).
  split; [exact Hst|]. split; [|split; [exact Hlog|]].
  - apply pregel_keeps_matcher in Hrest; [congruence| |];
      destruct Hn as [-> | ->]; discriminate.
  - rewrite (@entered_turn evs_x evs_n evs_f Hex Hef).
    destruct Hn as [-> | ->]; cbn [In] in Hen;
      repeat (destruct Hen as [<- | Hen]; [cbn; intuition discriminate|]);
      destruct Hen.
Qed.

Lemma template_is_selected_once_witness :
  state templated_world = Some templated_state
  /\ mt_selected_template (ms_matcher templated_state) = Some "spend"
  /\ exists a w' st',
       chat_step "I am not sure" "A" templated_world = (Ok a, w')
       /\ state w' = Some st'
       /\ ms_matcher st' = ms_matcher templated_state.
Proof.
  assert (Hstate : state templated_world = Some templated_state) by (vm_compute; reflexivity).
  assert (Htemplate : mt_selected_template (ms_matcher templated_state) = Some "spend")
    by (vm_compute; reflexivity).
  split; [exact Hstate|]. split; [exact Htemplate|].
  destruct (@succeeded_ok _ (chat_step "I am not sure" "A") templated_world) as (a & Hrun);
    [vm_compute; reflexivity|].
  exists a, (after (chat_step "I am not sure" "A") templated_world).
  destruct (@template_is_selected_once "I am not sure" "A" templated_world templated_state
              "spend" a (after (chat_step "I am not sure" "A") templated_world)
              Hstate Htemplate ltac:(discriminate) Hrun)
    as (st' & evs & Hst & Hm & _).
  exists st'. split; [exact Hrun|]. split; [exact Hst | exact Hm].
Defined.

Lemma all_messages_poisoned (l : list (option message)) (x : option message) :
  all_messages l = false -> all_messages (l ++ [x]) = false.
Proof. intros H. unfold all_messages in *. now rewrite forallb_app, H. Qed.

Lemma poisoned_step (user_message session_id : string) (w : World) :
  poisoned w ->
  fst (chat_step user_message session_id w) = Raise MessageCoercionError
  /\ poisoned (after (chat_step user_message session_id) w)
  /\ log (after (chat_step user_message session_id) w) = log w.
Proof.
  intros (st & Hstate & Hall). unfold after, chat_step.
  destruct (String.eqb user_message ""); mred; rewrite Hstate; mred;
    (rewrite graph_refuses;
     [|cbn [ms_messages set_ms_messages]; now apply all_messages_poisoned]);
    (split; [reflexivity|]; split; [|reflexivity]);
    (eexists; split; [reflexivity|]);
    cbn [ms_messages set_ms_messages]; now apply all_messages_poisoned.
Qed.

Lemma poisoned_turns (turns : list (string * string)) (w : World) :
  poisoned w -> poisoned (after_turns turns w) /\ log (after_turns turns w) = log w.
Proof.
  revert w. induction turns as [|[m sid] turns IH]; intros w Hp; [now split|].
  cbn [after_turns fold_left fst snd].
  destruct (@poisoned_step m sid w Hp) as (_ & Hp' & Hlog).
  destruct (IH _ Hp') as (Hp'' & Hlog'). split; [exact Hp''|].
  unfold after_turns in Hlog'. congruence.
Qed.

Lemma chat_step_empty (session_id : string) (w : World) (st : MasterState) :
  state w = Some st ->
  chat_step "" session_id w
  = (Raise MessageCoercionError,
     with_state (Some (set_ms_messages (ms_messages st ++ [None]) st)) w).
Proof.
  intros Hstate. unfold chat_step. cbn [String.eqb]. mred. rewrite Hstate. mred.
  rewrite graph_refuses; [reflexivity|].
  cbn [ms_messages set_ms_messages]. apply all_messages_none.
Qed.

(** X3.  [chat_step] called with the empty string in a started session appends
    [None] to the stored history; the graph refuses that history (LangGraph's
    message coercion fails) before any node runs.  The [None] stays in the
    state: every later call of [chat_step], whatever its message and whatever
    calls came between, is refused the same way and adds nothing to the log. *)
Theorem empty_message_poisons_the_session
    (session_id : string) (w : World) (st : MasterState) :
  state w = Some st ->
  let w' := after (chat_step "" session_id) w in
  fst (chat_step "" session_id w) = Raise MessageCoercionError
  /\ state w' = Some (set_ms_messages (ms_messages st ++ [None]) st)
  /\ log w' = log w
  /\ forall later user_message session_id',
       fst (chat_step user_message session_id' (after_turns later w'))
       = Raise MessageCoercionError
       /\ log (after (chat_step user_message session_id') (after_turns later w')) = log w.
Proof.
  intros Hstate w'.
  pose proof (@chat_step_empty session_id w st Hstate) as Hstep.
  assert (Hw' : w' = with_state (Some (set_ms_messages (ms_messages st ++ [None]) st)) w)
    by (unfold w', after; now rewrite Hstep).
  assert (Hp : poisoned w').
  { rewrite Hw'. eexists. split; [reflexivity|].
    cbn [ms_messages set_ms_messages]. apply all_messages_none. }
  split; [now rewrite Hstep|]. split; [now rewrite Hw'|]. split; [now rewrite Hw'|].
  intros later user_message session_id'.
  destruct (@poisoned_turns later w' Hp) as (Hp' & Hlog).
  destruct (@poisoned_step user_message session_id' _ Hp') as (Hraise & _ & Hlog').
  split; [exact Hraise|]. rewrite Hlog', Hlog, Hw'. reflexivity.
Qed.

Lemma empty_message_poisons_the_session_witness :
  state session_world = Some session_state
  /\ fst (chat_step "" "A" session_world) = Raise MessageCoercionError
  /\ fst (chat_step "I want to retire early" "A" (after (chat_step "" "A") session_world))
     = Raise MessageCoercionError.
Proof.
  split; [reflexivity|].
  destruct (@empty_message_poisons_the_session "A" session_world session_state eq_refl)
    as (Hraise & _ & _ & Hlater).
  split; [exact Hraise|].
  exact (proj1 (Hlater [] "I want to retire early" "A")).
Defined.

Lemma all_messages_map_Some (l : list message) : all_messages (map Some l) = true.
Proof. unfold all_messages. induction l as [|m l IH]; [reflexivity | exact IH]. Qed.

(** The session state a turn leaves behind. *)
Lemma chat_step_state (user_message session_id : string) (w : World) :
  user_message <> "" ->
  match state w with
  | None => state (after (chat_step user_message session_id) w) = None
  | Some before =>
      state (after (chat_step user_message session_id) w)
      = Some (with_user_message (user_turn user_message w) before)
      \/ exists out w1,
           graph (with_user_message (user_turn user_message w) before)
                 (turn_started user_message before w) = (Ok out, w1)
           /\ state (after (chat_step user_message session_id) w) = Some out
  end.
Proof.
  intros Hm. destruct (state w) as [before|] eqn:Hstate.
  - destruct (graph (with_user_message (user_turn user_message w) before)
                (turn_started user_message before w)) as [[out|e] w1] eqn:Hgraph.
    + right. exists out, w1. split; [reflexivity|].
      unfold after, chat_step. apply String.eqb_neq in Hm. rewrite Hm. mred.
      rewrite Hstate. mred.
      change (graph _ _) with
        (graph (with_user_message (user_turn user_message w) before)
               (turn_started user_message before w)).
      rewrite Hgraph. mred.
      destruct (rev (cb_messages (ms_chatbot out))) as [|am rest]; [reflexivity|]. mred.
      destruct (match prev_assistant_message w1 with
                | Some p => message_eqb am p
                | None => false
                end); [|reflexivity].
      destruct (ms_planner out) as [planner|]; [|reflexivity].
      destruct (rev (pl_messages planner)) as [|pm prest]; [reflexivity|].
      match goal with
      | |- context [call_formatter ?r ?w0] =>
          pose proof (call_formatter_frame r w0) as (_ & _ & Hst & _);
          destruct (call_formatter r w0) as [[text|e] w2]
      end; cbn [snd] in Hst; mred; exact Hst.
    + left. destruct (@chat_step_graph_raises user_message session_id w before e w1
                        Hstate Hm Hgraph) as (Hstep & Hst & _).
      unfold after. now rewrite Hstep.
  - unfold after, chat_step. apply String.eqb_neq in Hm. rewrite Hm. mred.
    rewrite Hstate. mred. reflexivity.
Qed.

Lemma chat_step_keeps_clean (user_message session_id : string) (w : World) :
  user_message <> "" -> clean w -> clean (after (chat_step user_message session_id) w).
Proof.
  intros Hm Hc. pose proof (@chat_step_state user_message session_id w Hm) as H.
  unfold clean in *. destruct (state w) as [before|].
  - destruct H as [H | (out & w1 & Hgraph & H)]; rewrite H.
    + unfold with_user_message. cbn [ms_messages set_ms_messages].
      now apply all_messages_appended.
    + rewrite (@graph_messages _ _ _ _ Hgraph). apply all_messages_map_Some.
  - now rewrite H.
Qed.

Lemma strip_nonempty (s : string) : PyStr.strip s <> "" -> s <> "".
Proof. intros H ->. now apply H. Qed.

Lemma start_chat_clean (now : string) (w : World) : clean (snd (start_chat now w)).
Proof. unfold start_chat, start_session, clean. mred. reflexivity. Qed.

Lemma answer_question_clean (payload : AnswerRequest) (w : World) :
  clean w -> clean (snd (answer_question payload w)).
Proof.
  intros Hc. unfold answer_question.
  destruct (String.eqb (req_session_id payload) ""); [exact Hc|].
  destruct (String.eqb (PyStr.strip (req_message payload)) "") eqn:Hm; [exact Hc|].
  apply String.eqb_neq, strip_nonempty in Hm.
  pose proof (@chat_step_keeps_clean (req_message payload) (req_session_id payload) w Hm Hc)
    as H.
  unfold after in H.
  destruct (chat_step (req_message payload) (req_session_id payload) w) as [[a|e] w'];
    exact H.
Qed.

(** X4.  Whatever requests the endpoints [/start] and [/answer] handle, one after
    the other, from a process whose stored history holds only messages, the
    stored history holds only messages afterwards: [answer_question] answers an
    empty or blank message with status 400 and never hands it to [chat_step]. *)
Theorem endpoints_keep_the_history_clean (requests : list Request) (w : World) :
  clean w ->
  clean (served requests w) /\ ~ poisoned (served requests w).
Proof.
  intros Hc.
  assert (H : clean (served requests w)).
  { revert w Hc. induction requests as [|r requests IH]; intros w Hc; [exact Hc|].
    cbn [served fold_left]. apply IH.
    destruct r as [now|payload];
      [apply start_chat_clean | now apply answer_question_clean]. }
  split; [exact H|].
  intros (st & Hst & Hall). unfold clean in H. rewrite Hst in H. congruence.
Qed.

Lemma endpoints_keep_the_history_clean_witness :
  clean (boot no_parse [])
  /\ clean (served [StartChat "2025-01-01T00:00:00";
                    AnswerQuestion {| req_session_id := "A"; req_message := "" |};
                    AnswerQuestion {| req_session_id := "A"; req_message := "Hello" |}]
              (boot no_parse [])).
Proof.
  assert (H : clean (boot no_parse [])) by exact I.
  split; [exact H|].
  exact (proj1 (@endpoints_keep_the_history_clean
                  [StartChat "2025-01-01T00:00:00";
                   AnswerQuestion {| req_session_id := "A"; req_message := "" |};
                   AnswerQuestion {| req_session_id := "A"; req_message := "Hello" |}]
                  (boot no_parse []) H)).
Defined.

(** ** What a turn may raise *)

Section Obeys.
Context (R : World -> World -> Prop) {keeps : Keeps R} (X : exn -> Prop).

Lemma obeys_bind {A B} (c : M A) (k : A -> M B) :
  obeys R X c -> (forall a, obeys R X (k a)) -> obeys R X (bind c k).
Proof.
  intros Hc Hk w. destruct (Hc w) as [HR HX]. unfold bind.
  destruct (c w) as [[a|e] w1]; cbn [fst snd] in *.
  - destruct (Hk a w1) as [HR' HX']. split; [|exact HX'].
    eapply keeps_trans; eauto.
  - split; [exact HR | intros e' [= <-]; now apply HX].
Qed.

Lemma obeys_ret {A} (a : A) : obeys R X (ret a).
Proof. intros w. split; [apply keeps_refl | discriminate]. Qed.

Lemma obeys_gets {A} (f : World -> A) : obeys R X (gets f).
Proof. intros w. split; [apply keeps_refl | discriminate]. Qed.

Lemma obeys_raise {A} (e : exn) : X e -> obeys R X (@raise A e).
Proof. intros He w. split; [apply keeps_refl | now intros e' [= <-]]. Qed.

Lemma obeys_step {A} (c : M A) :
  (forall w, R w (snd (c w))) -> (forall w e, fst (c w) <> Raise e) -> obeys R X c.
Proof. intros HR HX w. split; [apply HR | intros e He; now apply HX in He]. Qed.

Lemma obeys_pregel {S N} (g : Graph S N) :
  X GraphRecursionError ->
  (forall e, obeys R X (record e)) ->
  (forall n s, obeys R X (body g n s)) ->
  (forall n s, obeys R X (edge g n s)) ->
  forall limit n s, obeys R X (pregel g limit n s).
Proof.
  intros HX Hrec Hbody Hedge.
  induction limit as [|limit IH]; intros n s.
  - now apply obeys_raise.
  - rewrite pregel_step.
    apply obeys_bind; [apply Hrec | intros _].
    apply obeys_bind; [apply Hbody | intros s1].
    apply obeys_bind; [apply Hedge | intros [n'|]]; [apply IH | apply obeys_ret].
Qed.
End Obeys.

Create HintDb fails discriminated.

Ltac node_failure_leaf :=
  unfold node_failure;
  first [ now left | now (right; left) | now (right; right; left)
        | now (right; right; right; left; eexists) | now (right; right; right; right) ].

#[local] Hint Extern 1 (obeys _ _ (ret _)) => apply obeys_ret; typeclasses eauto : fails.
#[local] Hint Extern 1 (obeys _ _ (gets _)) => apply obeys_gets; typeclasses eauto : fails.
#[local] Hint Extern 2 (obeys _ _ (bind _ _)) =>
  apply obeys_bind; [typeclasses eauto| |intros] : fails.
#[local] Hint Extern 1 (obeys _ _ (raise _)) =>
  apply obeys_raise; [typeclasses eauto | node_failure_leaf] : fails.
#[local] Hint Extern 1 (obeys any_world _ (modify _)) =>
  apply obeys_step; [intros; exact I | intros; discriminate] : fails.
#[local] Hint Extern 1 (obeys any_world _ fresh_id) =>
  apply obeys_step; [intros; exact I | intros; discriminate] : fails.
#[local] Hint Extern 1 (obeys any_world _ (alloc_shadow _)) =>
  apply obeys_step; [intros; exact I | intros; discriminate] : fails.
#[local] Hint Extern 1 (obeys any_world _ (alloc_real _)) =>
  apply obeys_step; [intros; exact I | intros; discriminate] : fails.
#[local] Hint Extern 3 (obeys _ _ (match ?x with _ => _ end)) => destruct x : fails.
#[local] Hint Extern 4 (obeys _ _ _) => progress cbv beta : fails.

Ltac failing := auto 80 with fails nocore.

Lemma fails_record (e : event) : obeys any_world node_failure (record e).
Proof. unfold record. failing. Qed.

Lemma fails_modify_shadow (l : loc) (f : ShadowProfile -> ShadowProfile) :
  obeys any_world node_failure (modify_shadow l f).
Proof. unfold modify_shadow. failing. Qed.

Lemma fails_modify_real (l : loc) (f : RealProfile -> RealProfile) :
  obeys any_world node_failure (modify_real l f).
Proof. unfold modify_real. failing. Qed.

Lemma fails_get_shadow (l : loc) : obeys any_world node_failure (get_shadow l).
Proof. unfold get_shadow. failing. Qed.

Lemma fails_get_real (l : loc) : obeys any_world node_failure (get_real l).
Proof. unfold get_real. failing. Qed.

Lemma fails_shadow_or_new (o : option loc) : obeys any_world node_failure (shadow_or_new o).
Proof. unfold shadow_or_new. failing. Qed.

Lemma fails_real_or_new (o : option loc) : obeys any_world node_failure (real_or_new o).
Proof. unfold real_or_new. failing. Qed.

Lemma fails_new_message (t : role) (text : string) :
  obeys any_world node_failure (new_message t text).
Proof. unfold new_message. failing. Qed.

#[local] Hint Resolve fails_record : fails.

Lemma fails_invoke (m : Model) (s : site) (prompt : list message) :
  obeys any_world node_failure (invoke m s prompt).
Proof. unfold invoke. failing. Qed.

Lemma fails_loads (text : string) : obeys any_world node_failure (loads text).
Proof. unfold loads. failing. Qed.

Lemma fails_true_div (a b : Z) : obeys any_world node_failure (true_div a b).
Proof. unfold true_div. failing. Qed.

#[local] Hint Resolve fails_modify_shadow fails_modify_real fails_get_shadow
  fails_get_real fails_shadow_or_new fails_real_or_new fails_new_message fails_invoke
  fails_loads fails_true_div : fails.

Lemma fails_call_chatbot (st : ChatbotState) : obeys any_world node_failure (call_chatbot st).
Proof. unfold call_chatbot. failing. Qed.

Lemma fails_call_extractor (st : ExtractorState) :
  obeys any_world node_failure (call_extractor st).
Proof. unfold call_extractor. failing. Qed.

Lemma fails_call_matcher (st : MatcherState) : obeys any_world node_failure (call_matcher st).
Proof. unfold call_matcher. failing. Qed.

Lemma fails_call_summarizer (st : SummarizerState) :
  obeys any_world node_failure (call_summarizer st).
Proof. unfold call_summarizer. failing. Qed.

Lemma fails_retrieve (query : string) : obeys any_world node_failure (retrieve query).
Proof. unfold retrieve. failing. Qed.

#[local] Hint Resolve fails_retrieve : fails.

Lemma fails_run_tool_calls (queries : list string) :
  obeys any_world node_failure (run_tool_calls queries).
Proof. induction queries as [|q rest IH]; cbn [run_tool_calls]; failing. Qed.

#[local] Hint Resolve fails_run_tool_calls : fails.

Lemma fails_tools_node (st : PlannerState) : obeys any_world node_failure (tools_node st).
Proof. unfold tools_node. failing. Qed.

Lemma fails_query_or_respond (st : PlannerState) :
  obeys any_world node_failure (query_or_respond st).
Proof. unfold query_or_respond. failing. Qed.

Lemma fails_call_planner (st : PlannerState) : obeys any_world node_failure (call_planner st).
Proof. unfold call_planner. failing. Qed.

Lemma fails_call_formatter (raw : string) : obeys any_world node_failure (call_formatter raw).
Proof. unfold call_formatter. failing. Qed.

#[local] Hint Resolve fails_call_chatbot fails_call_extractor fails_call_matcher
  fails_call_summarizer fails_tools_node fails_query_or_respond fails_call_planner
  fails_call_formatter : fails.

Lemma node_failure_limit : node_failure GraphRecursionError.
Proof. node_failure_leaf. Qed.

Lemma fails_chatbot_graph (s : ChatbotState) :
  obeys any_world node_failure (graph_invoke chatbot_graph s).
Proof.
  apply obeys_pregel; [typeclasses eauto | apply node_failure_limit | apply fails_record | |];
    intros n s0; cbn [chatbot_graph body edge]; failing.
Qed.

Lemma fails_extractor_graph (s : ExtractorState) :
  obeys any_world node_failure (graph_invoke extractor_graph s).
Proof.
  apply obeys_pregel; [typeclasses eauto | apply node_failure_limit | apply fails_record | |];
    intros n s0; cbn [extractor_graph body edge]; failing.
Qed.

Lemma fails_matcher_graph (s : MatcherState) :
  obeys any_world node_failure (graph_invoke matcher_graph s).
Proof.
  apply obeys_pregel; [typeclasses eauto | apply node_failure_limit | apply fails_record | |];
    intros n s0; cbn [matcher_graph body edge]; failing.
Qed.

Lemma fails_summarizer_graph (s : SummarizerState) :
  obeys any_world node_failure (graph_invoke summarizer_graph s).
Proof.
  apply obeys_pregel; [typeclasses eauto | apply node_failure_limit | apply fails_record | |];
    intros n s0; cbn [summarizer_graph body edge]; failing.
Qed.

Lemma fails_planner_graph (s : PlannerState) :
  obeys any_world node_failure (graph_invoke planner_graph s).
Proof.
  apply obeys_pregel; [typeclasses eauto | apply node_failure_limit | apply fails_record | |];
    intros n s0; destruct n; cbn [planner_graph body edge]; failing.
Qed.

#[local] Hint Resolve fails_chatbot_graph fails_extractor_graph fails_matcher_graph
  fails_summarizer_graph fails_planner_graph : fails.

Lemma fails_run_chatbot (s : MasterState) : obeys any_world node_failure (run_chatbot s).
Proof. unfold run_chatbot. failing. Qed.

Lemma fails_run_extractor (s : MasterState) : obeys any_world node_failure (run_extractor s).
Proof. unfold run_extractor. failing. Qed.

Lemma fails_run_matcher (s : MasterState) : obeys any_world node_failure (run_matcher s).
Proof. unfold run_matcher. failing. Qed.

Lemma fails_run_planner (s : MasterState) : obeys any_world node_failure (run_planner s).
Proof. unfold run_planner. failing. Qed.

Lemma obeys_bind_post {A B} (R : World -> World -> Prop) {keeps : Keeps R} (X : exn -> Prop)
    (P : A -> Prop) (c : M A) (k : A -> M B) :
  obeys R X c ->
  (forall w a w', c w = (Ok a, w') -> P a) ->
  (forall a, P a -> obeys R X (k a)) ->
  obeys R X (bind c k).
Proof.
  intros Hc HP Hk w. destruct (Hc w) as [HR HX]. unfold bind.
  destruct (c w) as [[a|e] w1] eqn:E; cbn [fst snd] in *.
  - destruct (Hk a (HP _ _ _ E) w1) as [HR' HX']. split; [|exact HX'].
    eapply keeps_trans; eauto.
  - split; [exact HR | intros e' [= <-]; now apply HX].
Qed.

(** The summarizer's sub-graph always returns a state with a summary. *)
Lemma summarizer_graph_summary (s r : SummarizerState) (w w' : World) :
  graph_invoke summarizer_graph s w = (Ok r, w') ->
  exists response,
    call_summarizer s (with_log (log w ++ [Enter "summarizer_graph" "summarizer"]) w)
    = (Ok response, w')
    /\ r = {| sm_messages := sm_messages s; sm_real_profile := sm_real_profile s;
              sm_summary := Some response |}.
Proof.
  unfold graph_invoke, recursion_limit. rewrite pregel_step. intros H.
  apply bind_ok in H. destruct H as ([] & w1 & Hrec & H).
  mred_in Hrec. injection Hrec as <-.
  apply bind_ok in H. destruct H as (s1 & w2 & Hb & H).
  cbn [summarizer_graph body edge] in Hb, H.
  apply bind_ok in Hb. destruct Hb as (summary & w3 & Hcall & Hb).
  injection Hb as <- <-. mred_in H. injection H as <- <-.
  exists summary. split; [exact Hcall | reflexivity].
Qed.

Lemma fails_run_summarizer (s : MasterState) : obeys any_world node_failure (run_summarizer s).
Proof.
  unfold run_summarizer.
  apply obeys_bind; [typeclasses eauto | apply fails_new_message | intros first].
  apply obeys_bind_post with (P := fun r => exists x, sm_summary r = Some x);
    [typeclasses eauto | apply fails_summarizer_graph | |].
  - intros w r w' H. apply summarizer_graph_summary in H.
    destruct H as (x & _ & ->). now exists x.
  - intros r (x & Hx). rewrite Hx. failing.
Qed.

Lemma fails_workflow_edge (n : master_node) (s : MasterState) :
  obeys any_world node_failure (edge workflow n s).
Proof.
  intros w. split; [exact I|]. intros e.
  destruct n.
  - rewrite chatbot_edge. discriminate.
  - cbn [workflow edge]. unfold bind.
    destruct (Z.eq_dec (total_importance (read_shadow (ms_shadow_profile s) w)) 0) as [H|H].
    + rewrite (route_decision_extractor_zero s w H). intros [= <-]. node_failure_leaf.
    + rewrite (route_decision_extractor_spec s w H).
      destruct (isReady _ _); [destruct (no_template _)|]; discriminate.
  - discriminate.
  - discriminate.
  - discriminate.
Qed.

Lemma fails_workflow (limit : nat) (n : master_node) (s : MasterState) :
  obeys any_world node_failure (pregel workflow limit n s).
Proof.
  apply obeys_pregel; [typeclasses eauto | apply node_failure_limit | apply fails_record | |].
  - intros n0 s0. destruct n0; cbn [workflow body].
    + apply fails_run_chatbot.
    + apply fails_run_extractor.
    + apply fails_run_matcher.
    + apply fails_run_planner.
    + apply fails_run_summarizer.
  - apply fails_workflow_edge.
Qed.

Lemma graph_failure (input : MasterState) (w : World) (e : exn) :
  all_messages (ms_messages input) = true ->
  fst (graph input w) = Raise e ->
  node_failure e /\ e <> GraphRecursionError.
Proof.
  intros Hall He. split.
  - revert He. unfold graph, coerce. fold (all_messages (ms_messages input)).
    rewrite Hall. rewrite bind_ret_l. apply fails_workflow.
  - destruct (@runs_graph input w) as (evs & _ & _ & _ & Hlim). congruence.
Qed.

Lemma call_formatter_failure (raw : string) (w : World) (e : exn) :
  fst (call_formatter raw w) = Raise e -> exists reason, e = ModelError reason.
Proof.
  unfold call_formatter. mred.
  destruct (replies w) as [|[reason|r] rest]; mred; intros [= <-]; eauto.
Qed.

Lemma node_failure_turn (e : exn) :
  node_failure e -> e <> GraphRecursionError -> turn_failure e.
Proof.
  unfold node_failure, turn_failure. intros [H|[H|[H|[H|H]]]] Hne; auto. contradiction.
Qed.



(** ** The model requests of a turn *)

Lemma requests_in_app (a b : list event) :
  requests_in (a ++ b) = (requests_in a + requests_in b)%nat.
Proof. unfold requests_in. now rewrite filter_app, length_app. Qed.

Lemma costs_bind {A B} (n N : nat) (c : M A) (k : A -> M B) :
  costs n c -> (n <= N)%nat -> (forall a, costs (N - n) (k a)) -> costs N (bind c k).
Proof.
  intros Hc Hle Hk w. destruct (Hc w) as (evs1 & Hl1 & Hn1). unfold bind.
  destruct (c w) as [[a|e] w1]; cbn [fst snd] in *.
  - destruct (Hk a w1) as (evs2 & Hl2 & Hn2).
    exists (evs1 ++ evs2). rewrite Hl2, Hl1, app_assoc, requests_in_app. split; [reflexivity | lia].
  - exists evs1. split; [exact Hl1 | lia].
Qed.

Lemma costs_weaken {A} (n N : nat) (c : M A) : costs n c -> (n <= N)%nat -> costs N c.
Proof.
  intros Hc Hle w. destruct (Hc w) as (evs & Hl & Hn). exists evs. split; [exact Hl | lia].
Qed.

Lemma costs_silent {A} (c : M A) : (forall w, log (snd (c w)) = log w) -> costs 0 c.
Proof. intros H w. exists []. rewrite app_nil_r. split; [apply H | apply Nat.le_refl]. Qed.

Lemma costs_ret {A} (a : A) : costs 0 (ret a).
Proof. now apply costs_silent. Qed.

Lemma costs_raise {A} (e : exn) : costs 0 (@raise A e).
Proof. now apply costs_silent. Qed.

Lemma costs_gets {A} (f : World -> A) : costs 0 (gets f).
Proof. now apply costs_silent. Qed.

Lemma costs_record (e : event) : costs (if is_request e then 1 else 0) (record e).
Proof.
  intros w. exists [e]. split; [reflexivity|].
  unfold requests_in. cbn. destruct (is_request e); cbn; lia.
Qed.

Create HintDb costs discriminated.

#[local] Hint Resolve costs_ret costs_raise costs_gets : costs.
#[local] Hint Extern 1 (costs _ (modify _)) => apply costs_silent; reflexivity : costs.
#[local] Hint Extern 1 (costs _ fresh_id) => apply costs_silent; reflexivity : costs.
#[local] Hint Extern 1 (costs _ (alloc_shadow _)) => apply costs_silent; reflexivity : costs.
#[local] Hint Extern 1 (costs _ (alloc_real _)) => apply costs_silent; reflexivity : costs.
#[local] Hint Extern 1 (costs _ (modify_shadow _ _)) => apply costs_silent; reflexivity : costs.
#[local] Hint Extern 1 (costs _ (modify_real _ _)) => apply costs_silent; reflexivity : costs.
#[local] Hint Extern 1 (costs _ (get_shadow _)) => apply costs_silent; reflexivity : costs.
#[local] Hint Extern 1 (costs _ (get_real _)) => apply costs_silent; reflexivity : costs.

(** The cost of a computation whose head is known to the hint database, of a
    sequence, and of a case distinction. *)
Ltac costing :=
  lazymatch goal with
  | |- costs ?N (bind ?c ?k) =>
      first [ costing_bind 0%nat | costing_bind 1%nat | costing_bind 2%nat
            | costing_bind 3%nat | costing_bind 4%nat | costing_bind 5%nat ]
  | |- costs _ (match ?x with _ => _ end) => destruct x; costing
  | |- costs _ (let '(_, _) := ?x in _) => destruct x; costing
  | |- costs _ _ =>
      first [ solve [eapply costs_weaken; [solve [eauto with costs nocore] | cbn; lia]]
            | progress cbv beta; costing ]
  end
with costing_bind n :=
  apply (@costs_bind _ _ n);
  [ costing | cbn; lia | intros; cbn [Nat.sub]; costing ].

Lemma costs_shadow_or_new (o : option loc) : costs 0 (shadow_or_new o).
Proof. unfold shadow_or_new. costing. Qed.

Lemma costs_real_or_new (o : option loc) : costs 0 (real_or_new o).
Proof. unfold real_or_new. costing. Qed.

Lemma costs_new_message (t : role) (text : string) : costs 0 (new_message t text).
Proof. unfold new_message. costing. Qed.

Lemma costs_loads (text : string) : costs 0 (loads text).
Proof. unfold loads. costing. Qed.

Lemma costs_request (m : Model) (s : site) (prompt : list message) :
  costs 1 (record (Invoke m s prompt)).
Proof. exact (costs_record (Invoke m s prompt)). Qed.

Lemma costs_enter (g n : string) : costs 0 (record (Enter g n)).
Proof. exact (costs_record (Enter g n)). Qed.

#[local] Hint Resolve costs_shadow_or_new costs_real_or_new costs_new_message costs_loads
  costs_request costs_enter : costs.

Lemma costs_invoke (m : Model) (s : site) (prompt : list message) :
  costs 1 (invoke m s prompt).
Proof. unfold invoke. costing. Qed.

#[local] Hint Resolve costs_invoke : costs.

Lemma costs_call_chatbot (st : ChatbotState) : costs 1 (call_chatbot st).
Proof. unfold call_chatbot. costing. Qed.

Lemma costs_call_extractor (st : ExtractorState) : costs 2 (call_extractor st).
Proof. unfold call_extractor. costing. Qed.

Lemma costs_call_matcher (st : MatcherState) : costs 1 (call_matcher st).
Proof. unfold call_matcher. costing. Qed.

Lemma costs_call_summarizer (st : SummarizerState) : costs 1 (call_summarizer st).
Proof. unfold call_summarizer. costing. Qed.

Lemma costs_retrieve (query : string) : costs 0 (retrieve query).
Proof. unfold retrieve. costing. Qed.

#[local] Hint Resolve costs_retrieve : costs.

Lemma costs_run_tool_calls (queries : list string) : costs 0 (run_tool_calls queries).
Proof.
  induction queries as [|q rest IH]; cbn [run_tool_calls]; [apply costs_ret|].
  apply (@costs_bind _ _ 0%nat); [apply costs_retrieve | lia | intros text].
  apply (@costs_bind _ _ 0%nat); [apply costs_silent; reflexivity | lia | intros i].
  apply (@costs_bind _ _ 0%nat); [exact IH | lia | intros more]. apply costs_ret.
Qed.

#[local] Hint Resolve costs_run_tool_calls : costs.

Lemma costs_tools_node (st : PlannerState) : costs 0 (tools_node st).
Proof. unfold tools_node. costing. Qed.

Lemma costs_query_or_respond (st : PlannerState) : costs 1 (query_or_respond st).
Proof. unfold query_or_respond. costing. Qed.

Lemma costs_call_planner (st : PlannerState) : costs 1 (call_planner st).
Proof. unfold call_planner. costing. Qed.

Lemma costs_call_formatter (raw : string) : costs 1 (call_formatter raw).
Proof. unfold call_formatter. costing. Qed.

#[local] Hint Resolve costs_call_chatbot costs_call_extractor costs_call_matcher
  costs_call_summarizer costs_tools_node costs_query_or_respond costs_call_planner
  costs_call_formatter : costs.

(** A graph of one node costs what its node costs. *)
Lemma costs_single_node {S} (g : Graph S unit) (n : nat) (s : S) :
  (forall s', costs n (body g tt s')) ->
  (forall s', edge g tt s' = ret None) ->
  costs n (graph_invoke g s).
Proof.
  intros Hbody Hedge. unfold graph_invoke, recursion_limit. rewrite pregel_step.
  destruct (entry_point g).
  apply (@costs_bind _ _ 0%nat); [apply costs_enter | lia | intros _].
  rewrite Nat.sub_0_r.
  apply (@costs_bind _ _ n); [apply Hbody | lia | intros s'].
  rewrite Hedge, bind_ret_l, Nat.sub_diag. apply costs_ret.
Qed.

Lemma costs_chatbot_graph (s : ChatbotState) : costs 1 (graph_invoke chatbot_graph s).
Proof.
  apply costs_single_node; [|reflexivity].
  intros s'. cbn [chatbot_graph body]. costing.
Qed.

Lemma costs_extractor_graph (s : ExtractorState) : costs 2 (graph_invoke extractor_graph s).
Proof.
  apply costs_single_node; [|reflexivity].
  intros s'. cbn [extractor_graph body]. costing.
Qed.

Lemma costs_matcher_graph (s : MatcherState) : costs 1 (graph_invoke matcher_graph s).
Proof.
  apply costs_single_node; [|reflexivity].
  intros s'. cbn [matcher_graph body]. costing.
Qed.

Lemma costs_summarizer_graph (s : SummarizerState) :
  costs 1 (graph_invoke summarizer_graph s).
Proof.
  apply costs_single_node; [|reflexivity].
  intros s'. cbn [summarizer_graph body]. costing.
Qed.

Lemma costs_planner_graph (s : PlannerState) : costs 2 (graph_invoke planner_graph s).
Proof.
  unfold graph_invoke, recursion_limit.
  rewrite pregel_step. cbn [planner_graph body edge graph_name node_name entry_point].
  apply (@costs_bind _ _ 0%nat); [apply costs_enter | lia | intros _]. cbn [Nat.sub].
  apply (@costs_bind _ _ 1%nat); [costing | lia | intros s1]. cbn [Nat.sub].
  rewrite bind_ret_l. destruct (tools_condition s1); [|apply costs_weaken with 0%nat; [apply costs_ret | lia]].
  rewrite pregel_step. cbn [planner_graph body edge graph_name node_name entry_point].
  apply (@costs_bind _ _ 0%nat); [apply costs_enter | lia | intros _]. cbn [Nat.sub].
  apply (@costs_bind _ _ 0%nat); [costing | lia | intros s2]. cbn [Nat.sub].
  rewrite bind_ret_l.
  rewrite pregel_step. cbn [planner_graph body edge graph_name node_name entry_point].
  apply (@costs_bind _ _ 0%nat); [apply costs_enter | lia | intros _]. cbn [Nat.sub].
  apply (@costs_bind _ _ 1%nat); [costing | lia | intros s3]. cbn [Nat.sub].
  rewrite bind_ret_l. apply costs_ret.
Qed.

#[local] Hint Resolve costs_chatbot_graph costs_extractor_graph costs_matcher_graph
  costs_summarizer_graph costs_planner_graph : costs.

Lemma costs_run_chatbot (s : MasterState) : costs 1 (run_chatbot s).
Proof. unfold run_chatbot. costing. Qed.

Lemma costs_run_extractor (s : MasterState) : costs 2 (run_extractor s).
Proof. unfold run_extractor. costing. Qed.

Lemma costs_run_matcher (s : MasterState) : costs 1 (run_matcher s).
Proof. unfold run_matcher. costing. Qed.

Lemma costs_run_planner (s : MasterState) : costs 2 (run_planner s).
Proof. unfold run_planner. costing. Qed.

Lemma costs_run_summarizer (s : MasterState) : costs 1 (run_summarizer s).
Proof. unfold run_summarizer. costing. Qed.

Lemma costs_bind_post {A B} (P : A -> Prop) (n N : nat) (c : M A) (k : A -> M B) :
  costs n c -> (n <= N)%nat ->
  (forall w a w', c w = (Ok a, w') -> P a) ->
  (forall a, P a -> costs (N - n) (k a)) ->
  costs N (bind c k).
Proof.
  intros Hc Hle HP Hk w. destruct (Hc w) as (evs1 & Hl1 & Hn1). unfold bind.
  destruct (c w) as [[a|e] w1] eqn:E; cbn [fst snd] in *.
  - destruct (Hk a (HP _ _ _ E) w1) as (evs2 & Hl2 & Hn2).
    exists (evs1 ++ evs2). rewrite Hl2, Hl1, app_assoc, requests_in_app. split; [reflexivity | lia].
  - exists evs1. split; [exact Hl1 | lia].
Qed.

Lemma costs_workflow_edge (n : master_node) (s : MasterState) : costs 0 (edge workflow n s).
Proof. apply costs_silent. intros w. now rewrite workflow_edge_world. Qed.

Lemma costs_summarizer_node (f : nat) (s : MasterState) :
  costs 1 (pregel workflow f Summarizer s).
Proof.
  destruct f as [|f]; [apply costs_weaken with 0%nat; [apply costs_raise | lia]|].
  rewrite pregel_step. cbn [workflow body edge graph_name node_name].
  apply (@costs_bind _ _ 0%nat); [apply costs_enter | lia | intros _]. cbn [Nat.sub].
  apply (@costs_bind _ _ 1%nat); [apply costs_run_summarizer | lia | intros s1]. cbn [Nat.sub].
  rewrite bind_ret_l. apply costs_ret.
Qed.

Lemma costs_chatbot_node (f : nat) (s : MasterState) :
  costs 2 (pregel workflow f Chatbot s).
Proof.
  destruct f as [|f]; [apply costs_weaken with 0%nat; [apply costs_raise | lia]|].
  rewrite pregel_step. cbn [workflow body graph_name node_name].
  apply (@costs_bind _ _ 0%nat); [apply costs_enter | lia | intros _]. cbn [Nat.sub].
  apply (@costs_bind _ _ 1%nat); [apply costs_run_chatbot | lia | intros s1]. cbn [Nat.sub].
  apply (@costs_bind_post _ _ (fun next => next = Some Summarizer \/ next = None) 0%nat);
    [apply costs_workflow_edge | lia | |].
  - intros w a w'. rewrite chatbot_edge. intros [= <- _].
    match goal with |- context [if ?b then _ else _] => destruct b end; auto.
  - intros next [-> | ->]; cbn [Nat.sub];
      [apply costs_summarizer_node | apply costs_weaken with 0%nat; [apply costs_ret | lia]].
Qed.

Lemma costs_planner_node (f : nat) (s : MasterState) :
  costs 2 (pregel workflow f Planner s).
Proof.
  destruct f as [|f]; [apply costs_weaken with 0%nat; [apply costs_raise | lia]|].
  rewrite pregel_step. cbn [workflow body edge graph_name node_name].
  apply (@costs_bind _ _ 0%nat); [apply costs_enter | lia | intros _]. cbn [Nat.sub].
  apply (@costs_bind _ _ 2%nat); [apply costs_run_planner | lia | intros s1]. cbn [Nat.sub].
  rewrite bind_ret_l. apply costs_ret.
Qed.

Lemma costs_matcher_node (f : nat) (s : MasterState) :
  costs 3 (pregel workflow f Matcher s).
Proof.
  destruct f as [|f]; [apply costs_weaken with 0%nat; [apply costs_raise | lia]|].
  rewrite pregel_step. cbn [workflow body edge graph_name node_name].
  apply (@costs_bind _ _ 0%nat); [apply costs_enter | lia | intros _]. cbn [Nat.sub].
  apply (@costs_bind _ _ 1%nat); [apply costs_run_matcher | lia | intros s1]. cbn [Nat.sub].
  rewrite bind_ret_l. apply costs_chatbot_node.
Qed.

Lemma costs_extractor_node (f : nat) (s : MasterState) :
  costs 5 (pregel workflow f Extractor s).
Proof.
  destruct f as [|f]; [apply costs_weaken with 0%nat; [apply costs_raise | lia]|].
  rewrite pregel_step. cbn [workflow body graph_name node_name].
  apply (@costs_bind _ _ 0%nat); [apply costs_enter | lia | intros _]. cbn [Nat.sub].
  apply (@costs_bind _ _ 2%nat); [apply costs_run_extractor | lia | intros s1]. cbn [Nat.sub].
  apply (@costs_bind_post _ _
           (fun next => next = Some Matcher \/ next = Some Planner \/ next = Some Chatbot)
           0%nat);
    [apply costs_workflow_edge | lia | |].
  - intros w a w' H. exact (@extractor_edge_targets s1 w a w' H).
  - intros next [-> | [-> | ->]]; cbn [Nat.sub].
    + apply costs_matcher_node.
    + apply costs_weaken with 2%nat; [apply costs_planner_node | lia].
    + apply costs_weaken with 2%nat; [apply costs_chatbot_node | lia].
Qed.

Lemma costs_graph (input : MasterState) : costs 5 (graph input).
Proof.
  unfold graph.
  apply (@costs_bind _ _ 0%nat); [unfold coerce; costing | lia | intros msgs].
  apply costs_extractor_node.
Qed.

#[local] Hint Resolve costs_graph : costs.

(** X6.  A call of [chat_step], whether it returns or raises, only appends to the
    log, and appends at most six requests to a language model. *)
Theorem turn_makes_at_most_six_requests (user_message session_id : string) (w : World) :
  exists evs,
    log (after (chat_step user_message session_id) w) = log w ++ evs
    /\ (requests_in evs <= 6)%nat.
Proof.
  assert (H : costs 6 (chat_step user_message session_id)).
  { unfold chat_step. costing. }
  exact (H w).
Qed.

(** ** The interviewer's request *)

Lemma prefix_append (n b : string) : String.prefix n (n +++ b) = true.
Proof.
  induction n as [|c n IH]; cbn; [now destruct b|].
  destruct (ascii_dec c c); [exact IH | congruence].
Qed.

Lemma contains_append_r (n a s : string) :
  PyStr.contains n s = true -> PyStr.contains n (a +++ s) = true.
Proof.
  intros H. induction a as [|c a IH]; cbn [String.append]; [exact H|].
  cbn [PyStr.contains]. rewrite IH. apply orb_true_r.
Qed.

Lemma contains_here (n b : string) : PyStr.contains n (n +++ b) = true.
Proof.
  destruct (n +++ b) eqn:E; cbn [PyStr.contains]; rewrite <- E, prefix_append; reflexivity.
Qed.

Lemma contains_middle (n a b : string) : PyStr.contains n (a +++ n +++ b) = true.
Proof. apply contains_append_r, contains_here. Qed.

Lemma profile_prompt_is_snapshot (d : ShadowProfile) (text : string) :
  PyStr.contains profile_status_marker (profile_prompt d text) = true.
Proof. unfold profile_prompt. apply contains_middle. Qed.

Lemma insert_desc_perm (x : string * Z) (l : list (string * Z)) :
  Permutation (insert_desc x l) (x :: l).
Proof.
  induction l as [|y l IH]; cbn; [reflexivity|].
  destruct (snd x <? snd y)%Z; [|reflexivity].
  rewrite IH. apply perm_swap.
Qed.

Lemma sort_desc_perm (l : list (string * Z)) : Permutation (sort_desc l) l.
Proof.
  induction l as [|x l IH]; cbn; [reflexivity|].
  rewrite insert_desc_perm. now apply perm_skip.
Qed.

Lemma insert_desc_sorted (x : string * Z) (l : list (string * Z)) :
  StronglySorted (fun a b => (snd b <= snd a)%Z) l ->
  StronglySorted (fun a b => (snd b <= snd a)%Z) (insert_desc x l).
Proof.
  induction l as [|y l IH]; intros Hs; cbn.
  - repeat constructor.
  - apply StronglySorted_inv in Hs. destruct Hs as [Hl Hy].
    destruct (snd x <? snd y)%Z eqn:E.
    + apply Z.ltb_lt in E. constructor; [now apply IH|].
      apply Forall_forall. intros z Hz.
      apply (Permutation_in _ (insert_desc_perm x l)) in Hz.
      destruct Hz as [<- | Hz]; [lia|].
      rewrite Forall_forall in Hy. now apply Hy.
    + apply Z.ltb_ge in E. constructor; [now constructor|].
      constructor; [exact E|].
      apply Forall_forall. intros z Hz. rewrite Forall_forall in Hy.
      specialize (Hy z Hz). lia.
Qed.

Lemma sort_desc_sorted (l : list (string * Z)) :
  StronglySorted (fun a b => (snd b <= snd a)%Z) (sort_desc l).
Proof.
  induction l as [|x l IH]; cbn; [constructor | now apply insert_desc_sorted].
Qed.

(** The first of the sorted fields is the first of the most important ones. *)
Lemma sort_desc_head (l : list (string * Z)) (x : string * Z) (rest : list (string * Z)) :
  sort_desc l = x :: rest ->
  exists before later,
    l = before ++ x :: later
    /\ (forall y, In y before -> (snd y < snd x)%Z)
    /\ (forall y, In y later -> (snd y <= snd x)%Z).
Proof.
  revert x rest. induction l as [|a l IH]; intros x rest H; [discriminate|].
  cbn [sort_desc fold_right] in H. fold (sort_desc l) in H.
  destruct (sort_desc l) as [|y sorted] eqn:E.
  - cbn in H. injection H as <- <-.
    assert (l = []) as ->.
    { apply Permutation_nil. rewrite <- E. apply sort_desc_perm. }
    exists [], []. repeat split; intros y [].
  - cbn [insert_desc] in H. destruct (IH y sorted eq_refl) as (before & later & -> & Hb & Hl).
    destruct (snd a <? snd y)%Z eqn:Ea.
    + apply Z.ltb_lt in Ea. injection H as <- _.
      exists (a :: before), later. split; [reflexivity|]. split; [|exact Hl].
      intros z [<- | Hz]; [exact Ea | now apply Hb].
    + apply Z.ltb_ge in Ea. injection H as <- _.
      exists [], (before ++ y :: later). split; [reflexivity|]. split; [intros z []|].
      intros z Hz. apply in_app_or in Hz. destruct Hz as [Hz | [<- | Hz]].
      * specialize (Hb z Hz). lia.
      * exact Ea.
      * specialize (Hl z Hz). lia.
Qed.

Lemma join_lines_nonempty (missing : list (string * Z)) :
  missing <> [] -> String.eqb (PyStr.join nl (map missing_line missing)) "" = false.
Proof.
  destruct missing as [|x rest]; [congruence|]. intros _.
  cbn [map PyStr.join]. destruct (map missing_line rest); reflexivity.
Qed.

Lemma missing_fields_text_code (d : ShadowProfile) :
  (let joined :=
     PyStr.join nl
       (map (fun fi => "- " +++ fst fi +++ " (importance: " +++ PyStr.of_Z (snd fi) +++ ")")
            (sort_desc
               (map (fun kv => (fst kv, importance (snd kv)))
                    (filter (fun kv => negb (normalize_collected (collected (snd kv)))) d)))) in
   if String.eqb joined "" then "None" else joined)
  = missing_fields_text d.
Proof.
  cbv zeta. unfold missing_fields_text, normalize_collected. fold (uncollected d).
  change (fun fi : string * Z =>
            "- " +++ fst fi +++ " (importance: " +++ PyStr.of_Z (snd fi) +++ ")")
    with missing_line.
  destruct (sort_desc (uncollected d)) as [|x rest] eqn:E; [reflexivity|].
  now rewrite join_lines_nonempty.
Qed.

Lemma call_chatbot_request (st : ChatbotState) (w : World) :
  log (after (call_chatbot st) w)
  = log w ++ [Invoke model_chatbot Chat
                (interview_history (cb_messages st) ++ [snapshot_of st w])].
Proof.
  unfold after, call_chatbot, snapshot_of, shown_profile.
  destruct (cb_shadow_profile st) as [l0|]; mred.
  - destruct (nth l0 (shadows w) []) as [|kv d] eqn:Ed; mred.
    + rewrite nth_alloc, missing_fields_text_code.
      destruct (replies w) as [|[reason|r] rest]; mred; reflexivity.
    + rewrite Ed, missing_fields_text_code.
      destruct (replies w) as [|[reason|r] rest]; mred; try reflexivity.
      destruct (sort_desc _) as [|top more]; mred; [reflexivity|].
      destruct (PyStr.startswith _ _); mred; reflexivity.
  - rewrite nth_alloc. mred. rewrite nth_alloc, missing_fields_text_code.
    destruct (replies w) as [|[reason|r] rest]; mred; reflexivity.
Qed.

Lemma interview_history_head (msgs : list message) :
  exists first rest,
    interview_history msgs = first :: rest /\ is_system_prompt first = true.
Proof.
  assert (Hkeep : forall m, is_system_prompt m = true -> negb (is_snapshot m) = true).
  { intros m H. unfold is_system_prompt in H. apply andb_prop in H. destruct H as [H _].
    apply role_eqb_eq in H. unfold is_snapshot. now rewrite H. }
  unfold interview_history.
  destruct msgs as [|m0 msgs].
  - cbn [filter]. rewrite (Hkeep system_prompt_chatbot eq_refl). eauto.
  - destruct (is_system_prompt m0) eqn:E; cbn [filter].
    + rewrite (Hkeep m0 E). eauto.
    + rewrite (Hkeep system_prompt_chatbot eq_refl). eauto.
Qed.

Lemma interview_history_in (msgs : list message) (m : message) :
  In m (interview_history msgs) ->
  is_snapshot m = false /\ (m = system_prompt_chatbot \/ In m msgs).
Proof.
  unfold interview_history. intros H. apply filter_In in H. destruct H as [H Hs].
  apply negb_true_iff in Hs. split; [exact Hs|].
  destruct msgs as [|m0 msgs]; [destruct H as [<- | []]; now left|].
  destruct (is_system_prompt m0); [now right|].
  destruct H as [<- | H]; [now left | now right].
Qed.

Lemma interview_history_keeps (msgs : list message) (m : message) :
  In m msgs -> is_snapshot m = false -> In m (interview_history msgs).
Proof.
  intros Hin Hs. unfold interview_history. apply filter_In. split; [|now rewrite Hs].
  destruct msgs as [|m0 msgs]; [destruct Hin|].
  destruct (is_system_prompt m0); [exact Hin | now right].
Qed.

(** X7.  [call_chatbot] sends the interviewer's model one request, whatever its
    state: a history followed by one new snapshot of the profile.  The history
    starts with a system prompt that names NestWise, holds no snapshot of an
    earlier turn, keeps every other message of the state, and holds nothing
    but messages of the state and the module's system prompt. *)
Theorem interviewer_prompt_frame (st : ChatbotState) (w : World) :
  exists history snapshot,
    log (after (call_chatbot st) w)
    = log w ++ [Invoke model_chatbot Chat (history ++ [snapshot])]
    /\ (exists first rest, history = first :: rest /\ is_system_prompt first = true)
    /\ is_snapshot snapshot = true
    /\ Forall (fun m => is_snapshot m = false) history
    /\ (forall m, In m (cb_messages st) -> is_snapshot m = false -> In m history)
    /\ (forall m, In m history -> m = system_prompt_chatbot \/ In m (cb_messages st)).
Proof.
  exists (interview_history (cb_messages st)), (snapshot_of st w).
  split; [apply call_chatbot_request|].
  split; [apply interview_history_head|].
  split; [unfold is_snapshot, snapshot_of; cbn [mtype content role_eqb andb];
          apply profile_prompt_is_snapshot|].
  split; [apply Forall_forall; intros m H; now apply interview_history_in in H|].
  split; [intros m; apply interview_history_keeps|].
  intros m H. now apply interview_history_in in H.
Qed.


Lemma sort_desc_nil (l : list (string * Z)) : sort_desc l = [] <-> l = [].
Proof.
  split; [|now intros ->].
  intros E. apply Permutation_nil. rewrite <- E. apply sort_desc_perm.
Qed.

(** X9.  When the model answers, [call_chatbot] returns the history it sent, the
    snapshot, and one AI message.  If the reply starts (after stripping, in any
    case) with "all necessary info collected" while a field is still
    uncollected, that message is not the reply but the question "Could you
    please provide your <field>?" for the first field of highest importance,
    underscores shown as spaces; otherwise it is the model's reply. *)
Theorem interviewer_overrides_a_premature_end
    (st : ChatbotState) (w : World) (r : AIReply) (rest : list reply) :
  replies w = Says r :: rest ->
  let d := shown_profile (cb_shadow_profile st) w in
  exists out w' last,
    call_chatbot st w = (Ok out, w')
    /\ cb_messages out = interview_history (cb_messages st) ++ [snapshot_of st w] ++ [last]
    /\ mtype last = ai
    /\ (claims_all_collected r = true -> uncollected d <> [] ->
        exists field imp before later,
          uncollected d = before ++ (field, imp) :: later
          /\ (forall y, In y before -> (snd y < imp)%Z)
          /\ (forall y, In y later -> (snd y <= imp)%Z)
          /\ content last
             = "Could you please provide your " +++ PyStr.replace_char "_" " " field +++ "?"
          /\ tool_calls last = [])
    /\ (claims_all_collected r = false \/ uncollected d = [] ->
        content last = r_content r /\ tool_calls last = r_tool_calls r).
Proof.
  intros Hrep d. unfold d, shown_profile, claims_all_collected, reply_text_of.
  unfold call_chatbot, snapshot_of, shown_profile.
  destruct (cb_shadow_profile st) as [l0|]; mred.
  - destruct (nth l0 (shadows w) []) as [|kv d0] eqn:Ed; mred.
    + rewrite nth_alloc, missing_fields_text_code, Hrep. mred.
      do 3 eexists. split; [reflexivity|]. mred. rewrite <- app_assoc.
      split; [reflexivity|]. split; [reflexivity|]. split; [|intros _; now split].
      intros _ H. now contradiction H.
    + rewrite Ed, missing_fields_text_code, Hrep. mred.
      unfold normalize_collected. fold (uncollected (kv :: d0)).
      change (message_str _) with ("content=" +++ PyStr.repr (r_content r)).
      destruct (sort_desc (uncollected (kv :: d0))) as [|[field imp] more] eqn:Es; mred.
      * apply (proj1 (sort_desc_nil _)) in Es.
        do 3 eexists. split; [reflexivity|]. mred. rewrite <- app_assoc.
        split; [reflexivity|]. split; [reflexivity|]. split; [|intros _; now split].
        intros _ H. contradiction.
      * destruct (sort_desc_head _ Es) as (before & later & Hu & Hb & Hl).
        destruct (PyStr.startswith _ _) eqn:Ec; mred;
          (do 3 eexists; split; [reflexivity|]; mred; rewrite <- app_assoc;
           split; [reflexivity|]; split; [reflexivity|]; split).
        -- intros _ _. exists field, imp, before, later. repeat split; auto.
        -- intros [H|H]; [discriminate H|]. rewrite H in Hu. now destruct before.
        -- intros H. discriminate H.
        -- intros _. now split.
  - rewrite nth_alloc. mred. rewrite nth_alloc, missing_fields_text_code, Hrep. mred.
    do 3 eexists. split; [reflexivity|]. mred. rewrite <- app_assoc.
    split; [reflexivity|]. split; [reflexivity|]. split; [|intros _; now split].
    intros _ H. now contradiction H.
Qed.

Lemma interviewer_overrides_a_premature_end_witness :
  replies premature_world = [says "All necessary info collected. Thank you!"]
  /\ exists out w' last field,
       call_chatbot new_chatbot_state premature_world = (Ok out, w')
       /\ cb_messages out
          = interview_history (cb_messages new_chatbot_state)
            ++ [snapshot_of new_chatbot_state premature_world] ++ [last]
       /\ content last
          = "Could you please provide your " +++ PyStr.replace_char "_" " " field +++ "?".
Proof.
  split; [reflexivity|].
  destruct (@interviewer_overrides_a_premature_end new_chatbot_state premature_world
              {| r_content := "All necessary info collected. Thank you!"; r_tool_calls := [] |}
              [] eq_refl)
    as (out & w' & last & Hrun & Hmsgs & _ & Hover & _).
  destruct Hover as (field & imp & before & later & _ & _ & _ & Hcontent & _);
    [vm_compute; reflexivity | vm_compute; discriminate |].
  exists out, w', last, field. split; [exact Hrun|]. split; [exact Hmsgs | exact Hcontent].
Defined.

(** ** What the extractor writes *)

Section MoreDictFacts.
Context {V : Type}.
Implicit Types (d o : list (string * V)) (k : string) (v : V).

Lemma keys_set_in k v d :
  Dict.mem k d = true -> Dict.keys (Dict.set k v d) = Dict.keys d.
Proof.
  unfold Dict.mem, Dict.keys.
  induction d as [|[k' v'] d IH]; cbn; [discriminate|].
  destruct (String.eqb k k') eqn:E; cbn; [reflexivity|].
  intros H. now rewrite IH.
Qed.

Lemma keys_set_new k v d :
  Dict.mem k d = false -> Dict.keys (Dict.set k v d) = Dict.keys d ++ [k].
Proof.
  unfold Dict.mem, Dict.keys.
  induction d as [|[k' v'] d IH]; cbn; [reflexivity|].
  destruct (String.eqb k k') eqn:E; cbn; [discriminate|].
  intros H. now rewrite IH.
Qed.

Lemma mem_in_keys k d : Dict.mem k d = true <-> In k (Dict.keys d).
Proof.
  unfold Dict.mem, Dict.keys.
  induction d as [|[k' v'] d IH]; cbn; [split; [discriminate | tauto]|].
  destruct (String.eqb k k') eqn:E.
  - apply String.eqb_eq in E. subst. split; auto.
  - apply String.eqb_neq in E. rewrite IH. split; [auto | intros [H|H]; congruence].
Qed.

Lemma keys_set_nodup k v d : NoDup (Dict.keys d) -> NoDup (Dict.keys (Dict.set k v d)).
Proof.
  intros H. destruct (Dict.mem k d) eqn:E.
  - now rewrite keys_set_in.
  - rewrite keys_set_new by exact E.
    apply NoDup_app; [exact H | repeat constructor; intros [] |].
    intros x Hx [<- | []]. apply mem_in_keys in Hx. congruence.
Qed.

Lemma keys_update_nodup d o : NoDup (Dict.keys d) -> NoDup (Dict.keys (Dict.update d o)).
Proof.
  unfold Dict.update. revert d.
  induction o as [|[k v] o IH]; intros d H; cbn; [exact H|].
  apply IH. now apply keys_set_nodup.
Qed.

Lemma keys_of_pairs_nodup o : NoDup (Dict.keys (Dict.of_pairs o)).
Proof. unfold Dict.of_pairs. apply keys_update_nodup. constructor. Qed.

Lemma get_update k d o :
  NoDup (Dict.keys o) ->
  Dict.get k (Dict.update d o)
  = match Dict.get k o with
    | Some v => Some v
    | None => Dict.get k d
    end.
Proof.
  unfold Dict.update. revert d.
  induction o as [|[k' v'] o IH]; intros d Hnd; cbn; [reflexivity|].
  cbn in Hnd. apply NoDup_cons_iff in Hnd. destruct Hnd as [Hnot Hnd].
  rewrite (IH _ Hnd).
  destruct (String.eqb k k') eqn:E.
  - apply String.eqb_eq in E. subst k'.
    assert (Dict.get k o = None) as ->.
    { apply DictFacts.mem_false_get. destruct (Dict.mem k o) eqn:Em; [|reflexivity].
      apply mem_in_keys in Em. contradiction. }
    apply DictFacts.get_set_eq.
  - apply String.eqb_neq in E. now rewrite DictFacts.get_set_neq.
Qed.

Lemma mem_update k d o :
  Dict.mem k d = true -> Dict.mem k (Dict.update d o) = true.
Proof.
  unfold Dict.update. revert d.
  induction o as [|[k' v'] o IH]; intros d H; cbn; [exact H|].
  apply IH. rewrite DictFacts.mem_set, H. apply orb_true_r.
Qed.
End MoreDictFacts.

Lemma existsb_keys {V} (k : string) (d : list (string * V)) :
  existsb (String.eqb k) (Dict.keys d) = Dict.mem k d.
Proof.
  unfold Dict.mem, Dict.keys.
  induction d as [|[k' v'] d IH]; cbn; [reflexivity|].
  destruct (String.eqb k k'); [reflexivity | exact IH].
Qed.

Lemma get_mark_collected (ks : list string) (d : ShadowProfile) (k : string) :
  Dict.get k (mark_collected ks d)
  = option_map
      (fun e => {| collected := collected e || existsb (String.eqb k) ks;
                   importance := importance e |})
      (Dict.get k d).
Proof.
  unfold mark_collected.
  induction d as [|[k' e] d IH]; cbn [map Dict.get fst snd]; [reflexivity|].
  destruct (existsb (String.eqb k') ks) eqn:Ex; cbn [Dict.get fst snd];
    destruct (String.eqb k k') eqn:E; try exact IH; cbn [option_map].
  - apply String.eqb_eq in E. subst. rewrite Ex, orb_true_r. reflexivity.
  - apply String.eqb_eq in E. subst. rewrite Ex, orb_false_r. now destruct e.
Qed.

Lemma keys_mark_collected (ks : list string) (d : ShadowProfile) :
  Dict.keys (mark_collected ks d) = Dict.keys d.
Proof.
  unfold mark_collected, Dict.keys. rewrite map_map. apply map_ext.
  intros [k e]. cbn. now destruct (existsb _ _).
Qed.

Lemma grown_refl {V} (h : list (list (string * V))) : grown h h.
Proof. exists []. now rewrite app_nil_r. Qed.

Lemma grown_alloc {V} (h : list (list (string * V))) : grown h (h ++ [[]]).
Proof. exists [[]]. split; [reflexivity | repeat constructor]. Qed.

(** X10.  When the extractor's reply parses to something that is not a non-empty
    JSON object, [call_extractor] updates nothing: it returns [None] if the
    value is falsy (an empty object, [null], 0, ...) and raises
    [AttributeError] if it is truthy (a list, a number, a string: the value has
    no [.keys()]).  Either way it made one request, and the two stores only
    grew by empty dictionaries. *)
Theorem extractor_reply_that_is_no_object
    (st : ExtractorState) (w : World) (r : AIReply) (rest : list reply) (v : json) :
  replies w = Says r :: rest ->
  json_loads w (r_content r) = Some v ->
  is_nonempty_object v = false ->
  exists w' prompt,
    call_extractor st w
    = ((if truthy v then Raise AttributeError else Ok None), w')
    /\ grown (shadows w) (shadows w')
    /\ grown (reals w) (reals w')
    /\ log w' = log w ++ [Invoke model_extractor Extract prompt]
    /\ replies w' = rest.
Proof.
  intros Hrep Hparse Hobj. unfold call_extractor.
  destruct (ex_shadow_profile st) as [ls|], (ex_real_profile st) as [lr|]; mred;
    rewrite Hrep; mred; rewrite Hparse; mred;
    (destruct (truthy v) eqn:Ht; cbn [negb];
     [ destruct v as [| | | | | |members]; try discriminate Ht;
       try (do 2 eexists; split; [reflexivity|]; mred;
            repeat split; auto using grown_refl, grown_alloc);
       destruct members; discriminate
     | do 2 eexists; split; [reflexivity|]; mred;
       repeat split; auto using grown_refl, grown_alloc ]).
Qed.

Lemma extractor_reply_that_is_no_object_witness :
  replies nothing_new_world = [says "{}"]
  /\ json_loads nothing_new_world "{}" = Some (JObj [])
  /\ exists w',
       call_extractor allocated_extractor_state nothing_new_world = (Ok None, w')
       /\ grown (shadows nothing_new_world) (shadows w')
       /\ grown (reals nothing_new_world) (reals w').
Proof.
  split; [reflexivity|]. split; [reflexivity|].
  destruct (@extractor_reply_that_is_no_object allocated_extractor_state nothing_new_world
              {| r_content := "{}"; r_tool_calls := [] |} [] (JObj [])
              eq_refl eq_refl eq_refl)
    as (w' & prompt & Hrun & Hs & Hr & _).
  exists w'. split; [exact Hrun|]. split; [exact Hs | exact Hr].
Defined.

Lemma list_set_again {A} (l : nat) (f : A -> A) (y d : A) (h : list A) :
  list_set l (f (nth l (list_set l y h) d)) (list_set l y h) = list_set l (f y) h.
Proof.
  revert l. induction h as [|x h IH]; intros l; [now destruct l|].
  destruct l as [|l]; cbn; [reflexivity|]. now rewrite IH.
Qed.

(** What an object reply writes to the two profile dictionaries, whether or
    not the title request that may follow is answered. *)
Lemma call_extractor_store
    (st : ExtractorState) (w : World) (r : AIReply) (rest : list reply)
    (members : list (string * json)) (ls lr : loc) :
  replies w = Says r :: rest ->
  json_loads w (r_content r) = Some (JObj members) ->
  members <> [] ->
  ex_shadow_profile st = Some ls ->
  ex_real_profile st = Some lr ->
  let response_dict := Dict.of_pairs members in
  let w' := after (call_extractor st) w in
  shadows w'
  = list_set ls (mark_collected (Dict.keys response_dict) (read_shadow ls w)) (shadows w)
  /\ exists goal,
       reals w'
       = list_set lr
           ((if Dict.mem "goal" response_dict then Dict.set "goal" (JStr goal) else id)
              (Dict.update (read_real lr w) response_dict))
           (reals w).
Proof.
  intros Hrep Hparse Hne Hs Hr response_dict w'. unfold w', after, call_extractor.
  rewrite Hs, Hr. mred. rewrite Hrep. mred. rewrite Hparse. mred.
  destruct members as [|m members]; [congruence|]. cbn [truthy negb].
  mred. fold response_dict.
  destruct (Dict.mem "goal" response_dict) eqn:Hg; mred.
  - rewrite (list_set_again lr).
    destruct rest as [|[reason|t] rest']; mred;
      (split; [reflexivity|]; eexists; reflexivity).
  - split; [reflexivity|]. exists "". reflexivity.
Qed.

(** X11.  When the extractor's reply parses to an object with members, and the state
    holds both profiles, [call_extractor] -- whatever happens to the title
    request that may follow -- has kept the keys of the shadow profile, marked
    as collected exactly the tracked fields that are keys of the reply on top
    of those that were, kept every importance, and stored in the real profile
    the reply's value for every key of the reply other than ["goal"], leaving
    the other values, and ["goal"] when the reply has none, as they were. *)
Theorem extractor_update_lookups
    (st : ExtractorState) (w : World) (r : AIReply) (rest : list reply)
    (members : list (string * json)) (ls lr : loc) :
  replies w = Says r :: rest ->
  json_loads w (r_content r) = Some (JObj members) ->
  members <> [] ->
  ex_shadow_profile st = Some ls ->
  ex_real_profile st = Some lr ->
  (ls < List.length (shadows w))%nat ->
  (lr < List.length (reals w))%nat ->
  let response_dict := Dict.of_pairs members in
  let w' := after (call_extractor st) w in
  Dict.keys (read_shadow ls w') = Dict.keys (read_shadow ls w)
  /\ (forall k,
        Dict.get k (read_shadow ls w')
        = option_map
            (fun e => {| collected := collected e || Dict.mem k response_dict;
                         importance := importance e |})
            (Dict.get k (read_shadow ls w)))
  /\ (forall k,
        k <> "goal" ->
        Dict.get k (read_real lr w')
        = match Dict.get k response_dict with
          | Some v => Some v
          | None => Dict.get k (read_real lr w)
          end)
  /\ (Dict.mem "goal" response_dict = false ->
      Dict.get "goal" (read_real lr w') = Dict.get "goal" (read_real lr w)).
Proof.
  intros Hrep Hparse Hne Hs Hr Hls Hlr response_dict w'.
  destruct (@call_extractor_store st w r rest members ls lr Hrep Hparse Hne Hs Hr)
    as (Hsh & goal & Hre).
  fold response_dict in Hsh, Hre. fold w' in Hsh, Hre.
  unfold read_shadow, read_real. rewrite Hsh, Hre.
  rewrite !nth_list_set_eq by assumption.
  split; [apply keys_mark_collected|]. split; [|split].
  - intros k. rewrite get_mark_collected, existsb_keys. reflexivity.
  - intros k Hk.
    assert (Hupd : Dict.get k (Dict.update (nth lr (reals w) []) response_dict)
                   = match Dict.get k response_dict with
                     | Some v => Some v
                     | None => Dict.get k (nth lr (reals w) [])
                     end)
      by (apply get_update, keys_of_pairs_nodup).
    destruct (Dict.mem "goal" response_dict); [|exact Hupd].
    now rewrite DictFacts.get_set_neq.
  - intros Hg. rewrite Hg. unfold id.
    rewrite get_update by apply keys_of_pairs_nodup.
    apply DictFacts.mem_false_get in Hg. now rewrite Hg.
Qed.

Lemma extractor_update_lookups_witness :
  replies paraphrase_world = [says first_goal_reply; says "Early Retirement and Travel"]
  /\ json_loads paraphrase_world first_goal_reply
     = Some (JObj [("goal", JStr "retire early and travel")])
  /\ Dict.get "goal"
       (read_shadow 0 (after (call_extractor allocated_extractor_state) paraphrase_world))
     = Some (entry true 5)
  /\ Dict.get "age"
       (read_shadow 0 (after (call_extractor allocated_extractor_state) paraphrase_world))
     = Some (entry false 2)
  /\ Dict.get "age"
       (read_real 0 (after (call_extractor allocated_extractor_state) paraphrase_world))
     = None.
Proof.
  assert (Hrep : replies paraphrase_world
                 = Says {| r_content := first_goal_reply; r_tool_calls := [] |}
                   :: [says "Early Retirement and Travel"]) by (vm_compute; reflexivity).
  assert (Hparse : json_loads paraphrase_world first_goal_reply
                   = Some (JObj [("goal", JStr "retire early and travel")]))
    by (vm_compute; reflexivity).
  split; [exact Hrep|]. split; [exact Hparse|].
  destruct (@extractor_update_lookups allocated_extractor_state paraphrase_world _ _
              [("goal", JStr "retire early and travel")] 0 0 Hrep Hparse
              ltac:(discriminate) eq_refl eq_refl ltac:(vm_compute; lia) ltac:(vm_compute; lia))
    as (_ & Hshadow & Hreal & _).
  split; [|split].
  - rewrite (Hshadow "goal"). vm_compute. reflexivity.
  - rewrite (Hshadow "age"). vm_compute. reflexivity.
  - rewrite (Hreal "age"); [|discriminate]. vm_compute. reflexivity.
Defined.

(** ** Nothing is deleted *)

Lemma keeps_keys_refl {V} (h : list (list (string * V))) : keeps_keys h h.
Proof. intros l d H. exists d. auto. Qed.

Lemma keeps_keys_trans {V} (a b c : list (list (string * V))) :
  keeps_keys a b -> keeps_keys b c -> keeps_keys a c.
Proof.
  intros Hab Hbc l d H. destruct (Hab l d H) as (d1 & H1 & Hk1).
  destruct (Hbc l d1 H1) as (d2 & H2 & Hk2). exists d2. auto.
Qed.

Lemma keeps_keys_alloc {V} (h : list (list (string * V))) (d0 : list (string * V)) :
  keeps_keys h (h ++ [d0]).
Proof.
  intros l d H. exists d. split; [|auto].
  rewrite nth_error_app1; [exact H|]. apply nth_error_Some. congruence.
Qed.

Lemma nth_error_list_set {A} (l l' : nat) (x : A) (h : list A) :
  nth_error (list_set l x h) l'
  = if Nat.eqb l l' then option_map (fun _ => x) (nth_error h l') else nth_error h l'.
Proof.
  revert l l'. induction h as [|y h IH]; intros l l'.
  - destruct l, l'; cbn; try reflexivity. now destruct (Nat.eqb l l').
  - destruct l as [|l], l' as [|l']; cbn; try reflexivity. apply IH.
Qed.

Lemma keeps_keys_set {V} (l : nat) (f : list (string * V) -> list (string * V))
    (h : list (list (string * V))) :
  (forall d k, Dict.mem k d = true -> Dict.mem k (f d) = true) ->
  keeps_keys h (list_set l (f (nth l h [])) h).
Proof.
  intros Hf l' d H. rewrite nth_error_list_set.
  destruct (Nat.eqb l l') eqn:E.
  - apply Nat.eqb_eq in E. subst l'. rewrite H. cbn [option_map].
    exists (f (nth l h [])). split; [reflexivity|].
    rewrite (nth_error_nth _ _ _ H). apply Hf.
  - exists d. auto.
Qed.

#[export] Instance nothing_deleted_keeps : Keeps nothing_deleted.
Proof.
  constructor.
  - intros w. split; apply keeps_keys_refl.
  - intros a b c [H1 H2] [H3 H4]. split; eapply keeps_keys_trans; eauto.
Qed.

Lemma mem_mark_collected (ks : list string) (d : ShadowProfile) (k : string) :
  Dict.mem k d = true -> Dict.mem k (mark_collected ks d) = true.
Proof.
  intros H. apply mem_in_keys. rewrite keys_mark_collected. now apply mem_in_keys.
Qed.

Lemma mem_install_questions (qs d : ShadowProfile) (k : string) :
  Dict.mem k d = true -> Dict.mem k (install_questions qs d) = true.
Proof. intros H. rewrite install_questions_mem, H. apply orb_true_r. Qed.

Lemma mem_set_kept {V} (k0 : string) (v : V) (d : list (string * V)) (k : string) :
  Dict.mem k d = true -> Dict.mem k (Dict.set k0 v d) = true.
Proof. intros H. rewrite DictFacts.mem_set, H. apply orb_true_r. Qed.

Lemma kept_modify_shadow (l : loc) (f : ShadowProfile -> ShadowProfile) :
  (forall d k, Dict.mem k d = true -> Dict.mem k (f d) = true) ->
  obeys nothing_deleted any_exception (modify_shadow l f).
Proof.
  intros Hf w. split; [|discriminate]. cbn. split.
  - now apply (@keeps_keys_set Entry).
  - apply keeps_keys_refl.
Qed.

Lemma kept_modify_real (l : loc) (f : RealProfile -> RealProfile) :
  (forall d k, Dict.mem k d = true -> Dict.mem k (f d) = true) ->
  obeys nothing_deleted any_exception (modify_real l f).
Proof.
  intros Hf w. split; [|discriminate]. cbn. split.
  - apply keeps_keys_refl.
  - now apply (@keeps_keys_set json).
Qed.

Lemma kept_alloc_shadow (d : ShadowProfile) :
  obeys nothing_deleted any_exception (alloc_shadow d).
Proof.
  intros w. split; [|discriminate]. cbn. split;
    [apply keeps_keys_alloc | apply keeps_keys_refl].
Qed.

Lemma kept_alloc_real (d : RealProfile) :
  obeys nothing_deleted any_exception (alloc_real d).
Proof.
  intros w. split; [|discriminate]. cbn. split;
    [apply keeps_keys_refl | apply keeps_keys_alloc].
Qed.

(** an effect that leaves the store of profiles alone *)
Lemma kept_elsewhere {A} (c : M A) :
  (forall w, shadows (snd (c w)) = shadows w /\ reals (snd (c w)) = reals w) ->
  obeys nothing_deleted any_exception c.
Proof.
  intros H w. destruct (H w) as [Hs Hr]. split; [|intros; exact I].
  unfold nothing_deleted. rewrite Hs, Hr. split; apply keeps_keys_refl.
Qed.

Create HintDb kept discriminated.

#[local] Hint Extern 1 (obeys _ _ (ret _)) => apply obeys_ret; typeclasses eauto : kept.
#[local] Hint Extern 1 (obeys _ _ (gets _)) => apply obeys_gets; typeclasses eauto : kept.
#[local] Hint Extern 1 (obeys _ _ (raise _)) =>
  apply obeys_raise; [typeclasses eauto | exact I] : kept.
#[local] Hint Extern 2 (obeys _ _ (bind _ _)) =>
  apply obeys_bind; [typeclasses eauto| |intros] : kept.
#[local] Hint Extern 1 (obeys nothing_deleted _ (modify _)) =>
  apply kept_elsewhere; intros; split; reflexivity : kept.
#[local] Hint Extern 1 (obeys nothing_deleted _ fresh_id) =>
  apply kept_elsewhere; intros; split; reflexivity : kept.
#[local] Hint Extern 1 (obeys nothing_deleted _ (record _)) =>
  apply kept_elsewhere; intros; split; reflexivity : kept.
#[local] Hint Extern 1 (obeys nothing_deleted _ (get_shadow _)) =>
  apply kept_elsewhere; intros; split; reflexivity : kept.
#[local] Hint Extern 1 (obeys nothing_deleted _ (get_real _)) =>
  apply kept_elsewhere; intros; split; reflexivity : kept.
#[local] Hint Resolve kept_alloc_shadow kept_alloc_real : kept.
#[local] Hint Extern 1 (obeys nothing_deleted _ (modify_shadow _ (mark_collected _))) =>
  apply kept_modify_shadow; intros; now apply mem_mark_collected : kept.
#[local] Hint Extern 1 (obeys nothing_deleted _ (modify_shadow _ (install_questions _))) =>
  apply kept_modify_shadow; intros; now apply mem_install_questions : kept.
#[local] Hint Extern 1 (obeys nothing_deleted _ (modify_real _ (Dict.set _ _))) =>
  apply kept_modify_real; intros; now apply mem_set_kept : kept.
#[local] Hint Extern 1 (obeys nothing_deleted _ (modify_real _ _)) =>
  apply kept_modify_real; intros; now apply mem_update : kept.
#[local] Hint Extern 3 (obeys _ _ (match ?x with _ => _ end)) => destruct x : kept.
#[local] Hint Extern 4 (obeys _ _ _) => progress cbv beta : kept.

Ltac keeping := auto 80 with kept nocore.

Lemma kept_shadow_or_new (o : option loc) :
  obeys nothing_deleted any_exception (shadow_or_new o).
Proof. unfold shadow_or_new. keeping. Qed.

Lemma kept_real_or_new (o : option loc) :
  obeys nothing_deleted any_exception (real_or_new o).
Proof. unfold real_or_new. keeping. Qed.

Lemma kept_new_message (t : role) (text : string) :
  obeys nothing_deleted any_exception (new_message t text).
Proof. unfold new_message. keeping. Qed.

Lemma kept_invoke (m : Model) (s : site) (prompt : list message) :
  obeys nothing_deleted any_exception (invoke m s prompt).
Proof. unfold invoke. keeping. Qed.

Lemma kept_loads (text : string) : obeys nothing_deleted any_exception (loads text).
Proof. unfold loads. keeping. Qed.

Lemma kept_true_div (a b : Z) : obeys nothing_deleted any_exception (true_div a b).
Proof. unfold true_div. keeping. Qed.

#[local] Hint Resolve kept_shadow_or_new kept_real_or_new kept_new_message kept_invoke
  kept_loads kept_true_div : kept.

Lemma kept_call_chatbot (st : ChatbotState) :
  obeys nothing_deleted any_exception (call_chatbot st).
Proof. unfold call_chatbot. keeping. Qed.

Lemma kept_call_extractor (st : ExtractorState) :
  obeys nothing_deleted any_exception (call_extractor st).
Proof. unfold call_extractor. keeping. Qed.

Lemma kept_call_matcher (st : MatcherState) :
  obeys nothing_deleted any_exception (call_matcher st).
Proof. unfold call_matcher. keeping. Qed.

Lemma kept_call_summarizer (st : SummarizerState) :
  obeys nothing_deleted any_exception (call_summarizer st).
Proof. unfold call_summarizer. keeping. Qed.

Lemma kept_retrieve (query : string) : obeys nothing_deleted any_exception (retrieve query).
Proof. unfold retrieve. keeping. Qed.

#[local] Hint Resolve kept_retrieve : kept.

Lemma kept_run_tool_calls (queries : list string) :
  obeys nothing_deleted any_exception (run_tool_calls queries).
Proof. induction queries as [|q rest IH]; cbn [run_tool_calls]; keeping. Qed.

#[local] Hint Resolve kept_run_tool_calls : kept.

Lemma kept_tools_node (st : PlannerState) :
  obeys nothing_deleted any_exception (tools_node st).
Proof. unfold tools_node. keeping. Qed.

Lemma kept_query_or_respond (st : PlannerState) :
  obeys nothing_deleted any_exception (query_or_respond st).
Proof. unfold query_or_respond. keeping. Qed.

Lemma kept_call_planner (st : PlannerState) :
  obeys nothing_deleted any_exception (call_planner st).
Proof. unfold call_planner. keeping. Qed.

Lemma kept_call_formatter (raw : string) :
  obeys nothing_deleted any_exception (call_formatter raw).
Proof. unfold call_formatter. keeping. Qed.

Lemma kept_route_decision_extractor (s : MasterState) :
  obeys nothing_deleted any_exception (route_decision_extractor s).
Proof.
  apply kept_elsewhere. intros w. now rewrite route_decision_extractor_world.
Qed.

#[local] Hint Resolve kept_call_chatbot kept_call_extractor kept_call_matcher
  kept_call_summarizer kept_tools_node kept_query_or_respond kept_call_planner
  kept_call_formatter kept_route_decision_extractor : kept.

Lemma kept_record (e : event) : obeys nothing_deleted any_exception (record e).
Proof. keeping. Qed.

Lemma kept_graph {S N} (g : Graph S N) (s : S) :
  (forall n s0, obeys nothing_deleted any_exception (body g n s0)) ->
  (forall n s0, obeys nothing_deleted any_exception (edge g n s0)) ->
  obeys nothing_deleted any_exception (graph_invoke g s).
Proof.
  intros Hb He. apply obeys_pregel;
    [typeclasses eauto | exact I | apply kept_record | exact Hb | exact He].
Qed.

Lemma kept_chatbot_graph (s : ChatbotState) :
  obeys nothing_deleted any_exception (graph_invoke chatbot_graph s).
Proof. apply kept_graph; intros n s0; cbn [chatbot_graph body edge]; keeping. Qed.

Lemma kept_extractor_graph (s : ExtractorState) :
  obeys nothing_deleted any_exception (graph_invoke extractor_graph s).
Proof. apply kept_graph; intros n s0; cbn [extractor_graph body edge]; keeping. Qed.

Lemma kept_matcher_graph (s : MatcherState) :
  obeys nothing_deleted any_exception (graph_invoke matcher_graph s).
Proof. apply kept_graph; intros n s0; cbn [matcher_graph body edge]; keeping. Qed.

Lemma kept_summarizer_graph (s : SummarizerState) :
  obeys nothing_deleted any_exception (graph_invoke summarizer_graph s).
Proof. apply kept_graph; intros n s0; cbn [summarizer_graph body edge]; keeping. Qed.

Lemma kept_planner_graph (s : PlannerState) :
  obeys nothing_deleted any_exception (graph_invoke planner_graph s).
Proof.
  apply kept_graph; intros n s0; destruct n; cbn [planner_graph body edge]; keeping.
Qed.

#[local] Hint Resolve kept_chatbot_graph kept_extractor_graph kept_matcher_graph
  kept_summarizer_graph kept_planner_graph : kept.

Lemma kept_workflow_body (n : master_node) (s : MasterState) :
  obeys nothing_deleted any_exception (body workflow n s).
Proof.
  destruct n; cbn [workflow body];
    [unfold run_chatbot | unfold run_extractor | unfold run_matcher
    | unfold run_planner | unfold run_summarizer]; keeping.
Qed.

Lemma kept_workflow (limit : nat) (n : master_node) (s : MasterState) :
  obeys nothing_deleted any_exception (pregel workflow limit n s).
Proof.
  apply obeys_pregel; [typeclasses eauto | exact I | apply kept_record | |].
  - apply kept_workflow_body.
  - intros n0 s0. destruct n0; cbn [workflow edge]; keeping.
Qed.

Lemma kept_graph_invoke_workflow (input : MasterState) :
  obeys nothing_deleted any_exception (graph input).
Proof. unfold graph, coerce, graph_invoke. pose proof kept_workflow. keeping. Qed.

#[local] Hint Resolve kept_graph_invoke_workflow : kept.

(** X12.  A call of [chat_step], whether it returns or raises, deletes no profile
    dictionary and no key of one: every field tracked by a shadow profile and
    every key stored in a real profile before the call is there after it. *)
Theorem turn_deletes_nothing (user_message session_id : string) (w : World) :
  nothing_deleted w (after (chat_step user_message session_id) w).
Proof.
  assert (H : obeys nothing_deleted any_exception (chat_step user_message session_id)).
  { unfold chat_step. keeping. }
  exact (proj1 (H w)).
Qed.

(** ** Readiness, template selection and the summarizer *)

Lemma total_importance_nonneg (d : ShadowProfile) :
  (forall field info, In (field, info) d -> (0 <= importance info)%Z) ->
  (0 <= total_importance d)%Z.
Proof.
  unfold total_importance.
  induction d as [|[k e] d IH]; intros Hpos; cbn [map fold_right snd]; [lia|].
  assert (0 <= importance e)%Z by (eapply Hpos; now left).
  assert (0 <= fold_right Z.add 0%Z (map (fun fi => importance (snd fi)) d))%Z; [|lia].
  apply IH. intros f i Hin. eapply Hpos. right. eauto.
Qed.

Lemma mark_collected_sums (ks : list string) (d : ShadowProfile) :
  (forall field info, In (field, info) d -> (0 <= importance info)%Z) ->
  total_importance (mark_collected ks d) = total_importance d
  /\ (collected_importance d <= collected_importance (mark_collected ks d))%Z
  /\ (needsCritical (mark_collected ks d) = true -> needsCritical d = true).
Proof.
  unfold total_importance, collected_importance, needsCritical, mark_collected.
  induction d as [|[k e] d IH]; intros Hpos; [cbn; repeat split; auto; lia|].
  assert (He : (0 <= importance e)%Z) by (eapply Hpos; now left).
  destruct IH as (IHt & IHc & IHn); [intros f i Hin; eapply Hpos; right; eauto|].
  cbn [map filter fold_right existsb fst snd].
  destruct (existsb (String.eqb k) ks); cbn [snd collected importance].
  - cbn [map fold_right snd importance]. rewrite IHt. split; [reflexivity|]. split.
    + destruct (collected e); cbn [map fold_right snd]; lia.
    + rewrite andb_false_r. cbn [orb]. intros H. rewrite (IHn H). apply orb_true_r.
  - rewrite IHt. split; [reflexivity|]. split.
    + destruct (collected e); cbn [map fold_right snd]; lia.
    + intros H. apply orb_true_iff in H. destruct H as [H|H];
        [now rewrite H | rewrite (IHn H); apply orb_true_r].
Qed.

Lemma ready_iff (d : ShadowProfile) :
  (0 < total_importance d)%Z ->
  isReady COMPLETENESSRATIO d = true
  <-> (total_importance d <= collected_importance d)%Z /\ needsCritical d = false.
Proof.
  intros Hpos. unfold isReady, completenessRatio, COMPLETENESSRATIO.
  rewrite andb_true_iff, negb_true_iff, Qle_bool_iff.
  assert (Hq : (0 < inject_Z (total_importance d))%Q).
  { change 0%Q with (inject_Z 0). now rewrite <- Zlt_Qlt. }
  assert (Hn : ~ (inject_Z (total_importance d) == 0)%Q).
  { intros H. rewrite H in Hq. now apply Qlt_irrefl in Hq. }
  split; intros [H1 H2]; (split; [|exact H2]).
  - apply (Qmult_le_compat_r _ _ (inject_Z (total_importance d))) in H1;
      [|now apply Qlt_le_weak].
    rewrite Qmult_1_l in H1.
    rewrite Qmult_comm, Qmult_div_r in H1 by exact Hn.
    now rewrite Zle_Qle.
  - apply Qle_shift_div_l; [exact Hq|]. rewrite Qmult_1_l. now rewrite <- Zle_Qle.
Qed.

(** X13.  Marking fields as collected, as the extractor does, never lowers the
    readiness the router computes: with no negative importance, the total
    importance is unchanged, the importance of the collected fields does not
    drop, no critical field becomes missing, and a profile that was ready to
    plan stays ready. *)
Theorem extraction_never_lowers_readiness (ks : list string) (d : ShadowProfile) :
  (forall field info, In (field, info) d -> (0 <= importance info)%Z) ->
  let '(totImportance, totFilledImportance, needsCriticalInfo) := tally d in
  let '(totImportance', totFilledImportance', needsCriticalInfo') :=
    tally (mark_collected ks d) in
  totImportance' = totImportance
  /\ (totFilledImportance <= totFilledImportance')%Z
  /\ (needsCriticalInfo' = true -> needsCriticalInfo = true)
  /\ (isReady COMPLETENESSRATIO d = true ->
      isReady COMPLETENESSRATIO (mark_collected ks d) = true).
Proof.
  intros Hpos. rewrite !tally_spec.
  destruct (@mark_collected_sums ks d Hpos) as (Ht & Hc & Hn).
  split; [exact Ht|]. split; [exact Hc|]. split; [exact Hn|].
  intros Hready.
  destruct (Z.eq_dec (total_importance d) 0) as [H0|H0].
  - exfalso. unfold isReady, completenessRatio, COMPLETENESSRATIO in Hready.
    rewrite H0 in Hready. apply andb_prop in Hready. destruct Hready as [Hready _].
    apply Qle_bool_iff in Hready. unfold Qle, Qdiv, Qmult, Qinv in Hready.
    cbn in Hready. lia.
  - assert (Hpos' : (0 < total_importance d)%Z)
      by (pose proof (total_importance_nonneg d Hpos); lia).
    apply ready_iff in Hready; [|exact Hpos'].
    apply ready_iff; [now rewrite Ht|].
    destruct Hready as [H1 H2]. split; [lia|].
    destruct (needsCritical (mark_collected ks d)) eqn:E; [|reflexivity].
    rewrite (Hn eq_refl) in H2. discriminate.
Qed.

Lemma extraction_never_lowers_readiness_witness :
  (forall field info, In (field, info) initial_shadow_profile -> (0 <= importance info)%Z)
  /\ total_importance (mark_collected ["goal"; "age"] initial_shadow_profile)
     = total_importance initial_shadow_profile
  /\ (collected_importance initial_shadow_profile
      <= collected_importance (mark_collected ["goal"; "age"] initial_shadow_profile))%Z.
Proof.
  assert (Hpos : forall field info,
             In (field, info) initial_shadow_profile -> (0 <= importance info)%Z).
  { intros field info Hin. cbn in Hin.
    repeat (destruct Hin as [Hin|Hin]; [inversion Hin; subst; cbn; lia|]).
    contradiction. }
  split; [exact Hpos|].
  pose proof (@extraction_never_lowers_readiness ["goal"; "age"] initial_shadow_profile Hpos)
    as H.
  rewrite !tally_spec in H. destruct H as (Ht & Hf & _). split; [exact Ht | exact Hf].
Defined.

Lemma classify_cases (answer : string) :
  In (classify answer) ["spend"; "leave"; "save"; "donate"; "default"].
Proof.
  pose proof (classify_known answer) as H.
  apply mem_in_keys in H. exact H.
Qed.

Lemma template_has_critical (answer : string) :
  exists field info,
    Dict.get field (questions_of (classify answer)) = Some info
    /\ importance info = 5%Z.
Proof.
  pose proof (classify_cases answer) as H. cbn [In] in H.
  destruct H as [<- | [<- | [<- | [<- | [<- | []]]]]].
  - exists "retirement_age", (entry false 5). split; reflexivity.
  - exists "number_of_beneficiaries", (entry false 5). split; reflexivity.
  - exists "expected_monthly_expenses", (entry false 5). split; reflexivity.
  - exists "donation_goal_amount", (entry false 5). split; reflexivity.
  - exists "expected_monthly_expenses", (entry false 5). split; reflexivity.
Qed.

Lemma template_importances (answer : string) (field : string) (info : Entry) :
  In (field, info) (questions_of (classify answer)) -> (0 <= importance info)%Z.
Proof.
  pose proof (classify_cases answer) as H. cbn [In] in H.
  destruct H as [<- | [<- | [<- | [<- | [<- | []]]]]];
    cbn; intros Hin;
    repeat (destruct Hin as [[= <- <-] | Hin]; [cbn; lia|]); destruct Hin.
Qed.

Lemma in_set {V} (k k' : string) (v v' : V) (d : list (string * V)) :
  In (k, v) (Dict.set k' v' d) -> (k, v) = (k', v') \/ In (k, v) d.
Proof.
  induction d as [|[k0 v0] d IH]; cbn; [intros [H|[]]; left; congruence|].
  destruct (String.eqb k' k0) eqn:E; cbn.
  - apply String.eqb_eq in E. subst. intros [H|H]; [left; congruence | auto].
  - intros [H|H]; auto. destruct (IH H); auto.
Qed.

Lemma in_install_questions (qs d : ShadowProfile) (k : string) (e : Entry) :
  In (k, e) (install_questions qs d) ->
  In (k, e) d \/ exists i, In (k, i) qs /\ importance e = importance i.
Proof.
  unfold install_questions. revert d.
  induction qs as [|[k0 i0] qs IH]; intros d H; cbn in *; [now left|].
  apply IH in H. destruct H as [H | (i & Hi & He)].
  - apply in_set in H. destruct H as [[= -> ->] | H]; [|now left].
    right. exists i0. split; [now left | reflexivity].
  - right. exists i. split; [now right | exact He].
Qed.

Lemma total_importance_ge (d : ShadowProfile) (k : string) (e : Entry) :
  (forall field info, In (field, info) d -> (0 <= importance info)%Z) ->
  In (k, e) d -> (importance e <= total_importance d)%Z.
Proof.
  induction d as [|[k0 e0] d IH]; intros Hpos Hin; [destruct Hin|].
  assert (H0 : (0 <= importance e0)%Z) by (eapply Hpos; now left).
  assert (Hrest : forall f i, In (f, i) d -> (0 <= importance i)%Z)
    by (intros f i H; eapply Hpos; right; eauto).
  pose proof (total_importance_nonneg d Hrest) as Hsum.
  change (total_importance ((k0, e0) :: d)) with (importance e0 + total_importance d)%Z.
  destruct Hin as [[= <- <-] | Hin]; [lia|].
  specialize (IH Hrest Hin). lia.
Qed.

(** X14.  When the matcher's model answers and the shadow profile is allocated with
    no negative importance, [run_matcher] returns and leaves a profile with an
    uncollected critical field, whatever was collected before: the router then
    answers ["chatbot"], so selecting a template always sends the turn back to
    the interviewer, never to the planner. *)
Theorem template_selection_reopens_the_interview
    (st : MasterState) (w : World) (r : AIReply) (rest : list reply) :
  replies w = Says r :: rest ->
  (ms_shadow_profile st < List.length (shadows w))%nat ->
  (forall field info,
      In (field, info) (read_shadow (ms_shadow_profile st) w) -> (0 <= importance info)%Z) ->
  exists st' w',
    run_matcher st w = (Ok st', w')
    /\ needsCritical (read_shadow (ms_shadow_profile st') w') = true
    /\ route_decision_extractor st' w' = (Ok "chatbot", w')
    /\ edge workflow Extractor st' w' = (Ok (Some Chatbot), w').
Proof.
  intros Hrep Hloc Hpos.
  destruct (@run_matcher_says st w r rest Hrep)
    as (st' & w' & Hrun & _ & Hsame & _ & Hsh & _).
  exists st', w'. split; [exact Hrun|].
  set (qs := questions_of (classify (r_content r))) in *.
  set (old := read_shadow (ms_shadow_profile st) w) in *.
  assert (Hread : read_shadow (ms_shadow_profile st') w' = install_questions qs old).
  { unfold read_shadow. rewrite Hsame, Hsh. now apply nth_list_set_eq. }
  destruct (template_has_critical (r_content r)) as (field & info & Hget & Hi).
  fold qs in Hget.
  assert (Hnew : Dict.get field (install_questions qs old)
                 = Some {| collected := false; importance := importance info |}).
  { apply install_questions_field; [apply template_keys_unique | exact Hget]. }
  assert (Hcrit : needsCritical (install_questions qs old) = true).
  { apply needsCritical_iff. eexists _, _. split; [apply DictFacts.get_in, Hnew|].
    split; [exact Hi | reflexivity]. }
  assert (Hall : forall f i, In (f, i) (install_questions qs old) -> (0 <= importance i)%Z).
  { intros f i Hin. apply in_install_questions in Hin.
    destruct Hin as [Hin | (i0 & Hin & ->)]; [now apply (Hpos f)|].
    now apply (@template_importances (r_content r) f). }
  assert (Htot : (5 <= total_importance (install_questions qs old))%Z).
  { rewrite <- Hi.
    change (importance info)
      with (importance {| collected := false; importance := importance info |}).
    apply (@total_importance_ge _ field); [exact Hall | apply DictFacts.get_in, Hnew]. }
  assert (Hroute : route_decision_extractor st' w' = (Ok "chatbot", w')).
  { rewrite route_decision_extractor_spec by (rewrite Hread; lia).
    rewrite Hread. unfold isReady. rewrite Hcrit, andb_false_r. reflexivity. }
  split; [now rewrite Hread|]. split; [exact Hroute|].
  cbn [workflow edge]. unfold bind. now rewrite Hroute.
Qed.

Lemma template_selection_reopens_the_interview_witness :
  replies matching_world = [says "spend"]
  /\ isReady COMPLETENESSRATIO (read_shadow 0 matching_world) = true
  /\ exists st' w',
       run_matcher (new_master_state 0 0) matching_world = (Ok st', w')
       /\ needsCritical (read_shadow (ms_shadow_profile st') w') = true
       /\ edge workflow Extractor st' w' = (Ok (Some Chatbot), w').
Proof.
  split; [reflexivity|]. split; [vm_compute; reflexivity|].
  destruct (@template_selection_reopens_the_interview (new_master_state 0 0) matching_world
              {| r_content := "spend"; r_tool_calls := [] |} [] eq_refl)
    as (st' & w' & Hrun & Hcrit & _ & Hedge).
  - cbn. lia.
  - intros field info Hin. cbn in Hin.
    repeat (destruct Hin as [Hin|Hin]; [inversion Hin; subst; cbn; lia|]).
    contradiction.
  - exists st', w'. split; [exact Hrun|]. split; [exact Hcrit | exact Hedge].
Defined.

Lemma length_last1 {A} (l : list A) : (List.length (last1 l) <= 1)%nat.
Proof. unfold last1. destruct (rev l); cbn; lia. Qed.

(** X15.  When the model answers, [run_summarizer] sends one request -- the
    summarizer's system prompt, then the previous summary (or "None") and the
    interviewer's history as the message channel of the sub-graph holds
    them -- and replaces that history by the system prompt, a
    recap that carries the reply, and the last message of the old history: at
    most three messages, so the router would not summarize again.  The reply is
    stored as the summary; no profile is touched. *)
Theorem summarizer_compacts_the_history
    (st : MasterState) (w : World) (r : AIReply) (rest : list reply) :
  replies w = Says r :: rest ->
  let old_summary :=
    match ms_summarizer st with
    | Some d => match sm_summary d with Some s => s | None => "None" end
    | None => "None"
    end in
  exists st' w' first recap,
    run_summarizer st w = (Ok st', w')
    /\ log w'
       = log w ++ [Enter "summarizer_graph" "summarizer";
                   Invoke model_extractor Summarize
                     (system_prompt_summarize
                      :: into_channel (first :: cb_messages (ms_chatbot st)))]
    /\ mtype first = human /\ content first = "Last Summary:" +++ old_summary
    /\ cb_messages (ms_chatbot st')
       = [system_prompt_chatbot; recap] ++ last1 (cb_messages (ms_chatbot st))
    /\ mtype recap = human /\ content recap = "Summary:" +++ r_content r
    /\ (exists d, ms_summarizer st' = Some d /\ sm_summary d = Some (r_content r))
    /\ (List.length (cb_messages (ms_chatbot st')) <= 3)%nat
    /\ route_decision_summarize st' = "__end__"
    /\ shadows w' = shadows w /\ reals w' = reals w
    /\ ms_shadow_profile st' = ms_shadow_profile st
    /\ ms_real_profile st' = ms_real_profile st.
Proof.
  intros Hrep old_summary.
  unfold run_summarizer. mred. unfold graph_invoke, recursion_limit.
  rewrite pregel_step. unfold summarizer_graph, call_summarizer. mred.
  rewrite Hrep. mred.
  do 4 eexists. split; [reflexivity|]. mred.
  split; [now rewrite <- app_assoc|].
  split; [reflexivity|]. split; [reflexivity|]. split; [reflexivity|].
  split; [reflexivity|]. split; [reflexivity|].
  split; [eexists; split; reflexivity|].
  assert (Hlen : (List.length (last1 (cb_messages (ms_chatbot st))) <= 1)%nat)
    by apply length_last1.
  split; [cbn [List.length app]; lia|].
  split; [|repeat split].
  unfold route_decision_summarize. cbn [ms_chatbot cb_messages app List.length].
  destruct (last1 (cb_messages (ms_chatbot st))) as [|x [|y l]]; cbn in *; try reflexivity; lia.
Qed.

Lemma summarizer_compacts_the_history_witness :
  replies recap_world = [says "The user wants to retire early."]
  /\ exists st' w' recap,
       run_summarizer (new_master_state 0 0) recap_world = (Ok st', w')
       /\ cb_messages (ms_chatbot st')
          = [system_prompt_chatbot; recap; assistant_message]
       /\ content recap = "Summary:The user wants to retire early.".
Proof.
  split; [reflexivity|].
  destruct (@summarizer_compacts_the_history (new_master_state 0 0) recap_world
              {| r_content := "The user wants to retire early."; r_tool_calls := [] |}
              [] eq_refl)
    as (st' & w' & first & recap & Hrun & _ & _ & _ & Hmsgs & _ & Hcontent & _).
  exists st', w', recap. split; [exact Hrun|]. split; [exact Hmsgs | exact Hcontent].
Defined.

(** ** The validity check and the formatter *)

Lemma in_get {V} (k : string) (v : V) (d : list (string * V)) :
  NoDup (Dict.keys d) -> In (k, v) d -> Dict.get k d = Some v.
Proof.
  induction d as [|[k' v'] d IH]; cbn; [tauto|].
  intros Hnd [[= -> ->] | Hin]; [now rewrite String.eqb_refl|].
  apply NoDup_cons_iff in Hnd. destruct Hnd as [Hnot Hnd].
  destruct (String.eqb k k') eqn:E; [|now apply IH].
  apply String.eqb_eq in E. subst. exfalso. apply Hnot.
  apply (in_map fst) in Hin. exact Hin.
Qed.

Lemma valid_entry_iff (value : json) :
  valid_entry value = true <->
  exists members c,
    value = JObj members
    /\ Dict.get "collected" (Dict.of_pairs members) = Some (JBool c)
    /\ ((exists i, Dict.get "importance" (Dict.of_pairs members) = Some (JInt i))
        \/ (exists b, Dict.get "importance" (Dict.of_pairs members) = Some (JBool b))).
Proof.
  split.
  - destruct value as [| | | | | |members]; try discriminate. cbn [valid_entry].
    destruct (Dict.get "collected" (Dict.of_pairs members)) as [c|] eqn:Hc; [|discriminate].
    destruct (Dict.get "importance" (Dict.of_pairs members)) as [i|] eqn:Hi; [|discriminate].
    destruct c as [|c| | | | |]; try discriminate.
    destruct i as [|b|z| | | |]; try discriminate; intros _; exists members, c;
      (split; [reflexivity|]; split; [exact Hc|]); [right | left]; eexists; exact Hi.
  - intros (members & c & -> & Hc & Hi). cbn [valid_entry]. rewrite Hc.
    destruct Hi as [(i & ->) | (b & ->)]; reflexivity.
Qed.



(** ** The planner's context *)

Lemma id_below_weaken (n n' : nat) (m : message) :
  (n <= n')%nat -> id_below n m -> id_below n' m.
Proof. unfold id_below. destruct (mid m); [auto | lia]. Qed.

Lemma replace_or_append_fresh (m : message) (l : list message) (n k : nat) :
  Forall (id_below n) l -> mid m = Fresh k -> (n <= k)%nat ->
  replace_or_append m l = l ++ [m].
Proof.
  intros Hl Hm Hk. induction Hl as [|x l Hx Hl IH]; cbn; [reflexivity|].
  assert (msg_id_eqb (mid x) (mid m) = false) as ->.
  { rewrite Hm. unfold id_below in Hx. destruct (mid x) as [name|j]; cbn; [reflexivity|].
    apply Nat.eqb_neq. lia. }
  now rewrite IH.
Qed.

Lemma add_messages_fresh (new l : list message) (n : nat) :
  Forall (id_below n) l -> ascending n new -> add_messages l new = l ++ new.
Proof.
  unfold add_messages. revert l n.
  induction new as [|m new IH]; intros l n Hl Hnew; cbn; [now rewrite app_nil_r|].
  destruct Hnew as (k & Hm & Hk & Hrest).
  rewrite (@replace_or_append_fresh m l n k Hl Hm Hk).
  rewrite (IH _ (S k)); [now rewrite <- app_assoc | | exact Hrest].
  apply Forall_app. split.
  - eapply Forall_impl; [|exact Hl]. intros x. apply id_below_weaken. lia.
  - constructor; [|constructor]. unfold id_below. rewrite Hm. lia.
Qed.

Lemma retrieve_snippets (query : string) (w : World) :
  retrieve query w = (Ok (snippets (similarity_search w) query), w).
Proof. reflexivity. Qed.

Lemma run_tool_calls_results (queries : list string) (w : World) :
  run_tool_calls queries w
  = (Ok (tool_results (similarity_search w) (next_id w) queries),
     with_next_id (List.length queries + next_id w) w).
Proof.
  revert w. induction queries as [|q rest IH]; intros w.
  - destruct w; reflexivity.
  - cbn [run_tool_calls]. unfold bind at 1. rewrite retrieve_snippets.
    mred. rewrite IH. mred. cbn [tool_results List.length].
    rewrite Nat.add_succ_r. reflexivity.
Qed.

Lemma tool_results_ascending (search : string -> list Document) (n : nat) (qs : list string) :
  ascending n (tool_results search n qs).
Proof.
  revert n. induction qs as [|q qs IH]; intros n; cbn; [exact I|].
  exists n. repeat split; auto.
Qed.

Lemma tool_results_are_tools (search : string -> list Document) (n : nat) (qs : list string) :
  Forall (fun m => mtype m = tool) (tool_results search n qs).
Proof. revert n. induction qs as [|q qs IH]; intros n; cbn; constructor; auto. Qed.

Lemma tool_results_content (search : string -> list Document) (n : nat) (qs : list string) :
  map content (tool_results search n qs) = map (snippets search) qs.
Proof. revert n. induction qs as [|q qs IH]; intros n; cbn; [reflexivity|]. now rewrite IH. Qed.

Lemma leading_tools_all (tools : list message) (rest : list message) :
  Forall (fun m => mtype m = tool) tools ->
  match rest with
  | m :: _ => mtype m <> tool
  | [] => True
  end ->
  leading_tools (rev tools ++ rest) = rev tools.
Proof.
  intros Ht Hr. apply Forall_rev in Ht. induction Ht as [|x l Hx Hl IH]; cbn.
  - destruct rest as [|m rest]; [reflexivity|]. cbn.
    destruct (mtype m); try reflexivity. congruence.
  - rewrite Hx. cbn. now rewrite IH.
Qed.

Lemma tool_results_below (search : string -> list Document) (n : nat) (qs : list string) :
  Forall (id_below (n + List.length qs)) (tool_results search n qs).
Proof.
  revert n. induction qs as [|q qs IH]; intros n; cbn [tool_results List.length]; constructor.
  - unfold id_below. cbn. lia.
  - rewrite Nat.add_succ_r. apply (IH (S n)).
Qed.

Lemma trailing_tools (before tools : list message) (a : message) :
  Forall (fun m => mtype m = tool) tools -> mtype a <> tool ->
  rev (leading_tools (rev (before ++ [a] ++ tools))) = tools.
Proof.
  intros Ht Ha. rewrite !rev_app_distr, <- app_assoc. cbn [rev app].
  rewrite leading_tools_all; [apply rev_involutive | exact Ht | exact Ha].
Qed.



(** ** The tracked fields of a session *)

Lemma run_extractor_location (s : MasterState) (w : World) (s' : MasterState) (w' : World) :
  run_extractor s w = (Ok s', w') -> ms_shadow_profile s' = ms_shadow_profile s.
Proof.
  unfold run_extractor. mred. unfold graph_invoke, recursion_limit.
  rewrite pregel_step. unfold extractor_graph, call_extractor. mred.
  destruct (replies w) as [|[reason|r] rest]; mred; try discriminate.
  destruct (json_loads w (r_content r)) as [v|]; mred; try discriminate.
  destruct (ex_real_profile (ms_extractor s)) as [lr|]; mred;
    (destruct (truthy v); cbn [negb]; mred; [|intros [= <- _]; reflexivity]);
    (destruct v as [| | | | | |members]; try discriminate; mred);
    (destruct (Dict.mem "goal" (Dict.of_pairs members)); mred;
     [ destruct rest as [|[reason|t] rest']; mred; try discriminate | ]);
    intros [= <- _]; reflexivity.
Qed.

Lemma run_matcher_location (s : MasterState) (w : World) (s' : MasterState) (w' : World) :
  run_matcher s w = (Ok s', w') -> ms_shadow_profile s' = ms_shadow_profile s.
Proof.
  unfold run_matcher. mred. unfold graph_invoke, recursion_limit.
  rewrite pregel_step. unfold matcher_graph, call_matcher. mred.
  destruct (replies w) as [|[reason|r] rest]; mred; try discriminate.
  intros [= <- _]. reflexivity.
Qed.

Lemma run_chatbot_location (s : MasterState) (w : World) (s' : MasterState) (w' : World) :
  run_chatbot s w = (Ok s', w') ->
  ms_shadow_profile s' = ms_shadow_profile s
  \/ read_shadow (ms_shadow_profile s) w = [].
Proof.
  unfold run_chatbot. mred. unfold graph_invoke, recursion_limit.
  rewrite pregel_step. unfold chatbot_graph, call_chatbot. mred.
  destruct (nth (ms_shadow_profile s) (shadows w) []) as [|kv d] eqn:Ed; [now right|].
  left. revert H. mred. rewrite Ed.
  destruct (replies w) as [|[reason|r] rest]; mred; try discriminate.
  match goal with |- context [sort_desc ?l] => destruct (sort_desc l) end; mred;
    [intros [= <- _]; reflexivity|].
  destruct (PyStr.startswith _ _); mred; intros [= <- _]; reflexivity.
Qed.

Lemma tracks_more_same_location (s s' : MasterState) (w w' : World) :
  nothing_deleted w w' ->
  ms_shadow_profile s' = ms_shadow_profile s ->
  tracks_more s w s' w'.
Proof.
  intros [Hk _] Hl field. unfold read_shadow. rewrite Hl.
  destruct (nth_error (shadows w) (ms_shadow_profile s)) as [d|] eqn:E.
  - destruct (Hk _ _ E) as (d' & E' & Hd).
    rewrite (nth_error_nth _ _ _ E), (nth_error_nth _ _ _ E'). apply Hd.
  - apply nth_error_None in E. rewrite nth_overflow by exact E. discriminate.
Qed.

Lemma workflow_body_tracks (n : master_node) (s : MasterState) (w : World)
    (s' : MasterState) (w' : World) :
  body workflow n s w = (Ok s', w') -> tracks_more s w s' w'.
Proof.
  intros Hb.
  assert (Hk : nothing_deleted w w').
  { pose proof (proj1 (kept_workflow_body n s w)) as H. now rewrite Hb in H. }
  destruct n; cbn [workflow body] in Hb.
  - apply run_chatbot_location in Hb. destruct Hb as [Hl | He].
    + now apply tracks_more_same_location.
    + intros field. rewrite He. discriminate.
  - apply tracks_more_same_location; [exact Hk|]. now apply run_extractor_location in Hb.
  - apply tracks_more_same_location; [exact Hk|]. now apply run_matcher_location in Hb.
  - apply tracks_more_same_location; [exact Hk|]. now apply run_planner_keeps in Hb.
  - apply tracks_more_same_location; [exact Hk|]. now apply run_summarizer_keeps in Hb.
Qed.

Lemma pregel_tracks (limit : nat) (n : master_node) (s : MasterState) (w : World)
    (s' : MasterState) (w' : World) :
  pregel workflow limit n s w = (Ok s', w') -> tracks_more s w s' w'.
Proof.
  revert n s w. induction limit as [|limit IH]; intros n s w Hrun; [discriminate|].
  rewrite pregel_step in Hrun.
  apply bind_ok in Hrun. destruct Hrun as ([] & w1 & Hrec & Hrun).
  mred_in Hrec. injection Hrec as <-.
  apply bind_ok in Hrun. destruct Hrun as (s1 & w2 & Hb & Hrun).
  apply bind_ok in Hrun. destruct Hrun as (next & w3 & He & Hrun).
  pose proof (workflow_edge_world n s1 w2) as Hw. rewrite He in Hw. cbn [snd] in Hw. subst w3.
  apply workflow_body_tracks in Hb.
  assert (H1 : tracks_more s w s1 w2) by (intros field H; now apply Hb).
  destruct next as [n'|].
  - apply IH in Hrun. intros field H. now apply Hrun, H1.
  - injection Hrun as <- <-. exact H1.
Qed.

(** X19.  Over a turn that returns, the session never stops tracking a field: every
    field the shadow profile of the session tracked before the turn is tracked
    by the shadow profile of the new state, and is a key of the
    ["real_profile"] of the answer. *)
Theorem tracked_fields_only_grow
    (user_message session_id : string) (w : World) (before : MasterState)
    (a : Answer) (w' : World) :
  state w = Some before ->
  chat_step user_message session_id w = (Ok a, w') ->
  exists st',
    state w' = Some st'
    /\ (forall field,
          Dict.mem field (read_shadow (ms_shadow_profile before) w) = true ->
          Dict.mem field (read_shadow (ms_shadow_profile st') w') = true
          /\ Dict.mem field (answer_real_profile a) = true).
Proof.
  intros Hstate H. apply chat_step_ok in H.
  destruct H as (_ & before' & after & w1 & am & Hstate' & Hgraph & _ & Hst & Hsh & _ & _
                 & Hans & _).
  rewrite Hstate in Hstate'. injection Hstate' as <-.
  exists after. split; [exact Hst|].
  unfold graph in Hgraph. apply bind_ok in Hgraph.
  destruct Hgraph as (msgs & w0 & Hco & Hrun).
  assert (w0 = turn_started user_message before w) as ->.
  { unfold coerce in Hco. destruct (forallb _ _); now injection Hco. }
  apply pregel_tracks in Hrun.
  intros field Hf.
  assert (Hafter : Dict.mem field (read_shadow (ms_shadow_profile after) w1) = true)
    by now apply Hrun.
  split; [unfold read_shadow in *; now rewrite Hsh|].
  unfold Dict.mem at 1. rewrite Hans.
  rewrite (get_map_keyed
             (fun k => match Dict.get k (read_real (ms_real_profile after) w1) with
                       | Some v => v
                       | None => JBool false
                       end)).
  now rewrite Hafter.
Qed.

Lemma tracked_fields_only_grow_witness :
  state full_session = Some (new_master_state 0 0)
  /\ Dict.mem "savings" (read_shadow 0 full_session) = true
  /\ exists a w' st',
       chat_step full_message "A" full_session = (Ok a, w')
       /\ state w' = Some st'
       /\ Dict.mem "savings" (read_shadow (ms_shadow_profile st') w') = true
       /\ Dict.mem "savings" (answer_real_profile a) = true.
Proof.
  split; [reflexivity|]. split; [reflexivity|].
  destruct (@succeeded_ok _ (chat_step full_message "A") full_session) as (a & Hrun);
    [vm_compute; reflexivity|].
  destruct (@tracked_fields_only_grow full_message "A" full_session (new_master_state 0 0) a
              (after (chat_step full_message "A") full_session) eq_refl Hrun)
    as (st' & Hst & Hfields).
  exists a, (after (chat_step full_message "A") full_session), st'.
  split; [exact Hrun|]. split; [exact Hst|]. now apply Hfields.
Defined.

(** ** Message identifiers and the response of a turn *)

#[export] Instance later_keeps : Keeps later.
Proof.
  constructor; unfold later; intros; lia.
Qed.

Lemma later_step {A} (c : M A) :
  (forall w, next_id w <= next_id (snd (c w)))%nat -> obeys later any_exception c.
Proof. intros H w. split; [apply H | intros; exact I]. Qed.

Create HintDb later discriminated.

#[local] Hint Extern 1 (obeys _ _ (ret _)) => apply obeys_ret; typeclasses eauto : later.
#[local] Hint Extern 1 (obeys _ _ (gets _)) => apply obeys_gets; typeclasses eauto : later.
#[local] Hint Extern 1 (obeys _ _ (raise _)) =>
  apply obeys_raise; [typeclasses eauto | exact I] : later.
#[local] Hint Extern 2 (obeys _ _ (bind _ _)) =>
  apply obeys_bind; [typeclasses eauto| |intros] : later.
#[local] Hint Extern 1 (obeys later _ (modify _)) =>
  apply later_step; intros; cbn; lia : later.
#[local] Hint Extern 1 (obeys later _ fresh_id) =>
  apply later_step; intros; cbn; lia : later.
#[local] Hint Extern 1 (obeys later _ (record _)) =>
  apply later_step; intros; cbn; lia : later.
#[local] Hint Extern 1 (obeys later _ (get_shadow _)) =>
  apply later_step; intros; cbn; lia : later.
#[local] Hint Extern 1 (obeys later _ (get_real _)) =>
  apply later_step; intros; cbn; lia : later.
#[local] Hint Extern 1 (obeys later _ (alloc_shadow _)) =>
  apply later_step; intros; cbn; lia : later.
#[local] Hint Extern 1 (obeys later _ (alloc_real _)) =>
  apply later_step; intros; cbn; lia : later.
#[local] Hint Extern 1 (obeys later _ (modify_shadow _ _)) =>
  apply later_step; intros; cbn; lia : later.
#[local] Hint Extern 1 (obeys later _ (modify_real _ _)) =>
  apply later_step; intros; cbn; lia : later.
#[local] Hint Extern 3 (obeys _ _ (match ?x with _ => _ end)) => destruct x : later.
#[local] Hint Extern 4 (obeys _ _ _) => progress cbv beta : later.

Ltac lately := auto 80 with later nocore.

Lemma later_shadow_or_new (o : option loc) : obeys later any_exception (shadow_or_new o).
Proof. unfold shadow_or_new. lately. Qed.

Lemma later_real_or_new (o : option loc) : obeys later any_exception (real_or_new o).
Proof. unfold real_or_new. lately. Qed.

Lemma later_new_message (t : role) (text : string) :
  obeys later any_exception (new_message t text).
Proof. unfold new_message. lately. Qed.

Lemma later_invoke (m : Model) (s : site) (prompt : list message) :
  obeys later any_exception (invoke m s prompt).
Proof. unfold invoke. lately. Qed.

Lemma later_loads (text : string) : obeys later any_exception (loads text).
Proof. unfold loads. lately. Qed.

#[local] Hint Resolve later_shadow_or_new later_real_or_new later_new_message later_invoke
  later_loads : later.

Lemma later_record (e : event) : obeys later any_exception (record e).
Proof. lately. Qed.

Lemma later_single_node {S} (g : Graph S unit) (s : S) :
  (forall n s0, obeys later any_exception (body g n s0)) ->
  (forall n s0, obeys later any_exception (edge g n s0)) ->
  obeys later any_exception (graph_invoke g s).
Proof.
  intros Hb He. apply obeys_pregel;
    [typeclasses eauto | exact I | apply later_record | exact Hb | exact He].
Qed.

Lemma later_run_extractor (s : MasterState) : obeys later any_exception (run_extractor s).
Proof.
  assert (forall st, obeys later any_exception (call_extractor st))
    by (intros st; unfold call_extractor; lately).
  assert (forall st, obeys later any_exception (graph_invoke extractor_graph st))
    by (intros st; apply later_single_node; intros n s0; cbn [extractor_graph body edge];
        lately).
  unfold run_extractor. lately.
Qed.

Lemma later_run_matcher (s : MasterState) : obeys later any_exception (run_matcher s).
Proof.
  assert (forall st, obeys later any_exception (call_matcher st))
    by (intros st; unfold call_matcher; lately).
  assert (forall st, obeys later any_exception (graph_invoke matcher_graph st))
    by (intros st; apply later_single_node; intros n s0; cbn [matcher_graph body edge];
        lately).
  unfold run_matcher. lately.
Qed.

Lemma replace_or_append_below (n : nat) (m : message) (l : list message) :
  Forall (id_below n) l -> id_below n m -> Forall (id_below n) (replace_or_append m l).
Proof.
  intros Hl Hm. induction Hl as [|x l Hx Hl IH]; cbn; [now constructor|].
  destruct (msg_id_eqb (mid x) (mid m)); constructor; auto.
Qed.

Lemma add_messages_below (n : nat) (right left : list message) :
  Forall (id_below n) left -> Forall (id_below n) right ->
  Forall (id_below n) (add_messages left right).
Proof.
  unfold add_messages. revert left.
  induction right as [|m right IH]; intros left Hl Hr; cbn; [exact Hl|].
  apply Forall_cons_iff in Hr. destruct Hr as [Hm Hr].
  apply IH; [now apply replace_or_append_below | exact Hr].
Qed.

Lemma add_messages_snoc (left right : list message) (m : message) :
  add_messages left (right ++ [m]) = replace_or_append m (add_messages left right).
Proof. unfold add_messages. now rewrite fold_left_app. Qed.

Lemma last_human_of_below (n : nat) (l : list message) :
  Forall (id_below n) l -> Forall (id_below n) (last_human_of l).
Proof.
  intros H. unfold last_human_of.
  assert (Hl1 : forall l0 : list message, Forall (id_below n) l0 -> Forall (id_below n) (last1 l0)).
  { intros l0 H0. unfold last1. apply Forall_rev in H0.
    destruct (rev l0) as [|x r]; [constructor|].
    apply Forall_cons_iff in H0. constructor; [tauto | constructor]. }
  assert (Hf : Forall (id_below n) (last1 (filter (is_type human) l))).
  { apply Hl1. apply Forall_forall. intros x Hx. apply filter_In in Hx.
    rewrite Forall_forall in H. now apply H. }
  destruct (last1 (filter (is_type human) l)) eqn:E; [constructor|].
  rewrite <- E in *. now apply Hl1.
Qed.

Lemma interview_history_below (n : nat) (msgs : list message) :
  Forall (id_below n) msgs -> Forall (id_below n) (interview_history msgs).
Proof.
  intros H. apply Forall_forall. intros m Hm.
  apply interview_history_in in Hm. destruct Hm as [_ [-> | Hm]]; [exact I|].
  rewrite Forall_forall in H. now apply H.
Qed.

Lemma later_ok {A} (c : M A) (w : World) (a : A) (w' : World) :
  obeys later any_exception c -> c w = (Ok a, w') -> (next_id w <= next_id w')%nat.
Proof. intros H E. destruct (H w) as [Hl _]. now rewrite E in Hl. Qed.

Lemma below_later (n n' : nat) (l : list message) :
  (n <= n')%nat -> Forall (id_below n) l -> Forall (id_below n') l.
Proof. intros Hle H. eapply Forall_impl; [|exact H]. intros x. now apply id_below_weaken. Qed.

(** What [call_chatbot] returns: the history it was sent, the snapshot, and
    one new message. *)
Lemma call_chatbot_ok (st : ChatbotState) (w : World) (out : ChatbotState) (w' : World) :
  call_chatbot st w = (Ok out, w') ->
  exists last k,
    cb_messages out = (interview_history (cb_messages st) ++ [snapshot_of st w]) ++ [last]
    /\ mid last = Fresh k /\ (S (next_id w) <= k < next_id w')%nat.
Proof.
  unfold call_chatbot, snapshot_of, shown_profile.
  destruct (cb_shadow_profile st) as [l0|]; mred.
  - destruct (nth l0 (shadows w) []) as [|kv d0] eqn:Ed; mred.
    + rewrite nth_alloc, missing_fields_text_code.
      destruct (replies w) as [|[reason|r] rest]; mred; try discriminate.
      intros [= <- <-]. do 2 eexists. split; [reflexivity|]. split; [reflexivity|]. cbn. lia.
    + rewrite Ed, missing_fields_text_code.
      destruct (replies w) as [|[reason|r] rest]; mred; try discriminate.
      match goal with |- context [sort_desc ?l] => destruct (sort_desc l) end; mred.
      * intros [= <- <-]. do 2 eexists. split; [reflexivity|]. split; [reflexivity|]. cbn. lia.
      * destruct (PyStr.startswith _ _); mred; intros [= <- <-];
          (do 2 eexists; split; [reflexivity|]; split; [reflexivity|]; cbn; lia).
  - rewrite nth_alloc. mred. rewrite nth_alloc, missing_fields_text_code.
    destruct (replies w) as [|[reason|r] rest]; mred; try discriminate.
    intros [= <- <-]. do 2 eexists. split; [reflexivity|]. split; [reflexivity|]. cbn. lia.
Qed.

Lemma chatbot_graph_last (cs : ChatbotState) (w : World) (cs' : ChatbotState) (w' : World) :
  graph_invoke chatbot_graph cs w = (Ok cs', w') ->
  Forall (id_below (next_id w)) (cb_messages cs) ->
  (exists am rest, rev (cb_messages cs') = am :: rest /\ id_from (next_id w) am)
  /\ Forall (id_below (next_id w')) (cb_messages cs').
Proof.
  unfold graph_invoke, recursion_limit. rewrite pregel_step. intros H Hids.
  apply bind_ok in H. destruct H as ([] & w1 & Hrec & H).
  mred_in Hrec. injection Hrec as <-.
  apply bind_ok in H. destruct H as (s1 & w2 & Hb & H).
  cbn [chatbot_graph body edge] in Hb, H.
  apply bind_ok in Hb. destruct Hb as (out & w3 & Hcall & Hb).
  injection Hb as <- <-. mred_in H. injection H as <- <-.
  apply call_chatbot_ok in Hcall. destruct Hcall as (last & k & Hout & Hk & Hle).
  cbn [next_id with_log] in Hle.
  cbn [cb_messages]. rewrite Hout, add_messages_snoc.
  assert (Hacc : Forall (id_below k)
                   (add_messages (cb_messages cs)
                      (interview_history (cb_messages cs) ++ [snapshot_of cs
                         (with_log (log w ++ [Enter "chatbot_graph" "chatbot"]) w)]))).
  { apply add_messages_below.
    + apply below_later with (n := next_id w); [lia | exact Hids].
    + apply Forall_app. split.
      * apply interview_history_below.
        apply below_later with (n := next_id w); [lia | exact Hids].
      * constructor; [|constructor]. unfold id_below, snapshot_of. cbn. lia. }
  rewrite (@replace_or_append_fresh last _ k k); [|exact Hacc|exact Hk|lia]. split.
  - rewrite rev_app_distr. cbn [rev app]. exists last. eexists. split; [reflexivity|].
    exists k. split; [exact Hk | lia].
  - apply Forall_app. split.
    + apply below_later with (n := k); [lia | exact Hacc].
    + constructor; [|constructor]. unfold id_below. rewrite Hk. lia.
Qed.

Lemma run_chatbot_last (s : MasterState) (w : World) (s' : MasterState) (w' : World) :
  run_chatbot s w = (Ok s', w') ->
  Forall (id_below (next_id w)) (cb_messages (ms_chatbot s)) ->
  Forall (id_below (next_id w)) (present (ms_messages s)) ->
  (exists am, last_chatbot_message s' = Some am /\ id_from (next_id w) am)
  /\ Forall (id_below (next_id w')) (cb_messages (ms_chatbot s')).
Proof.
  unfold run_chatbot. intros H Hcb Hms. bind_inv H. injection H as <- <-.
  apply (@later_ok _ _ _ _ _ (@later_shadow_or_new _)) in Hc0.
  apply chatbot_graph_last in Hc.
  - destruct Hc as ((am & rest & Hrev & Hid) & Hall). split.
    + exists am. unfold last_chatbot_message. cbn [ms_chatbot]. rewrite Hrev.
      split; [reflexivity | exact Hid].
    + cbn [ms_chatbot]. eapply below_later; [exact Hc0 | exact Hall].
  - cbn [cb_messages]. unfold into_channel. apply add_messages_below; [constructor|].
    apply Forall_app. split; [exact Hcb | now apply last_human_of_below].
Qed.

Lemma later_summarizer_graph (st : SummarizerState) :
  obeys later any_exception (graph_invoke summarizer_graph st).
Proof.
  assert (forall st0, obeys later any_exception (call_summarizer st0))
    by (intros st0; unfold call_summarizer; lately).
  apply later_single_node; intros n s0; cbn [summarizer_graph body edge]; lately.
Qed.

Lemma run_summarizer_last (s : MasterState) (w : World) (s' : MasterState) (w' : World)
    (am : message) :
  run_summarizer s w = (Ok s', w') ->
  last_chatbot_message s = Some am ->
  Forall (id_below (next_id w)) (cb_messages (ms_chatbot s)) ->
  last_chatbot_message s' = Some am
  /\ Forall (id_below (next_id w')) (cb_messages (ms_chatbot s')).
Proof.
  unfold run_summarizer, last_chatbot_message. intros H Hlast Hcb. bind_inv H.
  injection H as <- <-. cbn [ms_chatbot cb_messages].
  apply (@later_ok _ _ _ _ _ (@later_new_message _ _)) in Hc.
  apply (@later_ok _ _ _ _ _ (@later_summarizer_graph _)) in Hc0.
  assert (Hle : (next_id w1 <= next_id w2)%nat).
  { destruct (sm_summary a0); [now injection Hc1 as _ <- | discriminate]. }
  mred_in Hc2. injection Hc2 as <- <-. cbn [next_id with_next_id].
  split.
  - unfold last1. destruct (rev (cb_messages (ms_chatbot s))) as [|x r]; [discriminate|].
    injection Hlast as ->. reflexivity.
  - constructor; [exact I|]. constructor; [unfold id_below; cbn; lia|].
    unfold last1. destruct (rev (cb_messages (ms_chatbot s))) as [|x r] eqn:Er; [constructor|].
    constructor; [|constructor].
    assert (Hin : In x (cb_messages (ms_chatbot s))).
    { apply in_rev. rewrite Er. now left. }
    rewrite Forall_forall in Hcb. apply Hcb in Hin.
    eapply id_below_weaken; [|exact Hin]. lia.
Qed.

(** From the chatbot node on, the turn ends with a new last message. *)
Lemma pregel_chatbot_last (limit : nat) (s : MasterState) (w : World)
    (out : MasterState) (w' : World) :
  pregel workflow (S (S limit)) Chatbot s w = (Ok out, w') ->
  Forall (id_below (next_id w)) (cb_messages (ms_chatbot s)) ->
  Forall (id_below (next_id w)) (present (ms_messages s)) ->
  (exists am, last_chatbot_message out = Some am /\ id_from (next_id w) am)
  /\ Forall (id_below (next_id w')) (cb_messages (ms_chatbot out)).
Proof.
  rewrite pregel_step. intros H Hcb Hms.
  apply bind_ok in H. destruct H as ([] & w1 & Hrec & H).
  mred_in Hrec. injection Hrec as <-.
  apply bind_ok in H. destruct H as (s1 & w2 & Hrun & H).
  cbn [workflow body] in Hrun.
  apply run_chatbot_last in Hrun; [|exact Hcb|exact Hms].
  destruct Hrun as ((am & Hlast & Hid) & Hall).
  apply bind_ok in H. destruct H as (next & w3 & Hedge & H).
  assert (Hw3 : w3 = w2).
  { pose proof (workflow_edge_world Chatbot s1 w2) as Hw. now rewrite Hedge in Hw. }
  subst w3.
  destruct next as [n'|].
  - assert (Hn : n' = Summarizer).
    { cbn [workflow edge] in Hedge. unfold chatbot_paths, route_decision_summarize in Hedge.
      destruct (_ <=? _)%nat in Hedge; cbn in Hedge; congruence. }
    subst n'. rewrite pregel_step in H.
    apply bind_ok in H. destruct H as ([] & w4 & Hrec & H).
    mred_in Hrec. injection Hrec as <-.
    apply bind_ok in H. destruct H as (s2 & w5 & Hsum & H).
    cbn [workflow body edge] in Hsum, H. mred_in H. injection H as <- <-.
    apply (@run_summarizer_last _ _ _ _ am) in Hsum; [|exact Hlast|exact Hall].
    destruct Hsum as [Hl Ha]. split; [|exact Ha]. exists am. now split.
  - injection H as <- <-. split; [|exact Hall]. exists am. now split.
Qed.

Lemma pregel_matcher_last (limit : nat) (s : MasterState) (w : World)
    (out : MasterState) (w' : World) :
  pregel workflow (S (S (S limit))) Matcher s w = (Ok out, w') ->
  Forall (id_below (next_id w)) (cb_messages (ms_chatbot s)) ->
  Forall (id_below (next_id w)) (present (ms_messages s)) ->
  (exists am, last_chatbot_message out = Some am /\ id_from (next_id w) am)
  /\ Forall (id_below (next_id w')) (cb_messages (ms_chatbot out)).
Proof.
  rewrite pregel_step. intros H Hcb Hms.
  apply bind_ok in H. destruct H as ([] & w1 & Hrec & H).
  mred_in Hrec. injection Hrec as <-.
  apply bind_ok in H. destruct H as (s1 & w2 & Hrun & H).
  cbn [workflow body edge] in Hrun, H. mred_in H.
  assert (Hlater : (next_id w <= next_id w2)%nat)
    by exact (@later_ok _ _ _ _ _ (@later_run_matcher _) Hrun).
  apply run_matcher_keeps in Hrun. destruct Hrun as (Hm & Hc & _).
  apply pregel_chatbot_last in H.
  - destruct H as ((am & Hlast & k & Hk & Hle) & Hall). split; [|exact Hall].
    exists am. split; [exact Hlast|]. exists k. split; [exact Hk | lia].
  - rewrite Hc. eapply below_later; [exact Hlater | exact Hcb].
  - rewrite Hm. eapply below_later; [exact Hlater | exact Hms].
Qed.

Lemma later_run_tool_calls (queries : list string) :
  obeys later any_exception (run_tool_calls queries).
Proof.
  assert (forall q, obeys later any_exception (retrieve q))
    by (intros q; unfold retrieve; lately).
  induction queries as [|q rest IH]; cbn [run_tool_calls]; lately.
Qed.

Lemma later_planner_graph (st : PlannerState) :
  obeys later any_exception (graph_invoke planner_graph st).
Proof.
  pose proof later_run_tool_calls.
  assert (forall st0, obeys later any_exception (tools_node st0))
    by (intros st0; unfold tools_node; lately).
  assert (forall st0, obeys later any_exception (query_or_respond st0))
    by (intros st0; unfold query_or_respond; lately).
  assert (forall st0, obeys later any_exception (call_planner st0))
    by (intros st0; unfold call_planner; lately).
  apply obeys_pregel;
    [typeclasses eauto | exact I | apply later_record | |];
    intros n s0; destruct n; cbn [planner_graph body edge]; lately.
Qed.

Lemma pregel_planner_last (limit : nat) (s : MasterState) (w : World)
    (out : MasterState) (w' : World) :
  pregel workflow (S limit) Planner s w = (Ok out, w') ->
  ms_chatbot out = ms_chatbot s /\ (next_id w <= next_id w')%nat.
Proof.
  rewrite pregel_step. intros H.
  apply bind_ok in H. destruct H as ([] & w1 & Hrec & H).
  mred_in Hrec. injection Hrec as <-.
  apply bind_ok in H. destruct H as (s1 & w2 & Hrun & H).
  cbn [workflow body edge] in Hrun, H. mred_in H. injection H as <- <-.
  split; [now apply run_planner_keeps in Hrun|].
  unfold run_planner in Hrun. bind_inv Hrun. injection Hrun as _ <-.
  exact (@later_ok _ _ _ _ _ (@later_planner_graph _) Hc).
Qed.

Lemma later_call_formatter (raw : string) : obeys later any_exception (call_formatter raw).
Proof. unfold call_formatter. lately. Qed.

Lemma present_map_Some (l : list message) : present (map Some l) = l.
Proof. unfold present. induction l as [|x l IH]; cbn; [reflexivity | now rewrite IH]. Qed.

Lemma present_snoc (l : list (option message)) (m : message) :
  present (l ++ [Some m]) = present l ++ [m].
Proof. unfold present. now rewrite flat_map_app. Qed.

Lemma last_chatbot_message_in (st : MasterState) (am : message) :
  last_chatbot_message st = Some am -> In am (cb_messages (ms_chatbot st)).
Proof.
  unfold last_chatbot_message. destruct (rev (cb_messages (ms_chatbot st))) as [|x r] eqn:E;
    [discriminate|]. intros [= <-]. apply in_rev. rewrite E. now left.
Qed.

Lemma id_from_not_below (n : nat) (m : message) : id_from n m -> id_below n m -> False.
Proof. intros (k & Hk & Hle). unfold id_below. rewrite Hk. lia. Qed.

(** A new session is well numbered when the remembered message is. *)
Lemma start_session_well_numbered (session_id : string) (w : World) :
  match prev_assistant_message w with
  | Some p => id_below (next_id w) p
  | None => True
  end ->
  exists st,
    state (after (start_session session_id) w) = Some st
    /\ well_numbered st (after (start_session session_id) w).
Proof.
  intros Hprev. eexists. split; [reflexivity|].
  split; [|split].
  - repeat constructor.
  - constructor.
  - exact Hprev.
Qed.



(** ** The length of the interviewer's history *)

Lemma run_summarizer_short (s : MasterState) (w : World) (s' : MasterState) (w' : World) :
  run_summarizer s w = (Ok s', w') -> short_history s'.
Proof.
  unfold run_summarizer, short_history. intros H. bind_inv H.
  injection H as <- _. cbn [ms_chatbot cb_messages].
  pose proof (length_last1 (cb_messages (ms_chatbot s))). cbn [app List.length]. lia.
Qed.

(** From any node on, the graph ends with a short history: the chatbot's edge
    sends a long one to the summarizer, and no other node extends it. *)
Lemma pregel_short (limit : nat) (n : master_node) (s : MasterState) (w : World)
    (s' : MasterState) (w' : World) :
  n = Chatbot \/ n = Matcher \/ n = Summarizer \/ short_history s ->
  pregel workflow limit n s w = (Ok s', w') ->
  short_history s'.
Proof.
  revert n s w. induction limit as [|limit IH]; intros n s w Hn Hrun; [discriminate|].
  rewrite pregel_step in Hrun.
  apply bind_ok in Hrun. destruct Hrun as (_ & w1 & _ & Hrun).
  apply bind_ok in Hrun. destruct Hrun as (s1 & w2 & Hb & Hrun).
  apply bind_ok in Hrun. destruct Hrun as (next & w3 & Hedge & Hrun).
  destruct n; cbn [workflow body] in Hb.
  - (* chatbot *)
    rewrite chatbot_edge in Hedge.
    destruct (20 <=? List.length (cb_messages (ms_chatbot s1)))%nat eqn:Hlen;
      injection Hedge as <- <-.
    + apply IH in Hrun; [exact Hrun | tauto].
    + injection Hrun as <- _. unfold short_history. apply Nat.leb_gt in Hlen. exact Hlen.
  - (* extractor *)
    assert (Hs : short_history s).
    { destruct Hn as [Hn|[Hn|[Hn|Hn]]]; [discriminate Hn..|exact Hn]. }
    apply run_extractor_keeps in Hb. destruct Hb as (_ & Hc & _).
    destruct next as [n'|].
    + apply IH in Hrun; [exact Hrun|]. right. right. right.
      unfold short_history. now rewrite Hc.
    + injection Hrun as <- _. unfold short_history. now rewrite Hc.
  - (* matcher *)
    cbn [workflow edge] in Hedge. injection Hedge as <- <-.
    apply IH in Hrun; [exact Hrun | tauto].
  - (* planner *)
    assert (Hs : short_history s).
    { destruct Hn as [Hn|[Hn|[Hn|Hn]]]; [discriminate Hn..|exact Hn]. }
    cbn [workflow edge] in Hedge. injection Hedge as <- <-. injection Hrun as <- _.
    apply run_planner_keeps in Hb. destruct Hb as (_ & Hc & _).
    unfold short_history. now rewrite Hc.
  - (* summarizer *)
    cbn [workflow edge] in Hedge. injection Hedge as <- <-. injection Hrun as <- _.
    now apply run_summarizer_short in Hb.
Qed.

Lemma graph_short (input out : MasterState) (w w' : World) :
  graph input w = (Ok out, w') -> short_history input -> short_history out.
Proof.
  unfold graph. intros H Hs. apply bind_ok in H. destruct H as (msgs & w1 & _ & H).
  unfold graph_invoke in H. apply pregel_short in H; [exact H|].
  right. right. right. exact Hs.
Qed.

Lemma chat_step_short (user_message session_id : string) (w : World) (before : MasterState) :
  state w = Some before ->
  short_history before ->
  exists st',
    state (after (chat_step user_message session_id) w) = Some st'
    /\ short_history st'.
Proof.
  intros Hstate Hs.
  destruct (String.eqb user_message "") eqn:Hm.
  - apply String.eqb_eq in Hm. subst user_message.
    unfold after. rewrite (@chat_step_empty session_id w before Hstate).
    eexists. split; [reflexivity | exact Hs].
  - apply String.eqb_neq in Hm.
    pose proof (@chat_step_state user_message session_id w Hm) as H.
    rewrite Hstate in H. destruct H as [H | (out & w1 & Hgraph & H)].
    + eexists. split; [exact H | exact Hs].
    + exists out. split; [exact H|]. apply graph_short in Hgraph; [exact Hgraph | exact Hs].
Qed.

(** X21.  The interviewer's history stays below the threshold of the summarizer.
    In a session whose interviewer history holds fewer than 20 messages -- a
    new session holds two -- it holds fewer than 20 after any sequence of
    calls of [chat_step], whatever they are given and whether they return or
    raise: a turn that extends the history to 20 or more runs the summarizer,
    which leaves at most three. *)
Theorem interviewer_history_stays_short
    (turns : list (string * string)) (w : World) (before : MasterState) :
  state w = Some before ->
  short_history before ->
  exists st',
    state (after_turns turns w) = Some st'
    /\ short_history st'.
Proof.
  unfold after_turns. revert w before.
  induction turns as [|turn turns IH]; intros w before Hstate Hs; cbn [fold_left].
  - exists before. now split.
  - destruct (@chat_step_short (fst turn) (snd turn) w before Hstate Hs) as (st1 & Hst1 & Hs1).
    exact (IH _ st1 Hst1 Hs1).
Qed.

Lemma interviewer_history_stays_short_witness :
  state session_world = Some session_state
  /\ short_history session_state
  /\ exists st',
       state (after_turns [("I want to retire early", "A"); ("", "A")] session_world)
       = Some st'
       /\ short_history st'.
Proof.
  assert (Hs : short_history session_state) by (unfold short_history; cbn; lia).
  split; [reflexivity|]. split; [exact Hs|].
  exact (@interviewer_history_stays_short [("I want to retire early", "A"); ("", "A")]
           session_world session_state eq_refl Hs).
Defined.
